(** * Per-trade risk management bot (bot.js): the risk policy of one
    monitoring cycle and the monitoring loop.

    Conventions of the embedding.

    - A JavaScript number is an IEEE-754 binary64 value: [float], with the
      kernel's primitive operations.  A field that may be absent
      ([undefined] or [null]) is an [option].
    - A [Date] is its time value, milliseconds since the epoch, in [Z]; a
      [Date] made from a number out of the range of time values is invalid
      and its time value is [NaN], here [None].
    - [accountDoc.blockedSymbols], a Mongoose Map from symbol to Date, is a
      [gmap string Z]; the document field itself may be absent.  The Map
      refuses a key that starts with [$] or holds a [.]: [set] throws.
    - One call of [monitorAccount] is evaluated at one instant [now]: every
      [new Date()] of the cycle reads that instant.  The body of the loop
      over the positions is also given with the instants of its clock reads
      as parameters ([checkPositionAt]); [checkPosition] is that body with
      every read at [now].
    - The calls a cycle makes on its collaborators (alerts, close orders,
      trade history, metrics, document saves) and its writes to the blocking
      state are recorded, in program order, in a log of [Action]s.  A close
      order and a document save may throw; which call throws is an input of
      the cycle. *)

From Stdlib Require Import ZArith List Lia Bool Ascii Floats.PrimFloat.
From Stdlib Require Import Sorting.Sorted Sorting.Permutation.
From stdpp Require Import gmap strings.
Import ListNotations.

Local Open Scope Z_scope.

(** ** JavaScript numbers *)

Module Js.

(** [!x] on a number: [0], [-0] and [NaN] are falsy. *)
Definition falsy (x : float) : bool := PrimFloat.is_zero x || PrimFloat.is_nan x.

(** [x || d] where [x] is a number or absent and [d] a number. *)
Definition orElse (x : option float) (d : float) : float :=
  match x with
  | Some v => if falsy v then d else v
  | None => d
  end.

(** [parseFloat(x || 0)] for a numeric field: [parseFloat] is the identity
    on a number that is neither [-0] nor [NaN]. *)
Definition parseFloatOr0 (x : option float) : float := orElse x 0%float.

(** [parseFloat(a || b || 0)]. *)
Definition parseFloatOr2 (a b : option float) : float :=
  match a with
  | Some v => if falsy v then parseFloatOr0 b else v
  | None => parseFloatOr0 b
  end.

(** [a > b] and [a <= b]; both are false when an operand is [NaN]. *)
Definition gt (a b : float) : bool := PrimFloat.ltb b a.
Definition le (a b : float) : bool := PrimFloat.leb a b.

(** [a || b] on time values: [0] is falsy. *)
Definition orTime (a b : option Z) : option Z :=
  match a with
  | Some t => if t =? 0 then b else Some t
  | None => b
  end.

End Js.

(** ** Dates *)

(** The largest time value of a [Date], in milliseconds either side of the
    epoch. *)
Definition maxTimeValue : Z := 8640000000000000.

(** The time value of [new Date(v)] for a number [v]: [NaN], here [None],
    when [v] is out of range. *)
Definition timeValue (v : Z) : option Z :=
  if Z.abs v <=? maxTimeValue then Some v else None.

(** ** Mongoose maps *)

Module MongooseMap.

Fixpoint hasDot (key : string) : bool :=
  match key with
  | EmptyString => false
  | String a rest => Ascii.eqb a "."%char || hasDot rest
  end.

Definition startsWithDollar (key : string) : bool :=
  match key with
  | EmptyString => false
  | String a _ => Ascii.eqb a "$"%char
  end.

(** The keys a Mongoose Map takes: [set] throws on a key that starts with
    [$] or that holds a [.]. *)
Definition validKey (key : string) : bool :=
  negb (startsWithDollar key) && negb (hasDot key).

End MongooseMap.

(** ** Data model *)

Inductive Side := long | short.

Inductive Level := info | warning | critical.

Inductive Reason :=
| MAX_DRAWDOWN
| MAX_TRADES_EXCEEDED
| LEVERAGE_EXCEEDED
| DAILY_LIMIT_REACHED
| SYMBOL_BLOCKED.

(** A position as the exchange client returns it. *)
Record Position := {
  symbol : string;
  side : Side;
  leverage : option float;
  entryPrice : option float;
  markPrice : option float;
  infoMarkPrice : option float;      (* position.info?.markPrice *)
  unrealizedPnl : option float;
  percentage : option float;
  contracts : option float;
  timestamp : option Z;
  datetime : option Z;
}.

Record RiskParams := {
  dailyDrawdownLimit : float;
  maxDrawdownLimit : float;
  maxLeverage : float;
  maxOpenTrades : Z;
}.

(** The account document (AccountSchema), without credentials. *)
Record AccountDoc := {
  riskParams : RiskParams;
  isActive : bool;
  initialBalance : float;
  lastCheck : option Z;
  blockedSymbols : option (gmap string Z);
  blockedUntil : option Z;
}.

(** A TradeHistory entry. *)
Record TradeRecord := {
  th_symbol : string;
  th_side : Side;
  th_entryPrice : option float;
  th_entryTime : option Z;
  th_exitPrice : option float;
  th_exitTime : Z;
  th_pnlPercent : float;
  th_reason : Reason;
  th_leverage : option float;
  th_size : option float;
}.

Record Metrics := {
  mt_currentBalance : float;
  mt_totalPnL : float;
  mt_dailyPnL : float;
  mt_totalDrawdownPercent : float;
  mt_dailyDrawdownPercent : float;
  mt_openPositions : nat;
}.

(** What an alert is about: its message and data. *)
Inductive AlertTopic :=
| MaxDrawdownReached (limit actual : float)
| AccountBlockedNotice (until : Z)
| TooManyTrades (count : nat) (limit : Z)
| LeverageExceeds (sym : string) (lev limit : float)
| DailyLimitHit (sym : string) (limit actual : float) (until : Z)
| SymbolBlockedNotice (sym : string) (until : Z)
| SymbolIsBlocked (sym : string) (until : option Z).

(** The log entries.  [CloseOne] is a call of [closePosition]; its reason is
    the rule under which the call is made, the one the source writes in the
    trade record that follows.  [CloseAll] is the call of
    [closeAllPositions], which catches its own errors; the orders it
    sends, on the positions it fetches itself, are those of
    [closeAllPositions] below, put behind the entry by [ordersOf]. *)
Inductive Action :=
| Alert (level : Level) (topic : AlertTopic)
| CloseAll (reason : Reason)
| CloseOne (sym : string) (sd : Side) (reason : Reason)
| BlockAccountUntil (until : Z)
| BlockSymbolUntil (sym : string) (until : Z)
| RecordTrade (t : TradeRecord)
| RecordMetrics (m : Metrics)
| SaveAccount (d : AccountDoc).

Definition setBlockedUntil (v : option Z) (d : AccountDoc) : AccountDoc :=
  {| riskParams := riskParams d; isActive := isActive d;
     initialBalance := initialBalance d; lastCheck := lastCheck d;
     blockedSymbols := blockedSymbols d; blockedUntil := v |}.

Definition setBlockedSymbols (v : option (gmap string Z)) (d : AccountDoc) : AccountDoc :=
  {| riskParams := riskParams d; isActive := isActive d;
     initialBalance := initialBalance d; lastCheck := lastCheck d;
     blockedSymbols := v; blockedUntil := blockedUntil d |}.

Definition setIsActive (v : bool) (d : AccountDoc) : AccountDoc :=
  {| riskParams := riskParams d; isActive := v;
     initialBalance := initialBalance d; lastCheck := lastCheck d;
     blockedSymbols := blockedSymbols d; blockedUntil := blockedUntil d |}.

Definition setLastCheck (v : option Z) (d : AccountDoc) : AccountDoc :=
  {| riskParams := riskParams d; isActive := isActive d;
     initialBalance := initialBalance d; lastCheck := v;
     blockedSymbols := blockedSymbols d; blockedUntil := blockedUntil d |}.

(** ** The daily boundary *)

Definition msPerDay : Z := 86400000.

(** [getMidnightTonight]: [setHours(24, 0, 0, 0)] on the current date, the
    start of the next local calendar day.  [tz] is the local zone's offset
    from UTC in milliseconds, taken as fixed. *)
Definition getMidnightTonight (tz now : Z) : Z :=
  ((now + tz) / msPerDay) * msPerDay + msPerDay - tz.

(** ** Reads of the blocking state *)

(** [isSymbolBlocked(accountDoc, symbol)]: the answer and the document after
    the read. *)
Definition isSymbolBlocked (now : Z) (d : AccountDoc) (sym : string)
  : bool * AccountDoc :=
  match blockedSymbols d with
  | None => (false, d)
  | Some m =>
      match m !! sym with
      | None => (false, d)
      | Some until =>
          if now <? until then (true, d)
          else (false, setBlockedSymbols (Some (delete sym m)) d)
      end
  end.

(** [isAccountBlocked(accountDoc)]. *)
Definition isAccountBlocked (now : Z) (d : AccountDoc) : bool * AccountDoc :=
  match blockedUntil d with
  | None => (false, d)
  | Some until =>
      if now <? until then (true, d)
      else (false, setBlockedUntil None d)
  end.

(** ** Trade P&L and the open time of a position *)

(** The P&L percent of one position, as the per-position loop computes it. *)
Definition tradePnLPercent (p : Position) : float :=
  let lev := Js.parseFloatOr0 (leverage p) in
  let entry := Js.parseFloatOr0 (entryPrice p) in
  let mark := Js.parseFloatOr2 (markPrice p) (infoMarkPrice p) in
  let pct := Js.parseFloatOr0 (percentage p) in
  if Js.falsy pct && negb (Js.falsy entry) && negb (Js.falsy mark) then
    match side p with
    | long => ((mark - entry) / entry * 100 * lev)%float
    | short => ((entry - mark) / entry * 100 * lev)%float
    end
  else pct.

(** [new Date(a.timestamp || a.datetime || 0).getTime()]; [None] is [NaN]. *)
Definition openTime (p : Position) : option Z :=
  timeValue (match Js.orTime (timestamp p) (datetime p) with
             | Some t => t
             | None => 0
             end).

(** [[...positions].sort((a, b) => timeB - timeA)].  The comparator orders
    by open time, newest first; when one of the two times is [NaN] its
    result is [NaN], which [Array.prototype.sort] reads as [0]: the two
    compare equal.  The sort is stable.  For a consistent comparator (all
    open times valid, or all comparing equal) every conforming engine
    returns the array built here by stable insertion; for one that is not,
    the order is left to the engine, and what is stated about the order
    below is stated for valid open times. *)
Module NewestFirst.

(** The comparator puts [p] after [q]: [timeQ - timeP > 0]. *)
Definition olderThan (p q : Position) : bool :=
  match openTime p, openTime q with
  | Some a, Some b => a <? b
  | _, _ => false
  end.

Fixpoint insert (p : Position) (l : list Position) : list Position :=
  match l with
  | [] => [p]
  | q :: l' =>
      if olderThan p q then q :: insert p l' else p :: q :: l'
  end.

Definition sort (l : list Position) : list Position :=
  fold_right insert [] l.

End NewestFirst.

(** [arr.slice(0, n)] for an integer [n]. *)
Definition slice0 {A} (n : Z) (l : list A) : list A :=
  if n <? 0 then firstn (Z.to_nat (Z.of_nat (length l) + n)) l
  else firstn (Z.to_nat n) l.

(** ** One cycle: inputs, machine state, steps *)

(** What a cycle reads from outside. *)
Record Cycle := {
  now : Z;
  tz : Z;
  fetchedBalance : option float;          (* getAccountBalance; None: it throws *)
  fetchedPositions : option (list Position); (* exchange.fetchPositions; None: it throws *)
  closeThrows : nat -> bool;              (* does the k-th closePosition throw *)
  saveThrows : nat -> bool;               (* does the k-th accountDoc.save() throw *)
}.

(** What a cycle reads and writes: the document, the in-memory account
    state, the log, and how many close orders and saves were made. *)
Record Machine := {
  doc : AccountDoc;                       (* accountDoc *)
  stateIsActive : bool;                   (* accountState.isActive *)
  stateInitialBalance : float;            (* accountState.initialBalance *)
  log : list Action;
  closeCalls : nat;
  saveCalls : nat;
}.

Definition withDoc (d : AccountDoc) (m : Machine) : Machine :=
  {| doc := d; stateIsActive := stateIsActive m;
     stateInitialBalance := stateInitialBalance m; log := log m;
     closeCalls := closeCalls m; saveCalls := saveCalls m |}.

Definition withStateIsActive (b : bool) (m : Machine) : Machine :=
  {| doc := doc m; stateIsActive := b;
     stateInitialBalance := stateInitialBalance m; log := log m;
     closeCalls := closeCalls m; saveCalls := saveCalls m |}.

Definition logged (a : Action) (m : Machine) : Machine :=
  {| doc := doc m; stateIsActive := stateIsActive m;
     stateInitialBalance := stateInitialBalance m; log := log m ++ [a];
     closeCalls := closeCalls m; saveCalls := saveCalls m |}.

Definition countClose (m : Machine) : Machine :=
  {| doc := doc m; stateIsActive := stateIsActive m;
     stateInitialBalance := stateInitialBalance m; log := log m;
     closeCalls := S (closeCalls m); saveCalls := saveCalls m |}.

Definition countSave (m : Machine) : Machine :=
  {| doc := doc m; stateIsActive := stateIsActive m;
     stateInitialBalance := stateInitialBalance m; log := log m;
     closeCalls := closeCalls m; saveCalls := S (saveCalls m) |}.

Inductive Outcome (A : Type) :=
| Returned (a : A) (m : Machine)
| Threw (m : Machine).
Arguments Returned {A} a m.
Arguments Threw {A} m.

Definition Step (A : Type) : Type := Machine -> Outcome A.

Definition ret {A} (a : A) : Step A := fun m => Returned a m.

(** A call that throws before it does anything. *)
Definition throw {A} : Step A := fun m => Threw m.

Definition bind {A B} (c : Step A) (k : A -> Step B) : Step B :=
  fun m => match c m with
           | Returned a m' => k a m'
           | Threw m' => Threw m'
           end.

Declare Scope step_scope.
Delimit Scope step_scope with step.
Notation "x <- c ;; k" := (bind c (fun x => k))
  (at level 100, c at next level, right associativity) : step_scope.
Notation "c ;; k" := (bind c (fun _ => k))
  (at level 100, right associativity) : step_scope.
Local Open Scope step_scope.

Definition machineOf {A} (o : Outcome A) : Machine :=
  match o with
  | Returned _ m => m
  | Threw m => m
  end.

Definition emit (a : Action) : Step unit :=
  fun m => Returned tt (logged a m).

Definition getDoc : Step AccountDoc := fun m => Returned (doc m) m.

Definition getInitialBalance : Step float :=
  fun m => Returned (stateInitialBalance m) m.

Definition modifyDoc (f : AccountDoc -> AccountDoc) : Step unit :=
  fun m => Returned tt (withDoc (f (doc m)) m).

Definition setStateIsActive (b : bool) : Step unit :=
  fun m => Returned tt (withStateIsActive b m).

(** A read of the blocking state: the answer, and the document as the read
    leaves it. *)
Definition readDoc {A} (f : AccountDoc -> A * AccountDoc) : Step A :=
  fun m => Returned (fst (f (doc m))) (withDoc (snd (f (doc m))) m).

(** [closePosition]: the order is sent; on an error the function rethrows. *)
Definition closePosition (c : Cycle) (sym : string) (sd : Side) (r : Reason)
  : Step unit :=
  fun m =>
    let m' := countClose (logged (CloseOne sym sd r) m) in
    if closeThrows c (closeCalls m) then Threw m' else Returned tt m'.

(** [accountDoc.save()]. *)
Definition save (c : Cycle) : Step unit :=
  fun m =>
    let m' := countSave (logged (SaveAccount (doc m)) m) in
    if saveThrows c (saveCalls m) then Threw m' else Returned tt m'.

(** [getAccountBalance]: rethrows the exchange's error. *)
Definition getAccountBalance (c : Cycle) : Step float :=
  fun m => match fetchedBalance c with
           | Some b => Returned b m
           | None => Threw m
           end.

(** [getOpenPositions]: the positions of strictly positive size; the empty
    list when the fetch fails. *)
Definition getOpenPositions (c : Cycle) : list Position :=
  match fetchedPositions c with
  | Some ps =>
      List.filter (fun pos => Js.gt (Js.parseFloatOr0 (contracts pos)) 0%float) ps
  | None => []
  end.

(** [for (const x of l) { body }]. *)
Fixpoint forEach {A} (body : A -> Step unit) (l : list A) : Step unit :=
  match l with
  | [] => ret tt
  | x :: l' => body x ;; forEach body l'
  end.

(** ** monitorAccount *)

(** The trade-history entry the per-position rules write, [exit] being the
    instant [new Date()] reads for [exitTime]. *)
Definition tradeRecordAt (exit : Z) (position : Position) (r : Reason)
  : TradeRecord :=
  {| th_symbol := symbol position;
     th_side := side position;
     th_entryPrice := Some (Js.parseFloatOr0 (entryPrice position));
     th_entryTime := Js.orTime (timestamp position) (datetime position);
     th_exitPrice :=
       Some (Js.parseFloatOr2 (markPrice position) (infoMarkPrice position));
     th_exitTime := exit;
     th_pnlPercent := tradePnLPercent position;
     th_reason := r;
     th_leverage := Some (Js.parseFloatOr0 (leverage position));
     th_size := contracts position |}.

Definition tradeRecord (c : Cycle) (position : Position) (r : Reason) : TradeRecord :=
  tradeRecordAt (now c) position r.

(** The trade-history entry of rule 2, from the raw fields. *)
Definition excessTradeRecord (c : Cycle) (trade : Position) : TradeRecord :=
  {| th_symbol := symbol trade;
     th_side := side trade;
     th_entryPrice := entryPrice trade;
     th_entryTime := Js.orTime (timestamp trade) (datetime trade);
     th_exitPrice := markPrice trade;
     th_exitTime := now c;
     th_pnlPercent := Js.orElse (percentage trade) 0%float;
     th_reason := MAX_TRADES_EXCEEDED;
     th_leverage := leverage trade;
     th_size := contracts trade |}.

(** [accountDoc.blockedUntil = until]. *)
Definition blockAccount (until : Z) : Step unit :=
  modifyDoc (setBlockedUntil (Some until)) ;;
  emit (BlockAccountUntil until).

(** The document with [sym] mapped to [until] in its blocked symbols, the
    map being made first when it is absent: what a [set] that returns
    leaves. *)
Definition withSymbolBlocked (sym : string) (until : Z) (d : AccountDoc)
  : AccountDoc :=
  setBlockedSymbols
    (Some (<[sym := until]> (match blockedSymbols d with
                             | Some m => m
                             | None => ∅
                             end))) d.

(** [if (!accountDoc.blockedSymbols) accountDoc.blockedSymbols = new Map();
    accountDoc.blockedSymbols.set(symbol, until)]: [set] throws, and
    nothing is written, when the Map refuses the key. *)
Definition blockSymbol (sym : string) (until : Z) : Step unit :=
  if MongooseMap.validKey sym then
    modifyDoc (withSymbolBlocked sym until) ;;
    emit (BlockSymbolUntil sym until)
  else throw.

(** Rule 1, the body of the max-drawdown branch. *)
Definition maxDrawdown (c : Cycle) (rp : RiskParams) (totalDrawdownPercent : float)
  : Step unit :=
  emit (Alert critical (MaxDrawdownReached (maxDrawdownLimit rp) totalDrawdownPercent)) ;;
  emit (CloseAll MAX_DRAWDOWN) ;;
  blockAccount (getMidnightTonight (tz c) (now c)) ;;
  modifyDoc (setIsActive false) ;;
  save c ;;
  emit (Alert critical (AccountBlockedNotice (getMidnightTonight (tz c) (now c)))) ;;
  setStateIsActive false.

(** Rule 2, one excess trade. *)
Definition closeExcessTrade (c : Cycle) (trade : Position) : Step unit :=
  closePosition c (symbol trade) (side trade) MAX_TRADES_EXCEEDED ;;
  emit (RecordTrade (excessTradeRecord c trade)).

(** The trades rule 2 closes. *)
Definition tradesToClose (rp : RiskParams) (positions : list Position) : list Position :=
  slice0 (Z.of_nat (length positions) - maxOpenTrades rp) (NewestFirst.sort positions).

(** Rule 2. *)
Definition maxOpenTradesRule (c : Cycle) (rp : RiskParams) (positions : list Position)
  : Step unit :=
  if Z.of_nat (length positions) >? maxOpenTrades rp then
    emit (Alert warning (TooManyTrades (length positions) (maxOpenTrades rp))) ;;
    forEach (closeExcessTrade c) (tradesToClose rp positions)
  else ret tt.

(** The instants one iteration of the loop over the positions reads off the
    clock, in program order: [getMidnightTonight()] in the data of the
    daily-limit alert, in [blockedSymbols.set] and in the closing alert of
    rule 4, [new Date()] in [isSymbolBlocked], and [new Date()] for the
    [exitTime] of the trade record. *)
Record Reads := {
  atAlert : Z;
  atBlock : Z;
  atNotice : Z;
  atCheck : Z;
  atExit : Z;
}.

(** Every read at the same instant. *)
Definition readsAt (t : Z) : Reads :=
  {| atAlert := t; atBlock := t; atNotice := t; atCheck := t; atExit := t |}.

(** Rules 3 and 4 and the blocked-symbol check: the body of the loop over
    the positions, reading the clock at [t]. *)
Definition checkPositionAt (c : Cycle) (rp : RiskParams) (position : Position)
  (t : Reads) : Step unit :=
  let sym := symbol position in
  let sd := side position in
  let lev := Js.parseFloatOr0 (leverage position) in
  let pnl := tradePnLPercent position in
  if Js.gt lev (maxLeverage rp) then
    emit (Alert warning (LeverageExceeds sym lev (maxLeverage rp))) ;;
    closePosition c sym sd LEVERAGE_EXCEEDED ;;
    emit (RecordTrade (tradeRecordAt (atExit t) position LEVERAGE_EXCEEDED))
  else if Js.le pnl (- PrimFloat.abs (dailyDrawdownLimit rp))%float then
    emit (Alert critical
            (DailyLimitHit sym (dailyDrawdownLimit rp) pnl
               (getMidnightTonight (tz c) (atAlert t)))) ;;
    closePosition c sym sd DAILY_LIMIT_REACHED ;;
    blockSymbol sym (getMidnightTonight (tz c) (atBlock t)) ;;
    save c ;;
    emit (RecordTrade (tradeRecordAt (atExit t) position DAILY_LIMIT_REACHED)) ;;
    emit (Alert warning
            (SymbolBlockedNotice sym (getMidnightTonight (tz c) (atNotice t))))
  else
    blocked <- readDoc (fun d => isSymbolBlocked (atCheck t) d sym) ;;
    if (blocked : bool) then
      d <- getDoc ;;
      emit (Alert warning
              (SymbolIsBlocked sym (match blockedSymbols d with
                                    | Some m => m !! sym
                                    | None => None
                                    end))) ;;
      closePosition c sym sd SYMBOL_BLOCKED ;;
      emit (RecordTrade (tradeRecordAt (atExit t) position SYMBOL_BLOCKED))
    else ret tt.

(** The body of the loop in a cycle evaluated at the one instant [now c]. *)
Definition checkPosition (c : Cycle) (rp : RiskParams) (position : Position)
  : Step unit :=
  checkPositionAt c rp position (readsAt (now c)).

(** The loop over positions examined at the instants paired with them. *)
Definition timedLoop (c : Cycle) (rp : RiskParams)
  (l : list (Position * Reads)) : Step unit :=
  forEach (fun x => checkPositionAt c rp (fst x) (snd x)) l.

(** The account-level P&L percent. *)
Definition totalDrawdownPercentOf (initial currentBalance : float) : float :=
  ((currentBalance - initial) / initial * 100)%float.

(** The end of the [try] block: the metrics are saved, [lastCheck] is set
    and the document is saved. *)
Definition closing (c : Cycle) (currentBalance totalPnL totalDrawdownPercent : float)
  (positions : list Position) : Step unit :=
  emit (RecordMetrics
          {| mt_currentBalance := currentBalance;
             mt_totalPnL := totalPnL;
             mt_dailyPnL := 0%float;
             mt_totalDrawdownPercent := totalDrawdownPercent;
             mt_dailyDrawdownPercent := 0%float;
             mt_openPositions := length positions |}) ;;
  modifyDoc (setLastCheck (Some (now c))) ;;
  save c.

(** The body of the [try] block. *)
Definition monitorBody (c : Cycle) : Step unit :=
  d0 <- getDoc ;;
  let rp := riskParams d0 in
  blocked <- readDoc (isAccountBlocked (now c)) ;;
  if (blocked : bool) then ret tt
  else
    currentBalance <- getAccountBalance c ;;
    let positions := getOpenPositions c in
    initial <- getInitialBalance ;;
    let totalPnL := (currentBalance - initial)%float in
    let totalDrawdownPercent := totalDrawdownPercentOf initial currentBalance in
    if Js.le totalDrawdownPercent (- PrimFloat.abs (maxDrawdownLimit rp))%float then
      maxDrawdown c rp totalDrawdownPercent
    else
      maxOpenTradesRule c rp positions ;;
      forEach (checkPosition c rp) positions ;;
      closing c currentBalance totalPnL totalDrawdownPercent positions.

(** [monitorAccount(accountDoc, accountState)]: the [catch] only prints the
    error, so the call always returns, with what was done before the throw. *)
Definition monitorAccount (c : Cycle) (m : Machine) : Machine :=
  machineOf (monitorBody c m).

(** ** The monitoring loop of startMonitoring *)

(** What one visit of an account reads from outside: the document
    [Account.findById] returns ([None]: the query throws or finds nothing)
    and the inputs of the cycle. *)
Record Visit := {
  reloaded : option AccountDoc;
  cycle : Cycle;
}.

Definition beginCycle (d : AccountDoc) (m : Machine) : Machine :=
  {| doc := d; stateIsActive := stateIsActive m;
     stateInitialBalance := stateInitialBalance m; log := log m;
     closeCalls := 0; saveCalls := 0 |}.

(** The body of [for (const accountState of accountStates)]; [None] when it
    throws. *)
Definition visitAccount (v : Visit) (m : Machine) : option Machine :=
  if negb (stateIsActive m) then Some m
  else
    match reloaded v with
    | None => None
    | Some d => Some (monitorAccount (cycle v) (beginCycle d m))
    end.

(** One pass of the [while] loop over the account states, the account at
    index [i] reading [w i]: a throw leaves the rest of the pass undone. *)
Fixpoint monitoringPass (w : nat -> Visit) (i : nat) (ms : list Machine)
  : list Machine :=
  match ms with
  | [] => []
  | m :: ms' =>
      match visitAccount (w i) m with
      | Some m' => m' :: monitoringPass w (S i) ms'
      | None => m :: ms'
      end
  end.

(** The passes of the loop, one family of visits per pass. *)
Definition monitoringLoop (passes : list (nat -> Visit)) (ms : list Machine)
  : list Machine :=
  fold_left (fun acc w => monitoringPass w 0 acc) passes ms.


(** ** Orders on the exchange: closePosition and closeAllPositions *)

Inductive OrderSide := sell | buy.

Inductive OrderType := market | limit.

(** The arguments of [exchange.createOrder]. *)
Record Order := {
  ord_symbol : string;
  ord_type : OrderType;
  ord_side : OrderSide;
  ord_amount : option float;
  ord_price : option float;
  ord_reduceOnly : bool;
}.

(** The order [closePosition] creates: a market order in the direction
    opposite to the position, for the entire position, reduce-only. *)
Definition closingOrder (sym : string) (sd : Side) : Order :=
  {| ord_symbol := sym;
     ord_type := market;
     ord_side := match sd with long => sell | short => buy end;
     ord_amount := None;
     ord_price := None;
     ord_reduceOnly := true |}.

(** The filter of [getOpenPositions], on what [exchange.fetchPositions]
    returned ([None]: it threw). *)
Definition openPositionsOf (fetched : option (list Position)) : list Position :=
  match fetched with
  | Some ps =>
      List.filter (fun pos => Js.gt (Js.parseFloatOr0 (contracts pos)) 0%float) ps
  | None => []
  end.

(** The loop of [closeAllPositions]: the orders submitted, the [k]-th call of
    [closePosition] throwing when [throws k]; a throw leaves the loop. *)
Fixpoint closeEach (throws : nat -> bool) (k : nat) (positions : list Position)
  : list Order :=
  match positions with
  | [] => []
  | position :: rest =>
      closingOrder (symbol position) (side position)
      :: (if throws k then [] else closeEach throws (S k) rest)
  end.

(** [closeAllPositions]: the positions are fetched again and closed one by
    one; the function catches every error.  The result is the list of the
    orders it submits, the last of which may be the one that threw. *)
Definition closeAllPositions (refetched : option (list Position))
  (throws : nat -> bool) : list Order :=
  closeEach throws 0 (openPositionsOf refetched).

(** ** The orders a cycle sends *)

(** What the call of [closeAllPositions] in rule 1 reads from outside: the
    positions it fetches itself and which of its close orders throw. *)
Record CloseAllRun := {
  refetchedPositions : option (list Position);
  closeAllThrows : nat -> bool;
}.

(** The orders behind an entry of the log: the order of a call of
    [closePosition], the orders of the call of [closeAllPositions], none
    for the other entries. *)
Definition ordersOf (run : CloseAllRun) (a : Action) : list Order :=
  match a with
  | CloseOne sym sd _ => [closingOrder sym sd]
  | CloseAll _ =>
      closeAllPositions (refetchedPositions run) (closeAllThrows run)
  | _ => []
  end.

Definition ordersSent (run : CloseAllRun) (l : list Action) : list Order :=
  flat_map (ordersOf run) l.

(** ** initializeAccount *)

(** What the initialization of one account reads from outside. *)
Record InitInputs := {
  clientCreated : bool;            (* createExchangeClient returned a client *)
  initBalance : option float;      (* getAccountBalance; None: it throws *)
  initSaveThrows : bool;           (* accountDoc.save() throws *)
}.

(** What the initialization writes: a save of the document, the critical
    alert 'Account initialization failed'. *)
Inductive InitEvent :=
| InitSave (d : AccountDoc)
| InitFailedAlert.

Definition setInitialBalance (v : float) (d : AccountDoc) : AccountDoc :=
  {| riskParams := riskParams d; isActive := isActive d;
     initialBalance := v; lastCheck := lastCheck d;
     blockedSymbols := blockedSymbols d; blockedUntil := blockedUntil d |}.

(** The account state [initializeAccount] returns for a document. *)
Definition newAccountState (d : AccountDoc) : Machine :=
  {| doc := d; stateIsActive := true;
     stateInitialBalance := initialBalance d;
     log := []; closeCalls := 0; saveCalls := 0 |}.

(** [initializeAccount(accountDoc)]: the account state, or [None] for
    [null], and the events.  An [initialBalance] that was never set reads as
    falsy, like [0]. *)
Definition initializeAccount (i : InitInputs) (accountDoc : AccountDoc)
  : option Machine * list InitEvent :=
  if negb (clientCreated i) then (None, [InitFailedAlert])
  else
    match initBalance i with
    | None => (None, [InitFailedAlert])
    | Some balance =>
        if Js.falsy (initialBalance accountDoc) then
          let d := setInitialBalance balance accountDoc in
          if initSaveThrows i then (None, [InitSave d; InitFailedAlert])
          else (Some (newAccountState d), [InitSave d])
        else (Some (newAccountState accountDoc), [])
    end.

(** ** startMonitoring: from the start to the loop *)

(** [loadActiveAccounts]: the stored accounts with [isActive: true]; the
    empty list when the query fails. *)
Definition loadActiveAccounts (stored : option (list AccountDoc)) : list AccountDoc :=
  match stored with
  | Some ds => List.filter isActive ds
  | None => []
  end.

(** The loop that initializes the loaded accounts, the [k]-th one reading
    [inits k]: the states of those that did not fail, in order. *)
Fixpoint initializeAll (inits : nat -> InitInputs) (k : nat)
  (accounts : list AccountDoc) : list Machine :=
  match accounts with
  | [] => []
  | accountDoc :: rest =>
      match fst (initializeAccount (inits k) accountDoc) with
      | Some state => state :: initializeAll inits (S k) rest
      | None => initializeAll inits (S k) rest
      end
  end.

(** What the start reads from outside. *)
Record Startup := {
  connected : bool;                       (* connectToDatabase *)
  stored : option (list AccountDoc);      (* the Account collection; None: the query fails *)
  inits : nat -> InitInputs;
}.

(** [startMonitoring] up to the loop: the account states the loop will
    visit, or [None] when the function returns before it. *)
Definition startMonitoring (s : Startup) : option (list Machine) :=
  if negb (connected s) then None
  else
    match loadActiveAccounts (stored s) with
    | [] => None
    | accounts =>
        match initializeAll (inits s) 0 accounts with
        | [] => None
        | accountStates => Some accountStates
        end
    end.

(** ** decryptApiKey: the parts of the encrypted buffer *)

(** [buffer.subarray(start, stop)]: the indices are clamped to the buffer. *)
Definition subarray {A} (start stop : nat) (buffer : list A) : list A :=
  firstn (stop - start) (skipn start buffer).

(** The salt, the initialization vector, the authentication tag and the
    encrypted data [decryptApiKey] reads off the decoded buffer. *)
Record Envelope := {
  env_salt : list Byte.byte;
  env_iv : list Byte.byte;
  env_tag : list Byte.byte;
  env_encrypted : list Byte.byte;
}.

Definition envelopeOf (buffer : list Byte.byte) : Envelope :=
  {| env_salt := subarray 0 64 buffer;
     env_iv := subarray 64 80 buffer;
     env_tag := subarray 80 96 buffer;
     env_encrypted := skipn 96 buffer |}.
(** ** Classifying log entries *)

#[global] Instance Reason_eq_dec : EqDecision Reason.
Proof. solve_decision. Defined.

(** The close orders of a log made under reason [r]: symbol and side. *)
Fixpoint closedFor (r : Reason) (l : list Action) : list (string * Side) :=
  match l with
  | [] => []
  | CloseOne sym sd r' :: l' =>
      if decide (r = r') then (sym, sd) :: closedFor r l' else closedFor r l'
  | _ :: l' => closedFor r l'
  end.

(** Entries that only rules 2, 3, 4 and the blocked-symbol check make. *)
Definition perPosition (a : Action) : bool :=
  match a with
  | CloseOne _ _ _ | RecordTrade _ | BlockSymbolUntil _ _ => true
  | Alert _ (TooManyTrades _ _) | Alert _ (LeverageExceeds _ _ _)
  | Alert _ (DailyLimitHit _ _ _ _) | Alert _ (SymbolBlockedNotice _ _)
  | Alert _ (SymbolIsBlocked _ _) => true
  | _ => false
  end.

(** ** What a step may do to the log *)

(** A step only appends to the log. *)
Definition appends {A} (s : Step A) : Prop :=
  forall m, exists ext, log (machineOf (s m)) = log m ++ ext.

(** A step sends no close order under reason [r]. *)
Definition sendsNo {A} (r : Reason) (s : Step A) : Prop :=
  forall m, closedFor r (log (machineOf (s m))) = closedFor r (log m).

(** ** Where a cycle stands *)

(** The cycle gets past the account-block gate, fetches the balance [b] and
    rule 1 does not trip: rule 2 and the loop over the positions run. *)
Definition passesAccountRules (c : Cycle) (m : Machine) (b : float) : Prop :=
  fst (isAccountBlocked (now c) (doc m)) = false /\
  fetchedBalance c = Some b /\
  Js.le (totalDrawdownPercentOf (stateInitialBalance m) b)
        (- PrimFloat.abs (maxDrawdownLimit (riskParams (doc m))))%float = false.

(** The machine after the gate let the cycle through. *)
Definition afterGate (c : Cycle) (m : Machine) : Machine :=
  withDoc (snd (isAccountBlocked (now c) (doc m))) m.

(** The loop over the positions has examined [done], a prefix of the open
    positions, without a throw, and stands in [m1] before the next one. *)
Definition loopReaches (c : Cycle) (m : Machine) (done : list Position)
  (m1 : Machine) : Prop :=
  exists b : float,
    passesAccountRules c m b /\
    (maxOpenTradesRule c (riskParams (doc m)) (getOpenPositions c) ;;
     forEach (checkPosition c (riskParams (doc m))) done) (afterGate c m)
    = Returned tt m1.

(** The end of a cycle that fetched the balance [b]. *)
Definition closingOf (c : Cycle) (m : Machine) (b : float) : Step unit :=
  closing c b (b - stateInitialBalance m)%float
    (totalDrawdownPercentOf (stateInitialBalance m) b) (getOpenPositions c).

(** ** Order of opening *)

(** The open time of the position is one a [Date] holds. *)
Definition validTime (p : Position) : Prop := exists t, openTime p = Some t.

(** The open time of a position whose open time is valid. *)
Definition timeOf (p : Position) : Z :=
  match openTime p with
  | Some t => t
  | None => 0
  end.

(** [a] may stand before [b] in the newest-first order. *)
Definition notOlder (a b : Position) : Prop := timeOf b <= timeOf a.

(** [a] was opened strictly before [b]. *)
Definition openedBefore (a b : Position) : Prop := timeOf a < timeOf b.

(** The position was opened at time [t]. *)
Definition openedAt (t : Z) (p : Position) : bool := timeOf p =? t.

(** The symbol and side of a position, as a close order names it. *)
Definition orderOf (p : Position) : string * Side := (symbol p, side p).

(** What rule 2 logs for one excess trade when its order goes through. *)
Definition excessEntries (c : Cycle) (trade : Position) : list Action :=
  [ CloseOne (symbol trade) (side trade) MAX_TRADES_EXCEEDED;
    RecordTrade (excessTradeRecord c trade) ].

(** ** What the loop logs for one position *)


(** The entries of rule 4 up to the save of the document, and those that
    follow when the save returns. *)
Definition dailyLimitEntries (c : Cycle) (rp : RiskParams) (p : Position)
  (d : AccountDoc) : list Action :=
  let midnight := getMidnightTonight (tz c) (now c) in
  [ Alert critical
      (DailyLimitHit (symbol p) (dailyDrawdownLimit rp) (tradePnLPercent p) midnight);
    CloseOne (symbol p) (side p) DAILY_LIMIT_REACHED;
    BlockSymbolUntil (symbol p) midnight;
    SaveAccount (withSymbolBlocked (symbol p) midnight d) ].

Definition dailyLimitEntriesSaved (c : Cycle) (p : Position) : list Action :=
  [ RecordTrade (tradeRecord c p DAILY_LIMIT_REACHED);
    Alert warning
      (SymbolBlockedNotice (symbol p) (getMidnightTonight (tz c) (now c))) ].

(** The entries of the blocked-symbol check for a position whose order goes
    through; [until] is the stored end of the block. *)
Definition symbolBlockedEntries (c : Cycle) (p : Position) (until : option Z)
  : list Action :=
  [ Alert warning (SymbolIsBlocked (symbol p) until);
    CloseOne (symbol p) (side p) SYMBOL_BLOCKED;
    RecordTrade (tradeRecord c p SYMBOL_BLOCKED) ].

(** The position passes rule 3. *)
Definition withinLeverage (rp : RiskParams) (p : Position) : Prop :=
  Js.gt (Js.parseFloatOr0 (leverage p)) (maxLeverage rp) = false.

(** The position trips rule 4. *)
Definition hitsDailyLimit (rp : RiskParams) (p : Position) : bool :=
  Js.le (tradePnLPercent p) (- PrimFloat.abs (dailyDrawdownLimit rp))%float.

(** [sym] is stored as blocked until [until]. *)
Definition blockedUntilFor (sym : string) (until : Z) (d : AccountDoc) : Prop :=
  exists mp : gmap string Z, blockedSymbols d = Some mp /\ mp !! sym = Some until.


(** ** Trade P&L: the parts, and the specification's wording *)

(** The P&L percent derived from the prices and the leverage. *)
Definition derivedPnLPercent (p : Position) : float :=
  let lev := Js.parseFloatOr0 (leverage p) in
  let entry := Js.parseFloatOr0 (entryPrice p) in
  let mark := Js.parseFloatOr2 (markPrice p) (infoMarkPrice p) in
  match side p with
  | long => ((mark - entry) / entry * 100 * lev)%float
  | short => ((entry - mark) / entry * 100 * lev)%float
  end.

(** The reported P&L percent, when the field holds a number other than
    [0] and [NaN]. *)
Definition reportedPnLPercent (p : Position) : option float :=
  match percentage p with
  | Some v => if Js.falsy v then None else Some v
  | None => None
  end.

(** Both the entry price and the mark price are there and not zero. *)
Definition pricesUsable (p : Position) : bool :=
  negb (Js.falsy (Js.parseFloatOr0 (entryPrice p)))
  && negb (Js.falsy (Js.parseFloatOr2 (markPrice p) (infoMarkPrice p))).

(** The trade P&L percent in the specification's words: the reported percent
    if present and non-zero, otherwise the derived one. *)
Definition specTradePnLPercent (p : Position) : float :=
  match percentage p with
  | Some v => if PrimFloat.is_zero v then derivedPnLPercent p else v
  | None => derivedPnLPercent p
  end.

(** ** Worked scenarios *)

Module Scenario.

(** 2025-11-02 10:30 UTC, a zone at UTC; the next midnight. *)
Definition morning : Z := 1762079400000.
Definition nextMidnight : Z := 1762128000000.

Definition params : RiskParams :=
  {| dailyDrawdownLimit := 5; maxDrawdownLimit := 20;
     maxLeverage := 20; maxOpenTrades := 3 |}.

Definition zeroLeverageParams : RiskParams :=
  {| dailyDrawdownLimit := 5; maxDrawdownLimit := 20;
     maxLeverage := 0; maxOpenTrades := 3 |}.

Definition account (rp : RiskParams) (blocks : gmap string Z)
  (until : option Z) : AccountDoc :=
  {| riskParams := rp; isActive := true; initialBalance := 1000;
     lastCheck := None; blockedSymbols := Some blocks; blockedUntil := until |}.

Definition machine (d : AccountDoc) : Machine :=
  {| doc := d; stateIsActive := true; stateInitialBalance := 1000;
     log := []; closeCalls := 0; saveCalls := 0 |}.

(** A fresh account; one with BTC/USDT blocked until the next midnight; one
    blocked as a whole until then; a fresh one whose [maxLeverage] is [0]. *)
Definition fresh : Machine := machine (account params ∅ None).
Definition btcBlocked : Machine :=
  machine (account params (<["BTC/USDT" := nextMidnight]> ∅) None).
Definition accountBlocked : Machine :=
  machine (account params ∅ (Some nextMidnight)).
Definition freshZeroLeverage : Machine :=
  machine (account zeroLeverageParams ∅ None).

(** A cycle at [morning] in which no call throws. *)
Definition calm (balance : float) (positions : list Position) : Cycle :=
  {| now := morning; tz := 0;
     fetchedBalance := Some balance;
     fetchedPositions := Some positions;
     closeThrows := fun _ => false;
     saveThrows := fun _ => false |}.

Definition position (sym : string) (sd : Side) (lev entry mark : option float)
  (opened : Z) : Position :=
  {| symbol := sym; side := sd; leverage := lev;
     entryPrice := entry; markPrice := mark; infoMarkPrice := None;
     unrealizedPnl := None; percentage := None;
     contracts := Some 1%float;
     timestamp := Some opened; datetime := None |}.

(** A long position entered at 100 and marked at 94, leverage 1. *)
Definition loser : Position :=
  position "BTC/USDT" long (Some 1%float) (Some 100%float) (Some 94%float) 1000.

(** The same with leverage 25. *)
Definition overLeveraged : Position :=
  position "BTC/USDT" long (Some 25%float) (Some 100%float) (Some 94%float) 1000.

(** A flat position on another symbol, and a later flat one on BTC/USDT. *)
Definition flatEth : Position :=
  position "ETH/USDT" long (Some 1%float) (Some 100%float) (Some 100%float) 2000.
Definition flatBtc : Position :=
  position "BTC/USDT" short (Some 2%float) (Some 100%float) (Some 100%float) 3000.

(** Positions without leverage: the field absent, the field [0]. *)
Definition noLeverage : Position :=
  position "SOL/USDT" long None (Some 100%float) (Some 101%float) 1000.
Definition zeroLeverage : Position :=
  position "XRP/USDT" long (Some 0%float) (Some 100%float) (Some 101%float) 2000.
Definition someLeverage : Position :=
  position "ADA/USDT" long (Some 5%float) (Some 100%float) (Some 101%float) 3000.

(** A long position without a mark price. *)
Definition unmarked : Position :=
  position "BTC/USDT" long (Some 1%float) (Some 100%float) None 1000.

(** Six flat positions opened one after the other. *)
Definition opened (sym : string) (k : Z) : Position :=
  position sym long (Some 1%float) (Some 100%float) (Some 100%float) k.
Definition six : list Position :=
  [ opened "BTC/USDT" 1; opened "ETH/USDT" 2; opened "SOL/USDT" 3;
    opened "XRP/USDT" 4; opened "ADA/USDT" 5; opened "DOT/USDT" 6 ].

(** A visit of the loop that reloads [d] and runs [c]. *)
Definition visit (d : AccountDoc) (c : Cycle) : Visit :=
  {| reloaded := Some d; cycle := c |}.

(** A later pass, a day and more after: balance restored, nothing open. *)
Definition dayAfter (d : AccountDoc) : nat -> Visit :=
  fun _ =>
    {| reloaded := Some d;
       cycle := {| now := nextMidnight + 3600000; tz := 0;
                   fetchedBalance := Some 1000%float;
                   fetchedPositions := Some [];
                   closeThrows := fun _ => false;
                   saveThrows := fun _ => false |} |}.

End Scenario.

(** The machine in which the loop of a cycle stands after the positions
    [done], if nothing threw before. *)
Definition loopState (c : Cycle) (m : Machine) (done : list Position) : Machine :=
  machineOf
    ((maxOpenTradesRule c (riskParams (doc m)) (getOpenPositions c) ;;
      forEach (checkPosition c (riskParams (doc m))) done) (afterGate c m)).

(** ** The blocking state, entry by entry *)

(** The stored end of the block of [sym], if any. *)
Definition symbolBlock (d : AccountDoc) (sym : string) : option Z :=
  match blockedSymbols d with
  | Some mp => mp !! sym
  | None => None
  end.

(** [sym] is stored as blocked, until [lo] at the earliest. *)
Definition heldFrom (lo : Z) (sym : string) (d : AccountDoc) : Prop :=
  exists until, symbolBlock d sym = Some until /\ lo <= until.

(** The reads [x] of an iteration lie, on a clock that does not run
    backwards, after the write of a block read at [tq] and before the
    check read at [tp]. *)
Definition readsBetween (tq tp x : Reads) : Prop :=
  atBlock tq <= atBlock x /\ atCheck x <= atCheck tp.

(** Two documents agree outside the symbol blocks. *)
Definition sameOutsideSymbols (d d' : AccountDoc) : Prop :=
  riskParams d' = riskParams d /\ isActive d' = isActive d
  /\ initialBalance d' = initialBalance d /\ lastCheck d' = lastCheck d
  /\ blockedUntil d' = blockedUntil d.

(** ** Orders *)

(** The order that closes a position. *)
Definition orderFor (p : Position) : Order := closingOrder (symbol p) (side p).


(** ** Initialization *)

(** The initialization can go through: a client, a balance, and a save that
    returns when the baseline has to be stored. *)
Definition canInitialize (i : InitInputs) (d : AccountDoc) : Prop :=
  clientCreated i = true
  /\ (exists b, initBalance i = Some b)
  /\ (Js.falsy (initialBalance d) = true -> initSaveThrows i = false).

(** A state as the start hands it to the loop. *)
Definition freshState (m : Machine) : Prop :=
  stateIsActive m = true /\ log m = []
  /\ stateInitialBalance m = initialBalance (doc m)
  /\ isActive (doc m) = true.

(** ** What a cycle may append, entry by entry *)

(** A step only appends entries that satisfy [P]. *)
Definition appendsOnly {A} (P : Action -> Prop) (s : Step A) : Prop :=
  forall m, exists ext, log (machineOf (s m)) = log m ++ ext /\ Forall P ext.

(** A step keeps what holds of the machine. *)
Definition keeps {A} (I : Machine -> Prop) (s : Step A) : Prop :=
  forall m, I m -> I (machineOf (s m)).




(** The entry, if it sets or announces a block, sets its end at the
    midnight after the instant of the cycle; a trade record is closed at
    that instant. *)
Definition stampedByCycle (c : Cycle) (a : Action) : Prop :=
  match a with
  | BlockAccountUntil until | BlockSymbolUntil _ until
  | Alert _ (AccountBlockedNotice until) | Alert _ (DailyLimitHit _ _ _ until)
  | Alert _ (SymbolBlockedNotice _ until) =>
      until = getMidnightTonight (tz c) (now c)
  | RecordTrade t => th_exitTime t = now c
  | _ => True
  end.

(** The close orders of a log, counted. *)
Fixpoint closeOrders (l : list Action) : nat :=
  match l with
  | [] => 0
  | CloseOne _ _ _ :: l' => S (closeOrders l')
  | _ :: l' => closeOrders l'
  end.

(** No close order and no save of the cycle throws. *)
Definition quiet (c : Cycle) : Prop :=
  (forall k, closeThrows c k = false) /\ (forall k, saveThrows c k = false).

(** Every open position of the cycle has an open time a [Date] holds: the
    comparator of rule 2 is consistent. *)
Definition validTimes (c : Cycle) : Prop :=
  Forall validTime (getOpenPositions c).

(** Every open position of the cycle is on a symbol the Map of blocked
    symbols takes as a key. *)
Definition storable (c : Cycle) : Prop :=
  Forall (fun p => MongooseMap.validKey (symbol p) = true) (getOpenPositions c).

(** What the code tests on the position [p], and for rule 2 on the list of
    the open positions, before it closes [p] under [r]; the read of the
    blocking state that [SYMBOL_BLOCKED] also needs is in [tripped].  For
    rule 2 the position is among those the sort puts first, which is said
    where the open times are valid. *)
Definition testsOf (c : Cycle) (rp : RiskParams) (p : Position) (r : Reason)
  : Prop :=
  match r with
  | MAX_DRAWDOWN => False
  | MAX_TRADES_EXCEEDED =>
      maxOpenTrades rp < Z.of_nat (length (getOpenPositions c))
      /\ (validTimes c -> In p (tradesToClose rp (getOpenPositions c)))
  | LEVERAGE_EXCEEDED =>
      Js.gt (Js.parseFloatOr0 (leverage p)) (maxLeverage rp) = true
  | DAILY_LIMIT_REACHED =>
      withinLeverage rp p /\ hitsDailyLimit rp p = true
  | SYMBOL_BLOCKED =>
      withinLeverage rp p /\ hitsDailyLimit rp p = false
  end.

(** [p] is an open position of the cycle that passes the tests of [r]. *)
Definition closable (c : Cycle) (rp : RiskParams) (p : Position) (r : Reason)
  : Prop :=
  In p (getOpenPositions c) /\ testsOf c rp p r.

(** What can be said of an entry a cycle appends, kind by kind. *)
Definition cycleEntry (c : Cycle) (rp : RiskParams) (a : Action) : Prop :=
  match a with
  | CloseOne sym sd r =>
      exists p, closable c rp p r /\ symbol p = sym /\ side p = sd
  | RecordTrade t =>
      exists p, closable c rp p (th_reason t)
                /\ th_symbol t = symbol p /\ th_side t = side p
                /\ th_size t = contracts p /\ th_exitTime t = now c
  | BlockSymbolUntil sym until =>
      until = getMidnightTonight (tz c) (now c)
      /\ exists p, closable c rp p DAILY_LIMIT_REACHED /\ symbol p = sym
  | BlockAccountUntil until => until = getMidnightTonight (tz c) (now c)
  | CloseAll r => r = MAX_DRAWDOWN
  | Alert level topic =>
      match topic with
      | MaxDrawdownReached _ _ => level = critical
      | AccountBlockedNotice until =>
          level = critical /\ until = getMidnightTonight (tz c) (now c)
      | TooManyTrades _ _ =>
          level = warning
          /\ maxOpenTrades rp < Z.of_nat (length (getOpenPositions c))
      | LeverageExceeds sym _ _ =>
          level = warning
          /\ exists p, closable c rp p LEVERAGE_EXCEEDED /\ symbol p = sym
      | DailyLimitHit sym _ _ until =>
          level = critical /\ until = getMidnightTonight (tz c) (now c)
          /\ exists p, closable c rp p DAILY_LIMIT_REACHED /\ symbol p = sym
      | SymbolBlockedNotice sym until =>
          level = warning /\ until = getMidnightTonight (tz c) (now c)
          /\ exists p, closable c rp p DAILY_LIMIT_REACHED /\ symbol p = sym
      | SymbolIsBlocked sym _ =>
          level = warning
          /\ exists p, closable c rp p SYMBOL_BLOCKED /\ symbol p = sym
      end
  | RecordMetrics mt =>
      mt_openPositions mt = length (getOpenPositions c)
  | SaveAccount _ => True
  end.

(** Rule 1 trips in the cycle: the gate is open, the balance [b] is fetched
    and the total drawdown percent is at or below the limit. *)
Definition maxDrawdownTrips (c : Cycle) (m : Machine) : Prop :=
  fst (isAccountBlocked (now c) (doc m)) = false
  /\ exists b,
       fetchedBalance c = Some b
       /\ Js.le (totalDrawdownPercentOf (stateInitialBalance m) b)
            (- PrimFloat.abs (maxDrawdownLimit (riskParams (doc m))))%float
          = true.

(** A step appends at most [n] close orders. *)
Definition sendsAtMost {A} (n : nat) (s : Step A) : Prop :=
  forall m, exists ext,
    log (machineOf (s m)) = log m ++ ext /\ (closeOrders ext <= n)%nat.

(** A step returns, whatever the machine. *)
Definition returns {A} (s : Step A) : Prop :=
  forall m, exists a m', s m = Returned a m'.

(** A step that throws has just logged the call that threw, a close order
    or a save of the document, or the close order of rule 4 on a symbol
    that the Map then refused as a key. *)
Definition stopsAtCall {A} (c : Cycle) (s : Step A) : Prop :=
  forall m m',
    s m = Threw m' ->
    exists before,
      (exists sym sd r,
          log m' = before ++ [CloseOne sym sd r]
          /\ closeThrows c (closeCalls m' - 1) = true)
      \/ (exists d,
            log m' = before ++ [SaveAccount d]
            /\ saveThrows c (saveCalls m' - 1) = true)
      \/ (exists sym sd,
            log m' = before ++ [CloseOne sym sd DAILY_LIMIT_REACHED]
            /\ closeThrows c (closeCalls m' - 1) = false
            /\ MongooseMap.validKey sym = false).

(** ** Where a blocked-symbol close comes from *)







(** ** An account state across the monitoring loop *)

(** [m'] is a later state of the account of [m]: the same baseline, active
    only if [m] was, and the log of [m] with entries added. *)
Definition laterStateOf (m m' : Machine) : Prop :=
  stateInitialBalance m' = stateInitialBalance m
  /\ (stateIsActive m' = true -> stateIsActive m = true)
  /\ exists ext, log m' = log m ++ ext.

(** [m'] is the account state [m] but for the document it refers to: a
    reload that fails may have replaced the reference, nothing else. *)
Definition sameState (m m' : Machine) : Prop :=
  stateIsActive m' = stateIsActive m
  /\ stateInitialBalance m' = stateInitialBalance m
  /\ log m' = log m.

(** ** More scenarios *)

Module Cases.

(** A stored account whose baseline was never set, and one switched off. *)
Definition unfunded : AccountDoc :=
  setInitialBalance 0 (Scenario.account Scenario.params ∅ None).
Definition switchedOff : AccountDoc :=
  setIsActive false (Scenario.account Scenario.params ∅ None).

(** A start at which the exchange answers with the balance [b]. *)
Definition start (b : float) : InitInputs :=
  {| clientCreated := true; initBalance := Some b; initSaveThrows := false |}.

(** The unfunded account after its first start with a balance of 1000. *)
Definition funded : Machine := newAccountState (setInitialBalance 1000 unfunded).

(** A start of the bot with the two accounts stored. *)
Definition startup : Startup :=
  {| connected := true;
     stored := Some [unfunded; switchedOff];
     inits := fun _ => start 1000 |}.

(** A cycle at [Scenario.morning] in which the balance cannot be fetched. *)
Definition noBalance (positions : list Position) : Cycle :=
  {| now := Scenario.morning; tz := 0;
     fetchedBalance := None;
     fetchedPositions := Some positions;
     closeThrows := fun _ => false;
     saveThrows := fun _ => false |}.

(** A cycle at [Scenario.morning] in which every close order throws. *)
Definition closeFails (balance : float) (positions : list Position) : Cycle :=
  {| now := Scenario.morning; tz := 0;
     fetchedBalance := Some balance;
     fetchedPositions := Some positions;
     closeThrows := fun _ => true;
     saveThrows := fun _ => false |}.

(** A seventh position, opened last, with leverage 25. *)
Definition excessive : Position :=
  Scenario.position "AVAX/USDT" long (Some 25%float) (Some 100%float)
    (Some 100%float) 7.

Definition seven : list Position := Scenario.six ++ [excessive].

(** A fresh account with the risk parameters [rp]. *)
Definition freshWith (rp : RiskParams) : Machine :=
  Scenario.machine (Scenario.account rp ∅ None).

(** The parameters of [Scenario.params] with one of them at [0], and with
    [maxOpenTrades = 1]. *)
Definition zeroTradesParams : RiskParams :=
  {| dailyDrawdownLimit := 5; maxDrawdownLimit := 20;
     maxLeverage := 20; maxOpenTrades := 0 |}.
Definition zeroDailyParams : RiskParams :=
  {| dailyDrawdownLimit := 0; maxDrawdownLimit := 20;
     maxLeverage := 20; maxOpenTrades := 3 |}.
Definition zeroDrawdownParams : RiskParams :=
  {| dailyDrawdownLimit := 5; maxDrawdownLimit := 0;
     maxLeverage := 20; maxOpenTrades := 3 |}.
Definition oneTradeParams : RiskParams :=
  {| dailyDrawdownLimit := 5; maxDrawdownLimit := 20;
     maxLeverage := 20; maxOpenTrades := 1 |}.

(** The same parameters with a negative [maxOpenTrades]. *)
Definition negativeTradesParams : RiskParams :=
  {| dailyDrawdownLimit := 5; maxDrawdownLimit := 20;
     maxLeverage := 20; maxOpenTrades := -1 |}.

(** A long position entered at 100 and marked at 94, leverage 1, on a
    symbol with a dot in it, and a later flat position on the same symbol. *)
Definition dottedLoser : Position :=
  Scenario.position "BRK.B/USD" long (Some 1%float) (Some 100%float)
    (Some 94%float) 1000.
Definition dottedFlat : Position :=
  Scenario.position "BRK.B/USD" short (Some 2%float) (Some 100%float)
    (Some 100%float) 3000.

(** A flat position opened at time 1000, and one whose timestamp,
    9 * 10^15, is larger than any time value of a [Date]. *)
Definition early : Position := Scenario.opened "ETH/USDT" 1000.
Definition beyondDates : Position := Scenario.opened "BTC/USDT" 9000000000000000.

(** The reads of an iteration a second after [Scenario.nextMidnight]. *)
Definition pastMidnight : Reads := readsAt (Scenario.nextMidnight + 1000).

End Cases.

(** The entry is the call of [closeAllPositions]. *)
Definition isCloseAll (a : Action) : bool :=
  match a with
  | CloseAll _ => true
  | _ => false
  end.

(** The entry writes a symbol block. *)
Definition isSymbolBlock (a : Action) : bool :=
  match a with
  | BlockSymbolUntil _ _ => true
  | _ => false
  end.
(** ** The daily boundary: facts *)

Lemma midnight_after (tz now : Z) : now < getMidnightTonight tz now.
Proof.
  unfold getMidnightTonight, msPerDay.
  pose proof (Z.mod_pos_bound (now + tz) 86400000 ltac:(lia)).
  pose proof (Z.div_mod (now + tz) 86400000 ltac:(lia)).
  lia.
Qed.



(** ** Reads of the blocking state: facts *)

Lemma isSymbolBlocked_true (now : Z) (d : AccountDoc) (sym : string) :
  fst (isSymbolBlocked now d sym) = true <->
  exists (m : gmap string Z) (until : Z),
    blockedSymbols d = Some m /\ m !! sym = Some until /\ now < until.
Proof.
  unfold isSymbolBlocked.
  destruct (blockedSymbols d) as [m|] eqn:Hm.
  - destruct (m !! sym) as [u|] eqn:Hu.
    + destruct (now <? u) eqn:Hlt; simpl; split.
      * intros _. exists m, u. apply Z.ltb_lt in Hlt. auto.
      * auto.
      * discriminate.
      * intros (m' & u' & Em & Eu & Hlt').
        inversion Em; subst m'. rewrite Hu in Eu. inversion Eu; subst u'.
        apply Z.ltb_ge in Hlt. lia.
    + simpl; split; [discriminate|].
      intros (m' & u' & Em & Eu & _). inversion Em; subst m'. congruence.
  - simpl; split; [discriminate|]. intros (m' & u' & Em & _). discriminate.
Qed.

Lemma isSymbolBlocked_kept (now : Z) (d : AccountDoc) (sym : string) :
  fst (isSymbolBlocked now d sym) = true -> snd (isSymbolBlocked now d sym) = d.
Proof.
  unfold isSymbolBlocked.
  destruct (blockedSymbols d) as [m|]; [|reflexivity].
  destruct (m !! sym) as [u|]; [|reflexivity].
  destruct (now <? u); [reflexivity|discriminate].
Qed.

Lemma isAccountBlocked_true (now : Z) (d : AccountDoc) :
  fst (isAccountBlocked now d) = true <->
  exists until : Z, blockedUntil d = Some until /\ now < until.
Proof.
  unfold isAccountBlocked.
  destruct (blockedUntil d) as [u|] eqn:Hu.
  - destruct (now <? u) eqn:Hlt; simpl; split.
    + intros _. exists u. apply Z.ltb_lt in Hlt. auto.
    + auto.
    + discriminate.
    + intros (u' & Eu & Hlt'). inversion Eu; subst u'.
      apply Z.ltb_ge in Hlt. lia.
  - simpl; split; [discriminate|]. intros (u' & Eu & _). discriminate.
Qed.

Lemma isAccountBlocked_open (now : Z) (d : AccountDoc) :
  fst (isAccountBlocked now d) = false ->
  snd (isAccountBlocked now d) = setBlockedUntil None d.
Proof.
  unfold isAccountBlocked.
  destruct (blockedUntil d) as [u|] eqn:Hu.
  - destruct (now <? u); [discriminate|reflexivity].
  - intros _. simpl. destruct d; simpl in *. subst. reflexivity.
Qed.

(** C8. A read of the blocking state, per symbol or for the account, answers
    "blocked" exactly when the entry's timestamp is strictly after the
    current time; an entry stamped with the current time itself counts as
    expired; and after any read, the entry that was read is either still in
    the future or gone from the state. *)
Theorem C8_blocking_is_strict_future_and_purged_on_read
  (now : Z) (d : AccountDoc) (sym : string) :
  (* per symbol *)
  (fst (isSymbolBlocked now d sym) = true <->
   exists (m : gmap string Z) (until : Z),
     blockedSymbols d = Some m /\ m !! sym = Some until /\ now < until)
  /\ (forall m : gmap string Z,
        blockedSymbols d = Some m -> m !! sym = Some now ->
        fst (isSymbolBlocked now d sym) = false)
  /\ (forall (m : gmap string Z) (until : Z),
        blockedSymbols d = Some m -> m !! sym = Some until -> until <= now ->
        blockedSymbols (snd (isSymbolBlocked now d sym)) = Some (delete sym m))
  /\ (forall (m' : gmap string Z) (until : Z),
        blockedSymbols (snd (isSymbolBlocked now d sym)) = Some m' ->
        m' !! sym = Some until -> now < until)
  (* for the account *)
  /\ (fst (isAccountBlocked now d) = true <->
      exists until : Z, blockedUntil d = Some until /\ now < until)
  /\ (blockedUntil d = Some now -> fst (isAccountBlocked now d) = false)
  /\ (forall until : Z,
        blockedUntil d = Some until -> until <= now ->
        blockedUntil (snd (isAccountBlocked now d)) = None)
  /\ (forall until : Z,
        blockedUntil (snd (isAccountBlocked now d)) = Some until -> now < until).
Proof.
  split; [apply isSymbolBlocked_true|].
  split.
  { intros m Hm Hs. unfold isSymbolBlocked. rewrite Hm, Hs.
    rewrite Z.ltb_irrefl. reflexivity. }
  split.
  { intros m u Hm Hs Hle. unfold isSymbolBlocked. rewrite Hm, Hs.
    destruct (now <? u) eqn:Hlt; [apply Z.ltb_lt in Hlt; lia|]. reflexivity. }
  split.
  { intros m' u. unfold isSymbolBlocked.
    destruct (blockedSymbols d) as [m|] eqn:Hm; simpl.
    - destruct (m !! sym) as [u0|] eqn:Hu0; simpl.
      + destruct (now <? u0) eqn:Hlt; simpl.
        * rewrite Hm. intros E Hs. inversion E; subst m'.
          rewrite Hu0 in Hs. inversion Hs; subst. now apply Z.ltb_lt.
        * intros E Hs. inversion E; subst m'.
          rewrite lookup_delete_eq in Hs. discriminate.
      + rewrite Hm. intros E Hs. inversion E; subst m'. congruence.
    - rewrite Hm. discriminate. }
  split; [apply isAccountBlocked_true|].
  split.
  { intros Hu. unfold isAccountBlocked. rewrite Hu, Z.ltb_irrefl. reflexivity. }
  split.
  { intros u Hu Hle. unfold isAccountBlocked. rewrite Hu.
    destruct (now <? u) eqn:Hlt; [apply Z.ltb_lt in Hlt; lia|]. reflexivity. }
  intros u. unfold isAccountBlocked.
  destruct (blockedUntil d) as [u0|] eqn:Hu0; simpl.
  - destruct (now <? u0) eqn:Hlt; simpl.
    + rewrite Hu0. intros E. inversion E; subst. now apply Z.ltb_lt.
    + discriminate.
  - rewrite Hu0. discriminate.
Qed.

(** The stored end of a symbol's block after a write and after a read. *)
Lemma symbolBlock_withSymbolBlocked (sym other : string) (until : Z)
  (d : AccountDoc) :
  symbolBlock (withSymbolBlocked sym until d) other
  = if decide (sym = other) then Some until else symbolBlock d other.
Proof.
  unfold symbolBlock, withSymbolBlocked. simpl.
  destruct (decide (sym = other)) as [->|Hne].
  - apply lookup_insert_eq.
  - rewrite lookup_insert_ne by exact Hne.
    destruct (blockedSymbols d); [reflexivity|apply lookup_empty].
Qed.

Lemma symbolBlock_isSymbolBlocked (now : Z) (d : AccountDoc) (sym other : string) :
  symbolBlock (snd (isSymbolBlocked now d sym)) other
  = if decide (sym = other)
    then match symbolBlock d other with
         | Some u => if now <? u then Some u else None
         | None => None
         end
    else symbolBlock d other.
Proof.
  unfold isSymbolBlocked, symbolBlock.
  destruct (blockedSymbols d) as [mp|] eqn:Hm.
  - destruct (decide (sym = other)) as [->|Hne].
    + destruct (mp !! other) as [u|] eqn:Hu.
      * destruct (now <? u); simpl.
        -- now rewrite Hm.
        -- apply lookup_delete_eq.
      * simpl. now rewrite Hm.
    + destruct (mp !! sym) as [u|] eqn:Hu.
      * destruct (now <? u); simpl.
        -- now rewrite Hm.
        -- now apply lookup_delete_ne.
      * simpl. now rewrite Hm.
  - simpl. rewrite Hm. now destruct (decide (sym = other)).
Qed.

Lemma symbolBlock_isAccountBlocked (now : Z) (d : AccountDoc) (sym : string) :
  symbolBlock (snd (isAccountBlocked now d)) sym = symbolBlock d sym.
Proof.
  unfold isAccountBlocked, symbolBlock.
  destruct (blockedUntil d) as [u|]; [|reflexivity].
  destruct (now <? u); reflexivity.
Qed.

Lemma isSymbolBlocked_stored (now : Z) (d : AccountDoc) (sym : string) :
  fst (isSymbolBlocked now d sym) = true <->
  exists until, symbolBlock d sym = Some until /\ now < until.
Proof.
  rewrite isSymbolBlocked_true. unfold symbolBlock. split.
  - intros (mp & u & E1 & E2 & H). exists u. rewrite E1. auto.
  - intros (u & E & H). destruct (blockedSymbols d) as [mp|]; [|discriminate].
    exists mp, u. auto.
Qed.

Lemma midnight_mono (tz a b : Z) :
  a <= b -> getMidnightTonight tz a <= getMidnightTonight tz b.
Proof.
  intros H. unfold getMidnightTonight, msPerDay.
  assert ((a + tz) / 86400000 <= (b + tz) / 86400000)
    by (apply Z.div_le_mono; lia).
  lia.
Qed.

(** ** Steps: generic facts *)

Lemma forEach_app {A} (body : A -> Step unit) (l1 l2 : list A) (m : Machine) :
  forEach body (l1 ++ l2) m = (forEach body l1 ;; forEach body l2) m.
Proof.
  revert m. induction l1 as [|x l1 IH]; intros m; simpl.
  - reflexivity.
  - unfold bind in *. destruct (body x m) as [[] m'|m']; [|reflexivity].
    apply IH.
Qed.

Lemma bind_returned {A B} (s : Step A) (k : A -> Step B) (m m' : Machine) (a : A) :
  s m = Returned a m' -> bind s k m = k a m'.
Proof. intros H. unfold bind. now rewrite H. Qed.

Lemma bind_threw {A B} (s : Step A) (k : A -> Step B) (m m' : Machine) :
  s m = Threw m' -> bind s k m = Threw m'.
Proof. intros H. unfold bind. now rewrite H. Qed.


Lemma appends_ret {A} (a : A) : appends (ret a).
Proof. intros m. exists []. simpl. now rewrite app_nil_r. Qed.

Lemma appends_bind {A B} (s : Step A) (k : A -> Step B) :
  appends s -> (forall a, appends (k a)) -> appends (bind s k).
Proof.
  intros Hs Hk m. unfold bind. specialize (Hs m).
  destruct (s m) as [a m'|m']; simpl in *.
  - destruct Hs as [e1 E1]. destruct (Hk a m') as [e2 E2].
    exists (e1 ++ e2). rewrite E2, E1. now rewrite app_assoc.
  - exact Hs.
Qed.

Lemma appends_emit (a : Action) : appends (emit a).
Proof. intros m. exists [a]. reflexivity. Qed.

Lemma appends_getDoc : appends getDoc.
Proof. intros m. exists []. simpl. now rewrite app_nil_r. Qed.

Lemma appends_modifyDoc f : appends (modifyDoc f).
Proof. intros m. exists []. simpl. now rewrite app_nil_r. Qed.

Lemma appends_readDoc {A} (f : AccountDoc -> A * AccountDoc) : appends (readDoc f).
Proof. intros m. exists []. simpl. now rewrite app_nil_r. Qed.

Lemma appends_closePosition c sym sd r : appends (closePosition c sym sd r).
Proof.
  intros m. exists [CloseOne sym sd r]. unfold closePosition.
  destruct (closeThrows c (closeCalls m)); reflexivity.
Qed.

Lemma appends_save c : appends (save c).
Proof.
  intros m. exists [SaveAccount (doc m)]. unfold save.
  destruct (saveThrows c (saveCalls m)); reflexivity.
Qed.

Lemma appends_forEach {A} (body : A -> Step unit) (l : list A) :
  (forall x, appends (body x)) -> appends (forEach body l).
Proof.
  intros Hb. induction l as [|x l IH]; simpl.
  - apply appends_ret.
  - apply appends_bind; auto.
Qed.

Lemma appends_throw {A} : appends (@throw A).
Proof. intros m. exists []. simpl. now rewrite app_nil_r. Qed.

Create HintDb appends.
#[local] Hint Resolve appends_ret appends_throw appends_emit appends_getDoc
  appends_modifyDoc appends_readDoc appends_closePosition appends_save : appends.

Ltac appends_tac :=
  repeat first
    [ apply appends_bind; [|intros ?]
    | apply appends_forEach; intros ?
    | progress auto with appends
    | match goal with |- appends (if ?b then _ else _) => destruct b end ].

Lemma appends_checkPositionAt c rp p t : appends (checkPositionAt c rp p t).
Proof. unfold checkPositionAt, blockSymbol. appends_tac. Qed.

Lemma appends_checkPosition c rp p : appends (checkPosition c rp p).
Proof. apply appends_checkPositionAt. Qed.

Lemma appends_closingOf c m b : appends (closingOf c m b).
Proof. unfold closingOf, closing. appends_tac. Qed.

(** ** The shape of a cycle *)

Lemma monitorBody_blocked c m :
  fst (isAccountBlocked (now c) (doc m)) = true ->
  monitorBody c m = Returned tt m.
Proof.
  intros H. unfold monitorBody, bind, getDoc, readDoc. rewrite H.
  unfold isAccountBlocked in *.
  destruct (blockedUntil (doc m)) as [u|]; [|discriminate].
  destruct (now c <? u); [|discriminate].
  destruct m; reflexivity.
Qed.

Lemma monitorBody_trips c m b :
  fst (isAccountBlocked (now c) (doc m)) = false ->
  fetchedBalance c = Some b ->
  Js.le (totalDrawdownPercentOf (stateInitialBalance m) b)
        (- PrimFloat.abs (maxDrawdownLimit (riskParams (doc m))))%float = true ->
  monitorBody c m =
  maxDrawdown c (riskParams (doc m))
    (totalDrawdownPercentOf (stateInitialBalance m) b) (afterGate c m).
Proof.
  intros Hg Hb Ht. unfold monitorBody, bind, getDoc, readDoc, getAccountBalance,
    getInitialBalance.
  rewrite Hg, Hb. simpl. rewrite Ht. reflexivity.
Qed.

Lemma monitorBody_passes c m b :
  passesAccountRules c m b ->
  monitorBody c m =
  (maxOpenTradesRule c (riskParams (doc m)) (getOpenPositions c) ;;
   forEach (checkPosition c (riskParams (doc m))) (getOpenPositions c) ;;
   closingOf c m b) (afterGate c m).
Proof.
  intros (Hg & Hb & Ht). unfold monitorBody, bind, getDoc, readDoc,
    getAccountBalance, getInitialBalance.
  rewrite Hg, Hb. simpl. rewrite Ht. reflexivity.
Qed.

(** C2. While [accountBlockedUntil] is set and strictly in the future, a
    cycle does nothing: the machine it returns is the machine it was given,
    so the log gains no entry (no alert, close, trade record, metrics or
    save) and the blocking state is unchanged. *)
Theorem C2_blocked_account_is_skipped (c : Cycle) (m : Machine) (until : Z)
  (Hset : blockedUntil (doc m) = Some until)
  (Hfuture : now c < until) :
  monitorAccount c m = m.
Proof.
  unfold monitorAccount. rewrite monitorBody_blocked; [reflexivity|].
  apply isAccountBlocked_true. eauto.
Qed.

(** The max-drawdown branch: the document and the in-memory state it leaves. *)
Lemma maxDrawdown_leaves (c : Cycle) (m : Machine) (b : float) :
  fst (isAccountBlocked (now c) (doc m)) = false ->
  fetchedBalance c = Some b ->
  Js.le (totalDrawdownPercentOf (stateInitialBalance m) b)
        (- PrimFloat.abs (maxDrawdownLimit (riskParams (doc m))))%float = true ->
  doc (monitorAccount c m)
  = setIsActive false
      (setBlockedUntil (Some (getMidnightTonight (tz c) (now c))) (doc m))
  /\ (saveThrows c (saveCalls m) = false ->
      stateIsActive (monitorAccount c m) = false).
Proof.
  intros Hgate Hbal Htrip.
  unfold monitorAccount. rewrite (monitorBody_trips c m b Hgate Hbal Htrip).
  unfold afterGate. rewrite (isAccountBlocked_open _ _ Hgate).
  unfold maxDrawdown, blockAccount, bind, emit, modifyDoc, save, setStateIsActive.
  simpl.
  destruct (saveThrows c (saveCalls m)); simpl; split;
    try reflexivity; discriminate.
Qed.


(** ** The newest-first sort: a stable sort by open time, descending *)

Lemma olderThan_valid (p q : Position) :
  validTime p -> validTime q ->
  NewestFirst.olderThan p q = (timeOf p <? timeOf q).
Proof.
  intros (a & Ha) (b & Hb). unfold NewestFirst.olderThan, timeOf.
  now rewrite Ha, Hb.
Qed.

Lemma insert_perm (p : Position) (l : list Position) :
  Permutation (NewestFirst.insert p l) (p :: l).
Proof.
  induction l as [|q l IH]; simpl.
  - apply Permutation_refl.
  - destruct (NewestFirst.olderThan p q).
    + eapply Permutation_trans; [apply perm_skip, IH|apply perm_swap].
    + apply Permutation_refl.
Qed.

Lemma sort_perm (l : list Position) : Permutation (NewestFirst.sort l) l.
Proof.
  induction l as [|p l IH]; simpl.
  - constructor.
  - eapply Permutation_trans; [apply insert_perm|]. now apply perm_skip.
Qed.

Lemma sort_length (l : list Position) :
  length (NewestFirst.sort l) = length l.
Proof. apply Permutation_length, sort_perm. Qed.

Lemma sort_valid (l : list Position) :
  Forall validTime l -> Forall validTime (NewestFirst.sort l).
Proof.
  intros H. eapply Permutation_Forall; [apply Permutation_sym, sort_perm|exact H].
Qed.

Lemma insert_sorted (p : Position) (l : list Position) :
  validTime p -> Forall validTime l ->
  StronglySorted notOlder l -> StronglySorted notOlder (NewestFirst.insert p l).
Proof.
  intros Hp Hl. induction 1 as [|q l Hs IH Hq]; simpl.
  - repeat constructor.
  - inversion Hl as [|? ? Hvq Hvl]; subst.
    rewrite (olderThan_valid p q Hp Hvq).
    destruct (timeOf p <? timeOf q) eqn:Hlt.
    + constructor; [exact (IH Hvl)|].
      apply Z.ltb_lt in Hlt.
      eapply Permutation_Forall; [apply Permutation_sym, insert_perm|].
      constructor; [unfold notOlder; lia|exact Hq].
    + apply Z.ltb_ge in Hlt.
      constructor; [constructor; assumption|].
      constructor; [exact Hlt|].
      eapply List.Forall_impl; [|exact Hq].
      unfold notOlder. intros a Ha. lia.
Qed.

Lemma sort_sorted (l : list Position) :
  Forall validTime l -> StronglySorted notOlder (NewestFirst.sort l).
Proof.
  induction 1 as [|p l Hp Hl IH]; simpl; [constructor|].
  apply insert_sorted; [exact Hp|now apply sort_valid|exact IH].
Qed.

(** Stability: positions opened at the same time keep their input order. *)
Lemma insert_stable (t : Z) (p : Position) (l : list Position) :
  validTime p -> Forall validTime l ->
  List.filter (openedAt t) (NewestFirst.insert p l)
  = List.filter (openedAt t) (p :: l).
Proof.
  intros Hp. induction 1 as [|q l Hvq Hvl IH]; simpl in *; [reflexivity|].
  rewrite (olderThan_valid p q Hp Hvq).
  destruct (timeOf p <? timeOf q) eqn:Hlt; simpl; [|reflexivity].
  rewrite IH. apply Z.ltb_lt in Hlt. unfold openedAt.
  destruct (timeOf p =? t) eqn:Ep; [|reflexivity].
  destruct (timeOf q =? t) eqn:Eq; [|reflexivity].
  apply Z.eqb_eq in Ep, Eq. lia.
Qed.

Lemma sort_stable (t : Z) (l : list Position) :
  Forall validTime l ->
  List.filter (openedAt t) (NewestFirst.sort l) = List.filter (openedAt t) l.
Proof.
  induction 1 as [|p l Hp Hl IH]; simpl; [reflexivity|].
  rewrite insert_stable by (auto using sort_valid). simpl. now rewrite IH.
Qed.

Lemma insert_oldest (p : Position) (l : list Position) :
  validTime p -> Forall validTime l ->
  Forall (openedBefore p) l -> NewestFirst.insert p l = l ++ [p].
Proof.
  intros Hp Hl. induction 1 as [|q l Hq _ IH]; simpl; [reflexivity|].
  inversion Hl as [|? ? Hvq Hvl]; subst.
  rewrite (olderThan_valid p q Hp Hvq).
  unfold openedBefore in Hq. apply Z.ltb_lt in Hq. rewrite Hq.
  now rewrite (IH Hvl).
Qed.

(** On an input in strictly increasing order of opening, the sort is the
    reversal. *)
Lemma sort_increasing (l : list Position) :
  Forall validTime l ->
  StronglySorted openedBefore l -> NewestFirst.sort l = rev l.
Proof.
  intros Hl. induction 1 as [|p l _ IH Hp]; simpl; [reflexivity|].
  inversion Hl as [|? ? Hvp Hvl]; subst.
  rewrite (IH Hvl). apply insert_oldest; [exact Hvp| |].
  - apply List.Forall_forall. intros x Hx. apply in_rev in Hx.
    revert x Hx. now apply List.Forall_forall.
  - apply List.Forall_forall. intros x Hx. apply in_rev in Hx.
    revert x Hx. now apply List.Forall_forall.
Qed.

Lemma sorted_app_order (l1 l2 : list Position) :
  StronglySorted notOlder (l1 ++ l2) ->
  forall x y, In x l1 -> In y l2 -> notOlder x y.
Proof.
  induction l1 as [|a l1 IH]; simpl; intros Hs x y Hx Hy; [contradiction|].
  inversion Hs as [|? ? Hs' Ha]; subst.
  destruct Hx as [->|Hx].
  - rewrite List.Forall_forall in Ha. apply Ha, in_or_app. now right.
  - now apply IH.
Qed.

(** When no open time is valid, every comparison gives [NaN] and the input
    order stays. *)
Lemma sort_without_times (l : list Position) :
  Forall (fun p => openTime p = None) l -> NewestFirst.sort l = l.
Proof.
  induction 1 as [|p l Hp _ IH]; simpl; [reflexivity|].
  rewrite IH. destruct l as [|q l]; simpl; [reflexivity|].
  unfold NewestFirst.olderThan. now rewrite Hp.
Qed.

(** ** Close orders per reason *)

Lemma closedFor_app (r : Reason) (l1 l2 : list Action) :
  closedFor r (l1 ++ l2) = closedFor r l1 ++ closedFor r l2.
Proof.
  induction l1 as [|a l1 IH]; simpl; [reflexivity|].
  destruct a; auto. destruct (decide (r = reason)); simpl; now rewrite IH.
Qed.

Lemma closedFor_excessEntries (c : Cycle) (l : list Position) :
  closedFor MAX_TRADES_EXCEEDED (flat_map (excessEntries c) l) = map orderOf l.
Proof.
  induction l as [|p l IH]; simpl; [reflexivity|]. now rewrite IH.
Qed.


Lemma sendsNo_ret {A} r (a : A) : sendsNo r (ret a).
Proof. intros m. reflexivity. Qed.

Lemma sendsNo_bind {A B} r (s : Step A) (k : A -> Step B) :
  sendsNo r s -> (forall a, sendsNo r (k a)) -> sendsNo r (bind s k).
Proof.
  intros Hs Hk m. unfold bind. specialize (Hs m).
  destruct (s m) as [a m'|m']; simpl in *.
  - now rewrite Hk.
  - exact Hs.
Qed.

Lemma sendsNo_throw {A} r : sendsNo r (@throw A).
Proof. intros m. reflexivity. Qed.

Lemma sendsNo_emit r (a : Action) :
  closedFor r [a] = [] -> sendsNo r (emit a).
Proof.
  intros Ha m. simpl. rewrite closedFor_app, Ha. apply app_nil_r.
Qed.

Lemma sendsNo_getDoc r : sendsNo r getDoc.
Proof. intros m. reflexivity. Qed.

Lemma sendsNo_modifyDoc r f : sendsNo r (modifyDoc f).
Proof. intros m. reflexivity. Qed.

Lemma sendsNo_readDoc {A} r (f : AccountDoc -> A * AccountDoc) :
  sendsNo r (readDoc f).
Proof. intros m. reflexivity. Qed.

Lemma sendsNo_closePosition r c sym sd r' :
  r <> r' -> sendsNo r (closePosition c sym sd r').
Proof.
  intros Hr m. unfold closePosition.
  destruct (closeThrows c (closeCalls m)); simpl;
    rewrite closedFor_app; simpl;
    (destruct (decide (r = r')); [contradiction|]); apply app_nil_r.
Qed.

Lemma sendsNo_save r c : sendsNo r (save c).
Proof.
  intros m. unfold save.
  destruct (saveThrows c (saveCalls m)); simpl;
    rewrite closedFor_app; simpl; apply app_nil_r.
Qed.

Lemma sendsNo_forEach {A} r (body : A -> Step unit) (l : list A) :
  (forall x, sendsNo r (body x)) -> sendsNo r (forEach body l).
Proof.
  intros Hb. induction l as [|x l IH]; simpl.
  - apply sendsNo_ret.
  - apply sendsNo_bind; auto.
Qed.

Ltac sendsNo_tac :=
  repeat first
    [ apply sendsNo_bind; [|intros ?]
    | apply sendsNo_ret
    | apply sendsNo_throw
    | apply sendsNo_getDoc
    | apply sendsNo_modifyDoc
    | apply sendsNo_readDoc
    | apply sendsNo_save
    | apply sendsNo_emit; reflexivity
    | apply sendsNo_closePosition; discriminate
    | match goal with |- sendsNo _ (if ?b then _ else _) => destruct b end ].

Lemma checkPosition_sendsNo_excess c rp p :
  sendsNo MAX_TRADES_EXCEEDED (checkPosition c rp p).
Proof. unfold checkPosition, checkPositionAt, blockSymbol. sendsNo_tac. Qed.

Lemma closingOf_sendsNo r c m b : sendsNo r (closingOf c m b).
Proof. unfold closingOf, closing. sendsNo_tac. Qed.

(** ** Rule 2 *)

Lemma closeExcessTrade_run (c : Cycle) (p : Position) (m : Machine) :
  closeThrows c (closeCalls m) = false ->
  closeExcessTrade c p m
  = Returned tt
      (logged (RecordTrade (excessTradeRecord c p))
         (countClose
            (logged (CloseOne (symbol p) (side p) MAX_TRADES_EXCEEDED) m))).
Proof.
  intros Hok. unfold closeExcessTrade, closePosition, emit, bind.
  cbv beta zeta. rewrite Hok. reflexivity.
Qed.

Lemma closeExcess_run (c : Cycle) (l : list Position) (m : Machine) :
  (forall k, closeThrows c k = false) ->
  exists m',
    forEach (closeExcessTrade c) l m = Returned tt m'
    /\ log m' = log m ++ flat_map (excessEntries c) l
    /\ doc m' = doc m.
Proof.
  intros Hok. revert m. induction l as [|p l IH]; intros m; simpl.
  - exists m. rewrite app_nil_r. auto.
  - unfold bind. rewrite closeExcessTrade_run by apply Hok.
    match goal with |- context [forEach _ l ?m0] => destruct (IH m0) as (m' & E & L & D) end.
    exists m'. split; [exact E|]. split.
    + rewrite L. simpl. rewrite <- !app_assoc. reflexivity.
    + rewrite D. reflexivity.
Qed.

Lemma tradesToClose_firstn (rp : RiskParams) (positions : list Position) :
  0 <= maxOpenTrades rp ->
  maxOpenTrades rp < Z.of_nat (length positions) ->
  tradesToClose rp positions
  = firstn (length positions - Z.to_nat (maxOpenTrades rp))
      (NewestFirst.sort positions).
Proof.
  intros H0 H1. unfold tradesToClose, slice0.
  destruct (Z.of_nat (length positions) - maxOpenTrades rp <? 0) eqn:E.
  - apply Z.ltb_lt in E. lia.
  - f_equal. lia.
Qed.

Lemma maxOpenTradesRule_run (c : Cycle) (rp : RiskParams)
  (positions : list Position) (m : Machine) :
  (forall k, closeThrows c k = false) ->
  maxOpenTrades rp < Z.of_nat (length positions) ->
  exists m',
    maxOpenTradesRule c rp positions m = Returned tt m'
    /\ log m' = log m
         ++ Alert warning (TooManyTrades (length positions) (maxOpenTrades rp))
            :: flat_map (excessEntries c) (tradesToClose rp positions)
    /\ doc m' = doc m.
Proof.
  intros Hok Hmany. unfold maxOpenTradesRule.
  destruct (Z.of_nat (length positions) >? maxOpenTrades rp) eqn:E.
  2:{ rewrite Z.gtb_ltb in E. apply Z.ltb_ge in E. lia. }
  unfold bind, emit.
  match goal with |- context [forEach _ _ ?m0] =>
    destruct (closeExcess_run c (tradesToClose rp positions) m0 Hok)
      as (m' & R & L & D) end.
  exists m'. split; [exact R|]. split.
  - rewrite L. simpl. rewrite <- app_assoc. reflexivity.
  - rewrite D. reflexivity.
Qed.

(** Rule 2 in a cycle that reaches it with more positions open than
    allowed and whose close orders go through. *)
Lemma rule2_closes (c : Cycle) (m : Machine) (b : float) :
  passesAccountRules c m b ->
  maxOpenTrades (riskParams (doc m)) < Z.of_nat (length (getOpenPositions c)) ->
  (forall k, closeThrows c k = false) ->
  closedFor MAX_TRADES_EXCEEDED (log (monitorAccount c m))
  = closedFor MAX_TRADES_EXCEEDED (log m)
      ++ map orderOf (tradesToClose (riskParams (doc m)) (getOpenPositions c))
  /\ exists rest,
       log (monitorAccount c m)
       = log m
           ++ Alert warning
                (TooManyTrades (length (getOpenPositions c))
                   (maxOpenTrades (riskParams (doc m))))
              :: flat_map (excessEntries c)
                   (tradesToClose (riskParams (doc m)) (getOpenPositions c))
              ++ rest.
Proof.
  intros Hpass Hmany Hclose.
  unfold monitorAccount. rewrite (monitorBody_passes c m b Hpass).
  destruct (maxOpenTradesRule_run c (riskParams (doc m)) (getOpenPositions c)
              (afterGate c m) Hclose Hmany) as (m1 & Hrun & Hlog & _).
  rewrite (bind_returned _ _ _ _ _ Hrun).
  assert (Hrest : appends (forEach (checkPosition c (riskParams (doc m)))
                             (getOpenPositions c) ;;
                           closingOf c m b)).
  { apply appends_bind; [apply appends_forEach; intros; apply appends_checkPosition|].
    intros _. apply appends_closingOf. }
  assert (Hquiet : sendsNo MAX_TRADES_EXCEEDED
                     (forEach (checkPosition c (riskParams (doc m)))
                        (getOpenPositions c) ;;
                      closingOf c m b)).
  { apply sendsNo_bind;
      [apply sendsNo_forEach; intros; apply checkPosition_sendsNo_excess|].
    intros _. apply closingOf_sendsNo. }
  split.
  - rewrite Hquiet, Hlog. change (log (afterGate c m)) with (log m).
    rewrite closedFor_app. simpl. now rewrite closedFor_excessEntries.
  - destruct (Hrest m1) as [ext Hext]. exists ext.
    rewrite Hext, Hlog. change (log (afterGate c m)) with (log m).
    rewrite <- app_assoc. reflexivity.
Qed.

(** C6, amended. In a cycle that reaches rule 2 with more open positions
    than [maxOpenTrades] (a non-negative count), whose open positions all
    have an open time a [Date] holds and whose close orders go through,
    the positions closed with reason [MAX_TRADES_EXCEEDED] are exactly the
    first [len - maxOpenTrades] of the positions sorted by open time,
    newest first, positions opened at the same time keeping their input
    order; the other [maxOpenTrades] positions, none of them newer than a
    closed one, are not closed by this rule.  On an input in strictly
    increasing order of opening, the closed ones are the last
    [len - maxOpenTrades] of the input. *)
Theorem C6_excess_trades_close_the_newest
  (c : Cycle) (m : Machine) (b : float)
  (Hpass : passesAccountRules c m b)
  (Hlimit : 0 <= maxOpenTrades (riskParams (doc m)))
  (Hmany : maxOpenTrades (riskParams (doc m))
           < Z.of_nat (length (getOpenPositions c)))
  (Hvalid : Forall validTime (getOpenPositions c))
  (Hclose : forall k, closeThrows c k = false) :
  let positions := getOpenPositions c in
  let rp := riskParams (doc m) in
  let keep := Z.to_nat (maxOpenTrades rp) in
  let n := (length positions - keep)%nat in
  let sorted := NewestFirst.sort positions in
  let closed := firstn n sorted in
  let kept := skipn n sorted in
  tradesToClose rp positions = closed
  /\ closedFor MAX_TRADES_EXCEEDED (log (monitorAccount c m))
     = closedFor MAX_TRADES_EXCEEDED (log m) ++ map orderOf closed
  /\ (exists rest,
        log (monitorAccount c m)
        = log m
            ++ Alert warning (TooManyTrades (length positions) (maxOpenTrades rp))
               :: flat_map (excessEntries c) closed ++ rest)
  /\ length closed = n
  /\ length kept = keep
  /\ Permutation (closed ++ kept) positions
  /\ StronglySorted notOlder sorted
  /\ (forall t, List.filter (openedAt t) sorted = List.filter (openedAt t) positions)
  /\ (forall x y, In x closed -> In y kept -> timeOf y <= timeOf x)
  /\ (StronglySorted openedBefore positions ->
      closed = rev (skipn keep positions) /\ kept = rev (firstn keep positions)).
Proof.
  intros positions rp keep n sorted closed kept.
  assert (Hlen : (keep < length positions)%nat) by (unfold keep, rp, positions; lia).
  assert (Htc : tradesToClose rp positions = closed)
    by (apply tradesToClose_firstn; assumption).
  assert (Hsl : length sorted = length positions) by apply sort_length.
  split; [exact Htc|].
  destruct (rule2_closes c m b Hpass Hmany Hclose) as (Hclosed & Hlog).
  fold positions rp in Hclosed, Hlog. rewrite Htc in Hclosed, Hlog.
  split; [exact Hclosed|].
  split; [exact Hlog|].
  split; [unfold closed; rewrite length_firstn; lia|].
  split; [unfold kept; rewrite length_skipn; lia|].
  split; [unfold closed, kept; rewrite firstn_skipn; apply sort_perm|].
  split; [apply sort_sorted; exact Hvalid|].
  split; [intros t; apply sort_stable; exact Hvalid|].
  split.
  { intros x y Hx Hy.
    apply (sorted_app_order closed kept); [|exact Hx|exact Hy].
    unfold closed, kept. rewrite firstn_skipn. apply sort_sorted. exact Hvalid. }
  intros Hinc. unfold closed, kept, sorted.
  rewrite (sort_increasing positions Hvalid Hinc).
  split.
  - rewrite firstn_rev. do 2 f_equal. lia.
  - rewrite skipn_rev. do 2 f_equal. lia.
Qed.

(** ** The loop body, branch by branch *)

Section LoopBody.

Variables (c : Cycle) (rp : RiskParams).

Lemma closePosition_run sym sd r m :
  closePosition c sym sd r m
  = if closeThrows c (closeCalls m)
    then Threw (countClose (logged (CloseOne sym sd r) m))
    else Returned tt (countClose (logged (CloseOne sym sd r) m)).
Proof. reflexivity. Qed.

Lemma checkPositionAt_leverage (p : Position) (t : Reads) (m : Machine) :
  Js.gt (Js.parseFloatOr0 (leverage p)) (maxLeverage rp) = true ->
  checkPositionAt c rp p t m =
  let m1 := logged (Alert warning
              (LeverageExceeds (symbol p) (Js.parseFloatOr0 (leverage p))
                 (maxLeverage rp))) m in
  let m2 := countClose (logged (CloseOne (symbol p) (side p) LEVERAGE_EXCEEDED) m1) in
  if closeThrows c (closeCalls m) then Threw m2
  else Returned tt
         (logged (RecordTrade (tradeRecordAt (atExit t) p LEVERAGE_EXCEEDED)) m2).
Proof.
  intros H. unfold checkPositionAt. rewrite H.
  unfold bind, emit, closePosition. cbv beta zeta. simpl closeCalls.
  destruct (closeThrows c (closeCalls m)); reflexivity.
Qed.

Lemma checkPositionAt_daily (p : Position) (t : Reads) (m : Machine) :
  withinLeverage rp p ->
  hitsDailyLimit rp p = true ->
  checkPositionAt c rp p t m =
  let m1 := logged (Alert critical
              (DailyLimitHit (symbol p) (dailyDrawdownLimit rp)
                 (tradePnLPercent p) (getMidnightTonight (tz c) (atAlert t)))) m in
  let m2 := countClose (logged (CloseOne (symbol p) (side p) DAILY_LIMIT_REACHED) m1) in
  let m3 := logged (BlockSymbolUntil (symbol p) (getMidnightTonight (tz c) (atBlock t)))
              (withDoc (withSymbolBlocked (symbol p)
                          (getMidnightTonight (tz c) (atBlock t)) (doc m)) m2) in
  let m4 := countSave (logged (SaveAccount (doc m3)) m3) in
  if closeThrows c (closeCalls m) then Threw m2
  else if MongooseMap.validKey (symbol p) then
    if saveThrows c (saveCalls m) then Threw m4
    else Returned tt
           (logged (Alert warning
                      (SymbolBlockedNotice (symbol p)
                         (getMidnightTonight (tz c) (atNotice t))))
              (logged (RecordTrade (tradeRecordAt (atExit t) p DAILY_LIMIT_REACHED))
                 m4))
  else Threw m2.
Proof.
  intros Hl Hd. unfold withinLeverage in Hl. unfold hitsDailyLimit in Hd.
  unfold checkPositionAt. rewrite Hl, Hd.
  unfold blockSymbol, emit, closePosition, bind.
  cbv beta zeta. cbn [closeCalls logged].
  destruct (closeThrows c (closeCalls m)); [reflexivity|].
  destruct (MongooseMap.validKey (symbol p)); [|reflexivity].
  unfold modifyDoc, save, bind, emit.
  cbn [saveCalls closeCalls logged withDoc countClose countSave doc].
  destruct (saveThrows c (saveCalls m)); reflexivity.
Qed.

Lemma checkPositionAt_blocked (p : Position) (t : Reads) (m : Machine) :
  withinLeverage rp p ->
  hitsDailyLimit rp p = false ->
  fst (isSymbolBlocked (atCheck t) (doc m) (symbol p)) = true ->
  checkPositionAt c rp p t m =
  let until := match blockedSymbols (doc m) with
               | Some mp => mp !! symbol p
               | None => None
               end in
  let m1 := logged (Alert warning (SymbolIsBlocked (symbol p) until)) m in
  let m2 := countClose (logged (CloseOne (symbol p) (side p) SYMBOL_BLOCKED) m1) in
  if closeThrows c (closeCalls m) then Threw m2
  else Returned tt
         (logged (RecordTrade (tradeRecordAt (atExit t) p SYMBOL_BLOCKED)) m2).
Proof.
  intros Hl Hd Hb. unfold withinLeverage in Hl. unfold hitsDailyLimit in Hd.
  unfold checkPositionAt. rewrite Hl, Hd.
  unfold bind, readDoc. rewrite Hb, (isSymbolBlocked_kept _ _ _ Hb).
  unfold getDoc, emit, closePosition. cbv beta zeta iota. simpl.
  destruct m; simpl.
  destruct (closeThrows c closeCalls0); reflexivity.
Qed.

Lemma checkPositionAt_clear (p : Position) (t : Reads) (m : Machine) :
  withinLeverage rp p ->
  hitsDailyLimit rp p = false ->
  fst (isSymbolBlocked (atCheck t) (doc m) (symbol p)) = false ->
  checkPositionAt c rp p t m
  = Returned tt (withDoc (snd (isSymbolBlocked (atCheck t) (doc m) (symbol p))) m).
Proof.
  intros Hl Hd Hb. unfold withinLeverage in Hl. unfold hitsDailyLimit in Hd.
  unfold checkPositionAt. rewrite Hl, Hd.
  unfold bind, readDoc. rewrite Hb. reflexivity.
Qed.

(** The same in a cycle evaluated at one instant. *)

Lemma checkPosition_leverage (p : Position) (m : Machine) :
  Js.gt (Js.parseFloatOr0 (leverage p)) (maxLeverage rp) = true ->
  checkPosition c rp p m =
  let m1 := logged (Alert warning
              (LeverageExceeds (symbol p) (Js.parseFloatOr0 (leverage p))
                 (maxLeverage rp))) m in
  let m2 := countClose (logged (CloseOne (symbol p) (side p) LEVERAGE_EXCEEDED) m1) in
  if closeThrows c (closeCalls m) then Threw m2
  else Returned tt (logged (RecordTrade (tradeRecord c p LEVERAGE_EXCEEDED)) m2).
Proof. exact (checkPositionAt_leverage p (readsAt (now c)) m). Qed.

Lemma checkPosition_daily (p : Position) (m : Machine) :
  withinLeverage rp p ->
  hitsDailyLimit rp p = true ->
  checkPosition c rp p m =
  let midnight := getMidnightTonight (tz c) (now c) in
  let m1 := logged (Alert critical
              (DailyLimitHit (symbol p) (dailyDrawdownLimit rp)
                 (tradePnLPercent p) midnight)) m in
  let m2 := countClose (logged (CloseOne (symbol p) (side p) DAILY_LIMIT_REACHED) m1) in
  let m3 := logged (BlockSymbolUntil (symbol p) midnight)
              (withDoc (withSymbolBlocked (symbol p) midnight (doc m)) m2) in
  let m4 := countSave (logged (SaveAccount (doc m3)) m3) in
  if closeThrows c (closeCalls m) then Threw m2
  else if MongooseMap.validKey (symbol p) then
    if saveThrows c (saveCalls m) then Threw m4
    else Returned tt
           (logged (Alert warning (SymbolBlockedNotice (symbol p) midnight))
              (logged (RecordTrade (tradeRecord c p DAILY_LIMIT_REACHED)) m4))
  else Threw m2.
Proof. exact (checkPositionAt_daily p (readsAt (now c)) m). Qed.



End LoopBody.

(** ** A cycle seen from one position of its loop *)

Lemma bind_returned_inv {A B} (s : Step A) (k : A -> Step B) (m m2 : Machine) (b : B) :
  bind s k m = Returned b m2 ->
  exists a m1, s m = Returned a m1 /\ k a m1 = Returned b m2.
Proof.
  unfold bind. destruct (s m) as [a m1|m1]; [|discriminate]. eauto.
Qed.

Lemma cycle_from_position c m done p rest m1 :
  getOpenPositions c = done ++ p :: rest ->
  loopReaches c m done m1 ->
  exists b : float,
    passesAccountRules c m b /\
    monitorBody c m
    = (checkPosition c (riskParams (doc m)) p ;;
       forEach (checkPosition c (riskParams (doc m))) rest ;;
       closingOf c m b) m1.
Proof.
  intros Hpos (b & Hpass & Hrun). exists b. split; [exact Hpass|].
  rewrite (monitorBody_passes c m b Hpass).
  apply bind_returned_inv in Hrun. destruct Hrun as ([] & m0 & Hrule & Hdone).
  rewrite (bind_returned _ _ _ _ _ Hrule).
  rewrite Hpos. unfold bind at 1. rewrite forEach_app.
  rewrite (bind_returned _ _ _ _ _ Hdone). simpl.
  unfold bind. destruct (checkPosition c (riskParams (doc m)) p m1); reflexivity.
Qed.

Lemma cycle_log_from_position c m done p rest m1 :
  getOpenPositions c = done ++ p :: rest ->
  loopReaches c m done m1 ->
  exists ext,
    log (monitorAccount c m)
    = log (machineOf (checkPosition c (riskParams (doc m)) p m1)) ++ ext.
Proof.
  intros Hpos Hreach.
  destruct (cycle_from_position c m done p rest m1 Hpos Hreach) as (b & _ & E).
  unfold monitorAccount. rewrite E. unfold bind at 1.
  destruct (checkPosition c (riskParams (doc m)) p m1) as [[] m2|m2]; simpl.
  - assert (Hrest : appends (forEach (checkPosition c (riskParams (doc m))) rest ;;
                             closingOf c m b)).
    { apply appends_bind; [apply appends_forEach; intros; apply appends_checkPosition|].
      intros _. apply appends_closingOf. }
    apply Hrest.
  - exists []. now rewrite app_nil_r.
Qed.

Lemma loopReaches_log c m done m1 :
  loopReaches c m done m1 -> exists pre, log m1 = log m ++ pre.
Proof.
  intros (b & _ & Hrun).
  assert (Ha : appends (maxOpenTradesRule c (riskParams (doc m)) (getOpenPositions c) ;;
                        forEach (checkPosition c (riskParams (doc m))) done)).
  { apply appends_bind.
    - unfold maxOpenTradesRule.
      destruct (_ >? _); [|apply appends_ret].
      apply appends_bind; [apply appends_emit|intros _].
      apply appends_forEach. intros x. unfold closeExcessTrade.
      apply appends_bind; [apply appends_closePosition|intros _; apply appends_emit].
    - intros _. apply appends_forEach. intros; apply appends_checkPosition. }
  destruct (Ha (afterGate c m)) as [ext E]. rewrite Hrun in E. simpl in E.
  exists ext. exact E.
Qed.

Lemma cycle_log_around c m done p rest m1 entries :
  getOpenPositions c = done ++ p :: rest ->
  loopReaches c m done m1 ->
  log (machineOf (checkPosition c (riskParams (doc m)) p m1)) = log m1 ++ entries ->
  exists pre ext,
    log m1 = log m ++ pre /\
    log (monitorAccount c m) = log m ++ pre ++ entries ++ ext.
Proof.
  intros Hpos Hreach Hlog.
  destruct (loopReaches_log c m done m1 Hreach) as [pre Hpre].
  destruct (cycle_log_from_position c m done p rest m1 Hpos Hreach) as [ext Hext].
  exists pre, ext. split; [exact Hpre|].
  rewrite Hext, Hlog, Hpre. now rewrite <- !app_assoc.
Qed.


(** Rule 4 sends its close order before it writes the block. *)
Lemma checkPosition_daily_log (c : Cycle) (rp : RiskParams) (p : Position)
  (m1 : Machine) :
  withinLeverage rp p ->
  hitsDailyLimit rp p = true ->
  exists tail,
    log (machineOf (checkPosition c rp p m1))
    = log m1
        ++ [ Alert critical
               (DailyLimitHit (symbol p) (dailyDrawdownLimit rp)
                  (tradePnLPercent p) (getMidnightTonight (tz c) (now c)));
             CloseOne (symbol p) (side p) DAILY_LIMIT_REACHED ]
        ++ tail.
Proof.
  intros Hlev Hhit. rewrite (checkPosition_daily c rp p m1 Hlev Hhit). cbv zeta.
  destruct (closeThrows c (closeCalls m1)); [|
    destruct (MongooseMap.validKey (symbol p)); [
      destruct (saveThrows c (saveCalls m1))|]];
    simpl; rewrite <- ?app_assoc; simpl; eexists;
    (rewrite <- ?app_assoc; simpl; f_equal; f_equal; f_equal; reflexivity)
    || (exists []; reflexivity).
Qed.

(** C5, amended. When the loop of a cycle comes to a position that passes
    the leverage check and whose trade P&L percent is at or below minus the
    absolute daily limit, the cycle logs for it the critical alert and the
    close order with reason [DAILY_LIMIT_REACHED].  When the close order
    goes through and the symbol is a key the Map of blocked symbols takes,
    the cycle goes on with the block of the symbol until the instant
    [getMidnightTonight] gives, and the save of the document,
    then, when the save returns, the trade record and the warning alert;
    the document then stores the symbol as blocked until that midnight and
    reads it as blocked. *)
Theorem C5_daily_limit_closes_and_blocks_symbol
  (c : Cycle) (m : Machine) (done : list Position) (p : Position)
  (rest : list Position) (m1 : Machine)
  (Hpos : getOpenPositions c = done ++ p :: rest)
  (Hreach : loopReaches c m done m1)
  (Hlev : withinLeverage (riskParams (doc m)) p)
  (Hhit : hitsDailyLimit (riskParams (doc m)) p = true) :
  let rp := riskParams (doc m) in
  let midnight := getMidnightTonight (tz c) (now c) in
  let entries :=
    dailyLimitEntries c rp p (doc m1)
    ++ (if saveThrows c (saveCalls m1) then [] else dailyLimitEntriesSaved c p) in
  let after := machineOf (checkPosition c rp p m1) in
  In (CloseOne (symbol p) (side p) DAILY_LIMIT_REACHED) (log after)
  /\ In (CloseOne (symbol p) (side p) DAILY_LIMIT_REACHED)
       (log (monitorAccount c m))
  /\ (closeThrows c (closeCalls m1) = false ->
      MongooseMap.validKey (symbol p) = true ->
      log after = log m1 ++ entries
      /\ In (BlockSymbolUntil (symbol p) midnight) entries
      /\ doc after = withSymbolBlocked (symbol p) midnight (doc m1)
      /\ blockedUntilFor (symbol p) midnight (doc after)
      /\ fst (isSymbolBlocked (now c) (doc after) (symbol p)) = true
      /\ (exists pre ext,
            log m1 = log m ++ pre
            /\ log (monitorAccount c m) = log m ++ pre ++ entries ++ ext)).
Proof.
  intros rp midnight entries after.
  destruct (checkPosition_daily_log c rp p m1 Hlev Hhit) as (tail & Htail).
  fold after in Htail.
  split.
  { rewrite Htail. apply in_or_app. right. simpl. auto. }
  split.
  { destruct (cycle_log_from_position c m done p rest m1 Hpos Hreach)
      as (ext & Hext).
    fold rp after in Hext. rewrite Hext, Htail.
    apply in_or_app. left. apply in_or_app. right. simpl. auto. }
  intros Hclose Hkey.
  pose proof (checkPosition_daily c rp p m1 Hlev Hhit) as Hrun.
  cbv zeta in Hrun. rewrite Hclose, Hkey in Hrun. fold midnight in Hrun.
  assert (Hlog : log after = log m1 ++ entries).
  { unfold after, entries. rewrite Hrun.
    destruct (saveThrows c (saveCalls m1)); simpl; rewrite <- !app_assoc;
      reflexivity. }
  assert (Hdoc : doc after = withSymbolBlocked (symbol p) midnight (doc m1)).
  { unfold after. rewrite Hrun.
    destruct (saveThrows c (saveCalls m1)); reflexivity. }
  assert (Hstored : blockedUntilFor (symbol p) midnight (doc after)).
  { rewrite Hdoc. unfold blockedUntilFor, withSymbolBlocked. simpl.
    eexists. split; [reflexivity|]. apply lookup_insert_eq. }
  split; [exact Hlog|].
  split; [unfold entries, dailyLimitEntries; simpl; auto|].
  split; [exact Hdoc|].
  split; [exact Hstored|].
  split.
  { apply isSymbolBlocked_true. destruct Hstored as (mp & E1 & E2).
    exists mp, midnight. repeat split; auto. apply midnight_after. }
  exact (cycle_log_around c m done p rest m1 entries Hpos Hreach Hlog).
Qed.

(** ** A block made in a cycle stays while the clock is before its end *)

Lemma checkPositionAt_holds c rp x t lo sym m :
  lo <= getMidnightTonight (tz c) (atBlock t) ->
  atCheck t < lo ->
  heldFrom lo sym (doc m) ->
  heldFrom lo sym (doc (machineOf (checkPositionAt c rp x t m))).
Proof.
  intros Hblock Hcheck Hb.
  destruct (Js.gt (Js.parseFloatOr0 (leverage x)) (maxLeverage rp)) eqn:Hl.
  { rewrite (checkPositionAt_leverage c rp x t m Hl). cbv zeta.
    destruct (closeThrows c (closeCalls m)); exact Hb. }
  destruct (hitsDailyLimit rp x) eqn:Hd.
  { rewrite (checkPositionAt_daily c rp x t m Hl Hd). cbv zeta.
    destruct (closeThrows c (closeCalls m)); [exact Hb|].
    destruct (MongooseMap.validKey (symbol x)); [|exact Hb].
    assert (Hins : heldFrom lo sym
                     (withSymbolBlocked (symbol x)
                        (getMidnightTonight (tz c) (atBlock t)) (doc m))).
    { destruct Hb as (u & E & Hu). unfold heldFrom.
      rewrite symbolBlock_withSymbolBlocked.
      destruct (decide (symbol x = sym)); eauto. }
    destruct (saveThrows c (saveCalls m)); exact Hins. }
  destruct (fst (isSymbolBlocked (atCheck t) (doc m) (symbol x))) eqn:Hs.
  { rewrite (checkPositionAt_blocked c rp x t m Hl Hd Hs). cbv zeta.
    destruct (closeThrows c (closeCalls m)); exact Hb. }
  rewrite (checkPositionAt_clear c rp x t m Hl Hd Hs).
  destruct Hb as (u & E & Hu). exists u. split; [|exact Hu].
  change (symbolBlock (snd (isSymbolBlocked (atCheck t) (doc m) (symbol x))) sym
          = Some u).
  rewrite symbolBlock_isSymbolBlocked.
  destruct (decide (symbol x = sym)); [|exact E].
  rewrite E. destruct (atCheck t <? u) eqn:Hlt; [reflexivity|].
  apply Z.ltb_ge in Hlt. lia.
Qed.

Lemma timedLoop_holds c rp l lo sym :
  Forall (fun x => lo <= getMidnightTonight (tz c) (atBlock (snd x))
                   /\ atCheck (snd x) < lo) l ->
  forall m,
    heldFrom lo sym (doc m) ->
    heldFrom lo sym (doc (machineOf (timedLoop c rp l m))).
Proof.
  unfold timedLoop.
  induction 1 as [|x l (Hx1 & Hx2) _ IH]; intros m Hb; simpl; [exact Hb|].
  unfold bind.
  pose proof (checkPositionAt_holds c rp (fst x) (snd x) lo sym m Hx1 Hx2 Hb) as Hx.
  destruct (checkPositionAt c rp (fst x) (snd x) m) as [[] m'|m']; simpl in Hx.
  - now apply IH.
  - exact Hx.
Qed.

Lemma appends_timedLoop c rp l : appends (timedLoop c rp l).
Proof.
  unfold timedLoop. apply appends_forEach. intros x.
  apply appends_checkPositionAt.
Qed.

(** The loop of the cycle is the timed loop with every clock read at the
    instant of the cycle. *)
Lemma timedLoop_at_one_instant c rp (l : list Position) (m : Machine) :
  timedLoop c rp (map (fun p => (p, readsAt (now c))) l) m
  = forEach (checkPosition c rp) l m.
Proof.
  unfold timedLoop. revert m.
  induction l as [|x l IH]; intros m; simpl; [reflexivity|].
  unfold bind. fold (checkPosition c rp x).
  destruct (checkPosition c rp x m) as [[] m'|m']; [apply IH|reflexivity].
Qed.

Lemma timedLoop_split c rp done q tq between m0 m1 :
  timedLoop c rp (done ++ (q, tq) :: between) m0 = Returned tt m1 ->
  exists mq mq',
    timedLoop c rp done m0 = Returned tt mq
    /\ checkPositionAt c rp q tq mq = Returned tt mq'
    /\ timedLoop c rp between mq' = Returned tt m1.
Proof.
  unfold timedLoop. intros Hloop.
  rewrite forEach_app in Hloop.
  apply bind_returned_inv in Hloop. destruct Hloop as ([] & mq & Hdone & Htail).
  simpl in Htail.
  apply bind_returned_inv in Htail. destruct Htail as ([] & mq' & Hq & Hbetween).
  exists mq, mq'. auto.
Qed.

(** C10, amended. Within one cycle, when a position on a symbol has tripped
    the daily limit and the loop, still without a throw (so the symbol is
    a key the Map takes and the block was written and saved), comes to a
    later position on the same symbol that passes the leverage check and
    does not itself trip the daily limit, and the clock, which does not run
    backwards, has not reached the midnight of that block when the later
    position is checked, then the symbol is still stored as blocked, until
    that midnight at the earliest, and, its close order going through, the
    later position is closed with reason [SYMBOL_BLOCKED]: the cycle logs
    for it the warning alert, that close order and the trade record, after
    the [BlockSymbolUntil] entry of the same cycle. *)
Theorem C10_block_applies_within_the_cycle
  (c : Cycle) (rp : RiskParams) (m0 : Machine)
  (done : list (Position * Reads)) (q : Position) (tq : Reads)
  (between : list (Position * Reads)) (p : Position) (tp : Reads)
  (m1 : Machine)
  (Hreach : timedLoop c rp (done ++ (q, tq) :: between) m0 = Returned tt m1)
  (Hsame : symbol q = symbol p)
  (Hq_lev : withinLeverage rp q)
  (Hq_hit : hitsDailyLimit rp q = true)
  (Hp_lev : withinLeverage rp p)
  (Hp_hit : hitsDailyLimit rp p = false)
  (Hclock : Forall (fun x => readsBetween tq tp (snd x)) between)
  (Hbefore : atCheck tp < getMidnightTonight (tz c) (atBlock tq))
  (Hclose : closeThrows c (closeCalls m1) = false) :
  let midnight := getMidnightTonight (tz c) (atBlock tq) in
  MongooseMap.validKey (symbol p) = true
  /\ exists until pre,
       symbolBlock (doc m1) (symbol p) = Some until
       /\ midnight <= until
       /\ log m1 = log m0 ++ pre
       /\ In (BlockSymbolUntil (symbol p) midnight) pre
       /\ checkPositionAt c rp p tp m1
          = Returned tt
              (logged (RecordTrade (tradeRecordAt (atExit tp) p SYMBOL_BLOCKED))
                 (countClose
                    (logged (CloseOne (symbol p) (side p) SYMBOL_BLOCKED)
                       (logged (Alert warning
                                  (SymbolIsBlocked (symbol p) (Some until)))
                          m1))))
       /\ log (machineOf (checkPositionAt c rp p tp m1))
          = log m1
              ++ [ Alert warning (SymbolIsBlocked (symbol p) (Some until));
                   CloseOne (symbol p) (side p) SYMBOL_BLOCKED;
                   RecordTrade (tradeRecordAt (atExit tp) p SYMBOL_BLOCKED) ].
Proof.
  intros midnight.
  destruct (timedLoop_split c rp done q tq between m0 m1 Hreach)
    as (mq & mq' & Hdone & Hq & Hbetween).
  (* the block made for [q] *)
  pose proof (checkPositionAt_daily c rp q tq mq Hq_lev Hq_hit) as Hrun_q.
  cbv zeta in Hrun_q. rewrite Hq in Hrun_q. fold midnight in Hrun_q.
  destruct (closeThrows c (closeCalls mq)); [discriminate|].
  destruct (MongooseMap.validKey (symbol q)) eqn:Hkey; [|discriminate].
  destruct (saveThrows c (saveCalls mq)); [discriminate|].
  inversion Hrun_q as [Emq']. clear Hrun_q.
  rewrite Hsame in Hkey. split; [exact Hkey|].
  assert (Hheld_q : heldFrom midnight (symbol p) (doc mq')).
  { rewrite Emq'. simpl. rewrite Hsame. exists midnight.
    rewrite symbolBlock_withSymbolBlocked.
    destruct (decide (symbol p = symbol p)); [|contradiction].
    split; [reflexivity|lia]. }
  assert (Hlog_q : exists e0, log mq' = log mq ++ e0
                     /\ In (BlockSymbolUntil (symbol p) midnight) e0).
  { rewrite Emq'. simpl. rewrite Hsame. rewrite <- !app_assoc. simpl.
    eexists. split; [reflexivity|]. simpl. auto. }
  (* it is still there when the loop comes to [p] *)
  assert (Hheld : heldFrom midnight (symbol p) (doc m1)).
  { pose proof (timedLoop_holds c rp between midnight (symbol p)) as H.
    specialize (H ltac:(eapply List.Forall_impl; [|exact Hclock];
                        intros x (H1 & H2); split;
                        [apply midnight_mono; exact H1|lia]) mq' Hheld_q).
    rewrite Hbetween in H. exact H. }
  destruct Hheld as (until & Hstored & Hlate).
  exists until.
  assert (Hread : fst (isSymbolBlocked (atCheck tp) (doc m1) (symbol p)) = true).
  { apply isSymbolBlocked_stored. exists until. split; [exact Hstored|lia]. }
  pose proof (checkPositionAt_blocked c rp p tp m1 Hp_lev Hp_hit Hread) as Hrun.
  cbv zeta in Hrun. rewrite Hclose in Hrun.
  change (match blockedSymbols (doc m1) with
          | Some mp => mp !! symbol p
          | None => None
          end) with (symbolBlock (doc m1) (symbol p)) in Hrun.
  rewrite Hstored in Hrun.
  destruct (appends_timedLoop c rp done m0) as [e1 He1].
  rewrite Hdone in He1. simpl in He1.
  destruct Hlog_q as (e0 & He0 & Hin).
  destruct (appends_timedLoop c rp between mq') as [e2 He2].
  rewrite Hbetween in He2. simpl in He2.
  exists (e1 ++ e0 ++ e2).
  split; [exact Hstored|]. split; [exact Hlate|].
  split; [rewrite He2, He0, He1, <- !app_assoc; reflexivity|].
  split; [apply in_or_app; right; apply in_or_app; now left|].
  split; [exact Hrun|].
  rewrite Hrun. simpl. rewrite <- !app_assoc. reflexivity.
Qed.

(** ** The rules at a limit of zero *)

Lemma checkPosition_sendsNo_leverage c rp p :
  withinLeverage rp p -> sendsNo LEVERAGE_EXCEEDED (checkPosition c rp p).
Proof.
  intros Hl. unfold withinLeverage in Hl.
  unfold checkPosition, checkPositionAt, blockSymbol.
  rewrite Hl. sendsNo_tac.
Qed.

Lemma checkPosition_sendsNo_daily c rp p :
  withinLeverage rp p -> hitsDailyLimit rp p = false ->
  sendsNo DAILY_LIMIT_REACHED (checkPosition c rp p).
Proof.
  intros Hl Hd. unfold withinLeverage in Hl. unfold hitsDailyLimit in Hd.
  unfold checkPosition, checkPositionAt, blockSymbol.
  rewrite Hl, Hd. sendsNo_tac.
Qed.

Lemma checkPosition_leverage_log (c : Cycle) (rp : RiskParams) (p : Position)
  (m1 : Machine) :
  Js.gt (Js.parseFloatOr0 (leverage p)) (maxLeverage rp) = true ->
  exists tail,
    log (machineOf (checkPosition c rp p m1))
    = log m1
        ++ [ Alert warning
               (LeverageExceeds (symbol p) (Js.parseFloatOr0 (leverage p))
                  (maxLeverage rp));
             CloseOne (symbol p) (side p) LEVERAGE_EXCEEDED ]
        ++ tail.
Proof.
  intros Hlev. rewrite (checkPosition_leverage c rp p m1 Hlev). cbv zeta.
  destruct (closeThrows c (closeCalls m1)); simpl; rewrite <- ?app_assoc; simpl.
  - exists []. reflexivity.
  - eexists. reflexivity.
Qed.

Lemma maxDrawdown_log (c : Cycle) (m : Machine) (b : float) :
  fst (isAccountBlocked (now c) (doc m)) = false ->
  fetchedBalance c = Some b ->
  Js.le (totalDrawdownPercentOf (stateInitialBalance m) b)
        (- PrimFloat.abs (maxDrawdownLimit (riskParams (doc m))))%float = true ->
  exists tail,
    log (monitorAccount c m)
    = log m
        ++ Alert critical
             (MaxDrawdownReached (maxDrawdownLimit (riskParams (doc m)))
                (totalDrawdownPercentOf (stateInitialBalance m) b))
           :: CloseAll MAX_DRAWDOWN :: tail.
Proof.
  intros Hgate Hbal Htrip.
  unfold monitorAccount. rewrite (monitorBody_trips c m b Hgate Hbal Htrip).
  unfold afterGate. rewrite (isAccountBlocked_open _ _ Hgate).
  unfold maxDrawdown, blockAccount, bind, emit, modifyDoc, save, setStateIsActive.
  simpl.
  destruct (saveThrows c (saveCalls m)); simpl; rewrite <- ?app_assoc; simpl;
    eexists; reflexivity.
Qed.

(** C9, amended. A risk parameter set to [0] makes its rule trip whenever
    the comparison of the rule holds at the limit [0]: with
    [maxOpenTrades = 0], rule 2 closes every open position of a cycle that
    has one (newest first, when the open times are valid dates); with [maxLeverage = 0], rule 3 closes a position when its
    leverage is strictly positive and does not when its leverage is absent
    or [0]; with [dailyDrawdownLimit = 0], rule 4 closes a position within
    the leverage limit when its P&L percent is at or below [-0] and does
    not when it is above; with [maxDrawdownLimit = 0], rule 1 trips when
    the total drawdown percent is at or below [-0], and does not, the
    cycle going on to rule 2 and the loop, when it is above. *)
Theorem C9_rules_at_a_limit_of_zero (c : Cycle) (m : Machine) :
  let rp := riskParams (doc m) in
  (maxOpenTrades rp = 0 ->
   forall b,
     passesAccountRules c m b ->
     getOpenPositions c <> [] ->
     (forall k, closeThrows c k = false) ->
     exists closed,
       closedFor MAX_TRADES_EXCEEDED (log (monitorAccount c m))
       = closedFor MAX_TRADES_EXCEEDED (log m) ++ map orderOf closed
       /\ Permutation closed (getOpenPositions c)
       /\ (validTimes c -> closed = NewestFirst.sort (getOpenPositions c)))
  /\ (maxLeverage rp = 0%float ->
      forall done p rest m1,
        getOpenPositions c = done ++ p :: rest ->
        loopReaches c m done m1 ->
        (Js.gt (Js.parseFloatOr0 (leverage p)) 0%float = true ->
         In (CloseOne (symbol p) (side p) LEVERAGE_EXCEEDED)
           (log (monitorAccount c m)))
        /\ (Js.gt (Js.parseFloatOr0 (leverage p)) 0%float = false ->
            closedFor LEVERAGE_EXCEEDED (log (machineOf (checkPosition c rp p m1)))
            = closedFor LEVERAGE_EXCEEDED (log m1))
        /\ (leverage p = None \/ leverage p = Some 0%float ->
            Js.gt (Js.parseFloatOr0 (leverage p)) 0%float = false))
  /\ (dailyDrawdownLimit rp = 0%float ->
      forall done p rest m1,
        getOpenPositions c = done ++ p :: rest ->
        loopReaches c m done m1 ->
        withinLeverage rp p ->
        (Js.le (tradePnLPercent p) (-0)%float = true ->
         In (CloseOne (symbol p) (side p) DAILY_LIMIT_REACHED)
           (log (monitorAccount c m)))
        /\ (Js.le (tradePnLPercent p) (-0)%float = false ->
            closedFor DAILY_LIMIT_REACHED
              (log (machineOf (checkPosition c rp p m1)))
            = closedFor DAILY_LIMIT_REACHED (log m1)))
  /\ (maxDrawdownLimit rp = 0%float ->
      forall b,
        fst (isAccountBlocked (now c) (doc m)) = false ->
        fetchedBalance c = Some b ->
        (Js.le (totalDrawdownPercentOf (stateInitialBalance m) b) (-0)%float
         = true ->
         In (CloseAll MAX_DRAWDOWN) (log (monitorAccount c m)))
        /\ (Js.le (totalDrawdownPercentOf (stateInitialBalance m) b) (-0)%float
            = false ->
            passesAccountRules c m b)).
Proof.
  intros rp. subst rp. split; [|split; [|split]].
  - intros Hzero b Hpass Hsome Hclose.
    assert (Hmany : maxOpenTrades (riskParams (doc m))
                    < Z.of_nat (length (getOpenPositions c))).
    { rewrite Hzero. destruct (getOpenPositions c); [contradiction|simpl; lia]. }
    destruct (rule2_closes c m b Hpass Hmany Hclose) as (Hclosed & _).
    exists (NewestFirst.sort (getOpenPositions c)).
    split; [|split; [apply sort_perm|reflexivity]].
    rewrite Hclosed. do 2 f_equal.
    unfold tradesToClose, slice0. rewrite Hzero, Z.sub_0_r.
    destruct (Z.of_nat (length (getOpenPositions c)) <? 0) eqn:E;
      [apply Z.ltb_lt in E; lia|].
    rewrite Nat2Z.id. apply firstn_all2. rewrite sort_length. lia.
  - intros Hzero done p rest m1 Hpos Hreach.
    split; [|split].
    + intros Hgt. rewrite <- Hzero in Hgt.
      destruct (checkPosition_leverage_log c _ p m1 Hgt) as (tail & Htail).
      destruct (cycle_log_from_position c m done p rest m1 Hpos Hreach)
        as (ext & Hext).
      rewrite Hext, Htail.
      apply in_or_app. left. apply in_or_app. right.
      apply in_or_app. left. simpl. auto.
    + intros Hgt. rewrite <- Hzero in Hgt.
      apply (checkPosition_sendsNo_leverage c (riskParams (doc m)) p Hgt).
    + intros [H|H]; rewrite H; reflexivity.
  - intros Hzero done p rest m1 Hpos Hreach Hlev.
    split.
    + intros Hle.
      assert (Hhit : hitsDailyLimit (riskParams (doc m)) p = true).
      { unfold hitsDailyLimit. rewrite Hzero. exact Hle. }
      destruct (checkPosition_daily_log c _ p m1 Hlev Hhit) as (tail & Htail).
      destruct (cycle_log_from_position c m done p rest m1 Hpos Hreach)
        as (ext & Hext).
      rewrite Hext, Htail.
      apply in_or_app. left. apply in_or_app. right.
      apply in_or_app. left. simpl. auto.
    + intros Hle.
      assert (Hhit : hitsDailyLimit (riskParams (doc m)) p = false).
      { unfold hitsDailyLimit. rewrite Hzero. exact Hle. }
      apply (checkPosition_sendsNo_daily c (riskParams (doc m)) p Hlev Hhit).
  - intros Hzero b Hgate Hbal. split.
    + intros Hle.
      assert (Htrip : Js.le (totalDrawdownPercentOf (stateInitialBalance m) b)
                        (- PrimFloat.abs (maxDrawdownLimit (riskParams (doc m))))%float
                      = true).
      { rewrite Hzero. exact Hle. }
      destruct (maxDrawdown_log c m b Hgate Hbal Htrip) as (tail & Htail).
      rewrite Htail. apply in_or_app. right. simpl. auto.
    + intros Hle. split; [exact Hgate|]. split; [exact Hbal|].
      rewrite Hzero. exact Hle.
Qed.

(** ** Trade P&L *)

(** C7, amended. The trade P&L percent used by the per-position checks is
    the reported percent when that field holds a number other than zero;
    otherwise, when the entry price and the mark price are both present and
    not zero, it is [((mark - entry) / entry) * 100 * leverage] for a long
    position and [((entry - mark) / entry) * 100 * leverage] for a short
    one; otherwise it is [0].  Where the prices are usable and the reported
    percent is not [NaN], this is the value the specification words. *)
Theorem C7_trade_pnl_percent (p : Position) :
  tradePnLPercent p
  = match reportedPnLPercent p with
    | Some v => v
    | None => if pricesUsable p then derivedPnLPercent p else 0%float
    end
  /\ (pricesUsable p = true ->
      match percentage p with
      | Some v => PrimFloat.is_nan v = false
      | None => True
      end ->
      tradePnLPercent p = specTradePnLPercent p).
Proof.
  unfold tradePnLPercent, reportedPnLPercent, pricesUsable, specTradePnLPercent,
    derivedPnLPercent.
  destruct (percentage p) as [v|]; simpl.
  - destruct (Js.falsy v) eqn:Hv; simpl.
    + split; [reflexivity|].
      intros Hu Hnan. rewrite Hu.
      unfold Js.falsy in Hv. rewrite Hnan, orb_false_r in Hv. now rewrite Hv.
    + rewrite Hv. simpl. split; [reflexivity|].
      intros Hu Hnan. unfold Js.falsy in Hv. apply orb_false_elim in Hv.
      destruct Hv as [Hz _]. now rewrite Hz.
  - split; [reflexivity|].
    intros Hu _. now rewrite Hu.
Qed.

(** ** The monitoring loop *)

Lemma visit_inactive (v : Visit) (m : Machine) :
  stateIsActive m = false -> visitAccount v m = Some m.
Proof. intros H. unfold visitAccount. now rewrite H. Qed.

Lemma pass_keeps_inactive (w : nat -> Visit) (ms : list Machine) :
  forall (i k : nat) (m : Machine),
    nth_error ms k = Some m -> stateIsActive m = false ->
    nth_error (monitoringPass w i ms) k = Some m.
Proof.
  induction ms as [|x ms IH]; intros i k m Hk Hm.
  - destruct k; discriminate.
  - simpl. destruct k as [|k]; simpl in Hk.
    + inversion Hk; subst x. rewrite (visit_inactive _ _ Hm). reflexivity.
    + destruct (visitAccount (w i) x) as [x'|]; simpl; [|exact Hk].
      now apply IH.
Qed.

Lemma loop_keeps_inactive (passes : list (nat -> Visit)) :
  forall (ms : list Machine) (k : nat) (m : Machine),
    nth_error ms k = Some m -> stateIsActive m = false ->
    nth_error (monitoringLoop passes ms) k = Some m.
Proof.
  unfold monitoringLoop.
  induction passes as [|w passes IH]; intros ms k m Hk Hm; simpl.
  - exact Hk.
  - apply IH; [|exact Hm]. now apply pass_keeps_inactive.
Qed.

(** C3, as the code has it.  A visit in which rule 1 trips and the save
    returns leaves the account blocked until the next midnight and its
    in-memory state inactive; from then on the loop never evaluates the
    account again: whatever the later passes read (any time, also past the
    end of the block, any reloaded document), the account's machine, log
    included, stays as that visit left it. *)
Theorem C3_account_blocked_by_drawdown_is_never_evaluated_again
  (v : Visit) (m : Machine) (d : AccountDoc) (b : float)
  (Hactive : stateIsActive m = true)
  (Hreload : reloaded v = Some d)
  (Hgate : fst (isAccountBlocked (now (cycle v)) d) = false)
  (Hbal : fetchedBalance (cycle v) = Some b)
  (Htrip : Js.le (totalDrawdownPercentOf (stateInitialBalance m) b)
             (- PrimFloat.abs (maxDrawdownLimit (riskParams d)))%float = true)
  (Hsave : saveThrows (cycle v) 0 = false) :
  exists m',
    visitAccount v m = Some m'
    /\ blockedUntil (doc m')
       = Some (getMidnightTonight (tz (cycle v)) (now (cycle v)))
    /\ isActive (doc m') = false
    /\ stateIsActive m' = false
    /\ forall (passes : list (nat -> Visit)) (before after : list Machine),
         nth_error (monitoringLoop passes (before ++ m' :: after)) (length before)
         = Some m'.
Proof.
  unfold visitAccount. rewrite Hactive, Hreload. simpl.
  eexists. split; [reflexivity|].
  destruct (maxDrawdown_leaves (cycle v) (beginCycle d m) b Hgate Hbal Htrip)
    as (Hd & Hs).
  rewrite Hd. split; [reflexivity|]. split; [reflexivity|].
  specialize (Hs Hsave). split; [exact Hs|].
  intros passes before after. apply loop_keeps_inactive; [|exact Hs].
  rewrite nth_error_app2 by lia. now rewrite Nat.sub_diag.
Qed.

(** ** The scenarios, run *)

Lemma in_cycle_log (a : Action) (l pre entries ext : list Action) :
  In a entries -> In a (l ++ pre ++ entries ++ ext).
Proof.
  intros H. apply in_or_app. right. apply in_or_app. right.
  apply in_or_app. now left.
Qed.


(** An account blocked until the next midnight, visited in the morning. *)
Lemma C2_witness :
  blockedUntil (doc Scenario.accountBlocked) = Some Scenario.nextMidnight
  /\ Scenario.morning < Scenario.nextMidnight
  /\ monitorAccount (Scenario.calm 700 Scenario.six)
       Scenario.accountBlocked
     = Scenario.accountBlocked.
Proof.
  split; [reflexivity|]. split; [reflexivity|].
  apply (C2_blocked_account_is_skipped
           (Scenario.calm 700 Scenario.six)
           Scenario.accountBlocked
           Scenario.nextMidnight); reflexivity.
Defined.


(** The specification's case: daily limit 5, a long position entered at 100
    and marked at 94 with leverage 1, on BTC/USDT. *)
Lemma C5_witness :
  dailyDrawdownLimit Scenario.params = 5%float
  /\ tradePnLPercent Scenario.loser = (-6)%float
  /\ withinLeverage Scenario.params Scenario.loser
  /\ hitsDailyLimit Scenario.params Scenario.loser = true
  /\ MongooseMap.validKey (symbol Scenario.loser) = true
  /\ In (CloseOne "BTC/USDT" long DAILY_LIMIT_REACHED)
       (log (monitorAccount (Scenario.calm 1000 [Scenario.loser]) Scenario.fresh))
  /\ In (BlockSymbolUntil "BTC/USDT" Scenario.nextMidnight)
       (log (monitorAccount (Scenario.calm 1000 [Scenario.loser]) Scenario.fresh))
  /\ blockedUntilFor "BTC/USDT" Scenario.nextMidnight
       (doc (machineOf (checkPosition (Scenario.calm 1000 [Scenario.loser])
                          Scenario.params Scenario.loser Scenario.fresh))).
Proof.
  assert (Hreach : loopReaches (Scenario.calm 1000 [Scenario.loser])
                     Scenario.fresh [] Scenario.fresh).
  { exists 1000%float. split; [repeat split; reflexivity|reflexivity]. }
  pose proof (C5_daily_limit_closes_and_blocks_symbol
                (Scenario.calm 1000 [Scenario.loser]) Scenario.fresh
                [] Scenario.loser [] Scenario.fresh
                eq_refl Hreach eq_refl eq_refl) as H.
  cbv zeta in H.
  destruct H as (_ & Hclose & Hblock).
  destruct (Hblock eq_refl eq_refl)
    as (_ & Hentry & _ & Hstored & _ & (pre & ext & _ & Hcycle)).
  split; [reflexivity|]. split; [reflexivity|]. split; [reflexivity|].
  split; [reflexivity|]. split; [reflexivity|].
  split; [exact Hclose|].
  split; [rewrite Hcycle; apply in_cycle_log; exact Hentry|].
  exact Hstored.
Defined.

(** C5 as stated fails: a position on BRK.B/USD with the same prices is
    closed under the daily limit, but the Map refuses the key: no block is
    logged after the close order, the document stores no block and the
    cycle ends there.  And when the close order of the position on
    BTC/USDT throws, the cycle ends at that order, without a block. *)
Lemma C5_counterexample :
  withinLeverage Scenario.params Cases.dottedLoser
  /\ hitsDailyLimit Scenario.params Cases.dottedLoser = true
  /\ MongooseMap.validKey (symbol Cases.dottedLoser) = false
  /\ log (monitorAccount (Scenario.calm 1000 [Cases.dottedLoser]) Scenario.fresh)
     = [ Alert critical
           (DailyLimitHit "BRK.B/USD" 5 (-6) Scenario.nextMidnight);
         CloseOne "BRK.B/USD" long DAILY_LIMIT_REACHED ]
  /\ List.filter isSymbolBlock
       (log (monitorAccount (Scenario.calm 1000 [Cases.dottedLoser])
               Scenario.fresh))
     = []
  /\ blockedSymbols
       (doc (monitorAccount (Scenario.calm 1000 [Cases.dottedLoser])
               Scenario.fresh))
     = Some ∅
  /\ log (monitorAccount (Cases.closeFails 1000 [Scenario.loser]) Scenario.fresh)
     = [ Alert critical
           (DailyLimitHit "BTC/USDT" 5 (-6) Scenario.nextMidnight);
         CloseOne "BTC/USDT" long DAILY_LIMIT_REACHED ]
  /\ blockedSymbols
       (doc (monitorAccount (Cases.closeFails 1000 [Scenario.loser])
               Scenario.fresh))
     = Some ∅.
Proof. repeat split; vm_compute; reflexivity. Qed.

(** The specification's case: [maxOpenTrades = 3] and six positions opened
    one after the other; the three opened last are closed, newest first. *)
Lemma C6_witness :
  maxOpenTrades Scenario.params = 3
  /\ map openTime Scenario.six = [Some 1; Some 2; Some 3; Some 4; Some 5; Some 6]
  /\ map timeOf (tradesToClose Scenario.params Scenario.six) = [6; 5; 4]
  /\ closedFor MAX_TRADES_EXCEEDED
       (log (monitorAccount (Scenario.calm 1000 Scenario.six) Scenario.fresh))
     = [("DOT/USDT", long); ("ADA/USDT", long); ("XRP/USDT", long)]
  /\ map symbol
       (skipn 3 (NewestFirst.sort (getOpenPositions (Scenario.calm 1000 Scenario.six))))
     = ["SOL/USDT"; "ETH/USDT"; "BTC/USDT"].
Proof.
  assert (Hpass : passesAccountRules (Scenario.calm 1000 Scenario.six)
                    Scenario.fresh 1000%float).
  { repeat split; reflexivity. }
  assert (Hvalid : Forall validTime
                     (getOpenPositions (Scenario.calm 1000 Scenario.six))).
  { repeat constructor; eexists; reflexivity. }
  pose proof (C6_excess_trades_close_the_newest
                (Scenario.calm 1000 Scenario.six) Scenario.fresh 1000%float
                Hpass ltac:(vm_compute; discriminate) eq_refl Hvalid
                (fun _ => eq_refl)) as H.
  cbv zeta in H.
  destruct H as (_ & Hclosed & _).
  split; [reflexivity|]. split; [reflexivity|]. split; [reflexivity|].
  split; [|reflexivity].
  rewrite Hclosed. reflexivity.
Defined.

(** C6 as stated fails: of two open positions, the second with the larger
    timestamp, a number no [Date] holds, rule 2 with [maxOpenTrades = 1]
    closes the first: the comparator gives [NaN] and the sort leaves the
    input order.  With [maxOpenTrades = -1] and two positions open, two
    positions are closed, not three; and when the close orders throw, the
    cycle ends at the first of them. *)
Lemma C6_counterexample :
  maxOpenTrades Cases.oneTradeParams = 1
  /\ getOpenPositions (Scenario.calm 1000 [Cases.early; Cases.beyondDates])
     = [Cases.early; Cases.beyondDates]
  /\ timestamp Cases.early = Some 1000
  /\ timestamp Cases.beyondDates = Some 9000000000000000
  /\ openTime Cases.beyondDates = None
  /\ NewestFirst.sort [Cases.early; Cases.beyondDates]
     = [Cases.early; Cases.beyondDates]
  /\ closedFor MAX_TRADES_EXCEEDED
       (log (monitorAccount
               (Scenario.calm 1000 [Cases.early; Cases.beyondDates])
               (Cases.freshWith Cases.oneTradeParams)))
     = [("ETH/USDT", long)]
  /\ maxOpenTrades Cases.negativeTradesParams = -1
  /\ closedFor MAX_TRADES_EXCEEDED
       (log (monitorAccount
               (Scenario.calm 1000 [Scenario.flatEth; Scenario.flatBtc])
               (Cases.freshWith Cases.negativeTradesParams)))
     = [("BTC/USDT", short); ("ETH/USDT", long)]
  /\ closedFor MAX_TRADES_EXCEEDED
       (log (monitorAccount (Cases.closeFails 1000 Scenario.six)
               Scenario.fresh))
     = [("DOT/USDT", long)].
Proof. repeat split; vm_compute; reflexivity. Qed.

(** With [maxOpenTrades = 0] all six open positions are closed; with
    [maxLeverage = 0] a position with leverage 5 is closed. *)
Lemma C9_witness :
  maxOpenTrades Cases.zeroTradesParams = 0
  /\ closedFor MAX_TRADES_EXCEEDED
       (log (monitorAccount (Scenario.calm 1000 Scenario.six)
               (Cases.freshWith Cases.zeroTradesParams)))
     = [("DOT/USDT", long); ("ADA/USDT", long); ("XRP/USDT", long);
        ("SOL/USDT", long); ("ETH/USDT", long); ("BTC/USDT", long)]
  /\ maxLeverage Scenario.zeroLeverageParams = 0%float
  /\ Js.gt (Js.parseFloatOr0 (leverage Scenario.someLeverage)) 0%float = true
  /\ In (CloseOne "ADA/USDT" long LEVERAGE_EXCEEDED)
       (log (monitorAccount (Scenario.calm 1000 [Scenario.someLeverage])
               Scenario.freshZeroLeverage)).
Proof.
  assert (Hpass : passesAccountRules (Scenario.calm 1000 Scenario.six)
                    (Cases.freshWith Cases.zeroTradesParams) 1000%float).
  { repeat split; reflexivity. }
  assert (Hreach : loopReaches (Scenario.calm 1000 [Scenario.someLeverage])
                     Scenario.freshZeroLeverage [] Scenario.freshZeroLeverage).
  { exists 1000%float. split; [repeat split; reflexivity|reflexivity]. }
  pose proof (C9_rules_at_a_limit_of_zero
                (Scenario.calm 1000 Scenario.six)
                (Cases.freshWith Cases.zeroTradesParams)) as H.
  cbv zeta in H. destruct H as (Htrades & _).
  destruct (Htrades eq_refl 1000%float Hpass ltac:(discriminate)
              (fun _ => eq_refl)) as (closed & Hclosed & _ & Hsorted).
  rewrite (Hsorted ltac:(repeat constructor; eexists; reflexivity)) in Hclosed.
  pose proof (C9_rules_at_a_limit_of_zero
                (Scenario.calm 1000 [Scenario.someLeverage])
                Scenario.freshZeroLeverage) as H.
  cbv zeta in H. destruct H as (_ & Hleverage & _).
  destruct (Hleverage eq_refl [] Scenario.someLeverage []
              Scenario.freshZeroLeverage eq_refl Hreach) as (Hpositive & _).
  split; [reflexivity|]. split; [rewrite Hclosed; reflexivity|].
  split; [reflexivity|]. split; [reflexivity|].
  apply Hpositive. reflexivity.
Defined.

(** C9 as stated fails.  With [maxLeverage = 0], the open positions whose
    leverage is absent or [0] are not closed; only the one with leverage 5
    is, and no other close order is sent in the cycle.  With
    [dailyDrawdownLimit = 0], a position in profit (P&L +5%) is not closed.
    With [maxDrawdownLimit = 0] and the balance above the baseline (1100 on
    1000), rule 1 does not trip: no close-all, no block, the account stays
    active. *)
Lemma C9_counterexample :
  maxLeverage (riskParams (doc Scenario.freshZeroLeverage)) = 0%float
  /\ getOpenPositions
       (Scenario.calm 1000
          [Scenario.noLeverage; Scenario.zeroLeverage; Scenario.someLeverage])
     = [Scenario.noLeverage; Scenario.zeroLeverage; Scenario.someLeverage]
  /\ leverage Scenario.noLeverage = None
  /\ leverage Scenario.zeroLeverage = Some 0%float
  /\ closedFor LEVERAGE_EXCEEDED
       (log (monitorAccount
               (Scenario.calm 1000
                  [Scenario.noLeverage; Scenario.zeroLeverage; Scenario.someLeverage])
               Scenario.freshZeroLeverage))
     = [("ADA/USDT", long)]
  /\ List.filter perPosition
       (log (monitorAccount
               (Scenario.calm 1000 [Scenario.noLeverage; Scenario.zeroLeverage])
               Scenario.freshZeroLeverage))
     = []
  /\ dailyDrawdownLimit Cases.zeroDailyParams = 0%float
  /\ tradePnLPercent Scenario.someLeverage = 5%float
  /\ List.filter perPosition
       (log (monitorAccount (Scenario.calm 1000 [Scenario.someLeverage])
               (Cases.freshWith Cases.zeroDailyParams)))
     = []
  /\ maxDrawdownLimit Cases.zeroDrawdownParams = 0%float
  /\ totalDrawdownPercentOf 1000 1100 = 10%float
  /\ List.filter isCloseAll
       (log (monitorAccount (Scenario.calm 1100 Scenario.six)
               (Cases.freshWith Cases.zeroDrawdownParams)))
     = []
  /\ blockedUntil
       (doc (monitorAccount (Scenario.calm 1100 Scenario.six)
               (Cases.freshWith Cases.zeroDrawdownParams)))
     = None
  /\ stateIsActive
       (monitorAccount (Scenario.calm 1100 Scenario.six)
          (Cases.freshWith Cases.zeroDrawdownParams))
     = true.
Proof. repeat split; vm_compute; reflexivity. Qed.

(** C7 as stated fails: for a long position entered at 100 with leverage 1,
    no reported percent and no mark price, the formula of the claim gives
    -100, and the loop uses 0. *)
Lemma C7_counterexample :
  percentage Scenario.unmarked = None
  /\ side Scenario.unmarked = long
  /\ Js.parseFloatOr0 (entryPrice Scenario.unmarked) = 100%float
  /\ Js.parseFloatOr2 (markPrice Scenario.unmarked) (infoMarkPrice Scenario.unmarked)
     = 0%float
  /\ Js.parseFloatOr0 (leverage Scenario.unmarked) = 1%float
  /\ specTradePnLPercent Scenario.unmarked = (-100)%float
  /\ tradePnLPercent Scenario.unmarked = 0%float
  /\ PrimFloat.eqb (tradePnLPercent Scenario.unmarked)
       (specTradePnLPercent Scenario.unmarked) = false.
Proof. repeat split; vm_compute; reflexivity. Qed.

(** Three positions in one loop: BTC/USDT trips the daily limit in the
    morning, ETH/USDT is flat, and a later flat BTC/USDT position, checked
    two seconds after, is closed as blocked. *)
Lemma C10_witness :
  symbol Scenario.loser = symbol Scenario.flatBtc
  /\ hitsDailyLimit Scenario.params Scenario.loser = true
  /\ hitsDailyLimit Scenario.params Scenario.flatBtc = false
  /\ Scenario.morning + 2000 < Scenario.nextMidnight
  /\ closedFor SYMBOL_BLOCKED
       (log (machineOf
               (timedLoop (Scenario.calm 1000 []) Scenario.params
                  [ (Scenario.loser, readsAt Scenario.morning);
                    (Scenario.flatEth, readsAt (Scenario.morning + 1000));
                    (Scenario.flatBtc, readsAt (Scenario.morning + 2000)) ]
                  Scenario.fresh)))
     = [("BTC/USDT", short)]
  /\ exists until,
       symbolBlock
         (doc (machineOf
                 (timedLoop (Scenario.calm 1000 []) Scenario.params
                    [ (Scenario.loser, readsAt Scenario.morning);
                      (Scenario.flatEth, readsAt (Scenario.morning + 1000)) ]
                    Scenario.fresh)))
         "BTC/USDT"
       = Some until
       /\ Scenario.nextMidnight <= until.
Proof.
  pose proof (C10_block_applies_within_the_cycle
                (Scenario.calm 1000 []) Scenario.params Scenario.fresh
                [] Scenario.loser (readsAt Scenario.morning)
                [(Scenario.flatEth, readsAt (Scenario.morning + 1000))]
                Scenario.flatBtc (readsAt (Scenario.morning + 2000))
                (machineOf
                   (timedLoop (Scenario.calm 1000 []) Scenario.params
                      [ (Scenario.loser, readsAt Scenario.morning);
                        (Scenario.flatEth, readsAt (Scenario.morning + 1000)) ]
                      Scenario.fresh))
                ltac:(vm_compute; reflexivity) eq_refl eq_refl eq_refl
                eq_refl eq_refl
                ltac:(repeat constructor; vm_compute; discriminate)
                ltac:(vm_compute; reflexivity)
                ltac:(vm_compute; reflexivity)) as H.
  cbv zeta in H. destruct H as (_ & until & pre & Hstored & Hlate & _).
  split; [reflexivity|]. split; [reflexivity|]. split; [reflexivity|].
  split; [reflexivity|]. split; [vm_compute; reflexivity|].
  exists until. split; [exact Hstored|exact Hlate].
Defined.

(** C10 as stated fails.  When the later position on the blocked symbol is
    checked after the midnight that ends the block, the block has expired:
    the entry is removed and the position is not closed, in the cycle that
    made the block.  And on a symbol the Map refuses, the earlier position
    is closed under the daily limit, no block is written and the cycle
    ends there: the later position is not examined. *)
Lemma C10_counterexample :
  symbol Scenario.loser = symbol Scenario.flatBtc
  /\ withinLeverage Scenario.params Scenario.flatBtc
  /\ hitsDailyLimit Scenario.params Scenario.flatBtc = false
  /\ List.filter isSymbolBlock
       (log (machineOf
               (timedLoop (Scenario.calm 1000 []) Scenario.params
                  [ (Scenario.loser, readsAt Scenario.morning);
                    (Scenario.flatBtc, Cases.pastMidnight) ]
                  Scenario.fresh)))
     = [BlockSymbolUntil "BTC/USDT" Scenario.nextMidnight]
  /\ closedFor SYMBOL_BLOCKED
       (log (machineOf
               (timedLoop (Scenario.calm 1000 []) Scenario.params
                  [ (Scenario.loser, readsAt Scenario.morning);
                    (Scenario.flatBtc, Cases.pastMidnight) ]
                  Scenario.fresh)))
     = []
  /\ symbolBlock
       (doc (machineOf
               (timedLoop (Scenario.calm 1000 []) Scenario.params
                  [ (Scenario.loser, readsAt Scenario.morning);
                    (Scenario.flatBtc, Cases.pastMidnight) ]
                  Scenario.fresh)))
       "BTC/USDT"
     = None
  /\ symbol Cases.dottedLoser = symbol Cases.dottedFlat
  /\ hitsDailyLimit Scenario.params Cases.dottedLoser = true
  /\ hitsDailyLimit Scenario.params Cases.dottedFlat = false
  /\ closedFor DAILY_LIMIT_REACHED
       (log (monitorAccount
               (Scenario.calm 1000 [Cases.dottedLoser; Cases.dottedFlat])
               Scenario.fresh))
     = [("BRK.B/USD", long)]
  /\ closedFor SYMBOL_BLOCKED
       (log (monitorAccount
               (Scenario.calm 1000 [Cases.dottedLoser; Cases.dottedFlat])
               Scenario.fresh))
     = [].
Proof. repeat split; vm_compute; reflexivity. Qed.

(** The drawdown of the morning deactivates the account; a pass of the loop
    an hour after the midnight that ends the block, with the balance
    restored, leaves it as it was: the account is not evaluated. *)
Lemma C3_witness :
  exists m',
    visitAccount
      (Scenario.visit (doc Scenario.fresh) (Scenario.calm 700 Scenario.six))
      Scenario.fresh = Some m'
    /\ blockedUntil (doc m') = Some Scenario.nextMidnight
    /\ Scenario.nextMidnight
       <= now (cycle (Scenario.dayAfter (doc Scenario.fresh) 0))
    /\ nth_error
         (monitoringLoop
            [Scenario.dayAfter (doc Scenario.fresh);
             Scenario.dayAfter (doc Scenario.fresh)] [m']) 0
       = Some m'.
Proof.
  destruct (C3_account_blocked_by_drawdown_is_never_evaluated_again
              (Scenario.visit (doc Scenario.fresh) (Scenario.calm 700 Scenario.six))
              Scenario.fresh (doc Scenario.fresh) 700%float
              eq_refl eq_refl eq_refl eq_refl eq_refl eq_refl)
    as (m' & Hvisit & Hblocked & _ & _ & Hnever).
  exists m'. split; [exact Hvisit|]. split; [exact Hblocked|].
  split; [vm_compute; discriminate|].
  exact (Hnever [Scenario.dayAfter (doc Scenario.fresh);
                 Scenario.dayAfter (doc Scenario.fresh)] [] []).
Defined.

(** * Further properties of the code *)

(** ** Reads of the blocking state are local and repeatable *)

Lemma symbolBlock_setBlockedSymbols (mp : gmap string Z) (d : AccountDoc)
  (sym : string) :
  symbolBlock (setBlockedSymbols (Some mp) d) sym = mp !! sym.
Proof. reflexivity. Qed.

(** X2. A read of the block of one symbol leaves the blocks of the other
    symbols, the account block and the rest of the document as they are;
    read again at the same instant, it gives the same answer and changes
    nothing more; and once a symbol reads as not blocked, it reads so at
    every later instant. *)
Theorem X2_isSymbolBlocked_is_local_and_repeatable
  (now : Z) (d : AccountDoc) (sym : string) :
  (forall other : string,
     other <> sym ->
     symbolBlock (snd (isSymbolBlocked now d sym)) other = symbolBlock d other)
  /\ sameOutsideSymbols d (snd (isSymbolBlocked now d sym))
  /\ isSymbolBlocked now (snd (isSymbolBlocked now d sym)) sym
     = (fst (isSymbolBlocked now d sym), snd (isSymbolBlocked now d sym))
  /\ (forall later : Z,
        now <= later ->
        fst (isSymbolBlocked now d sym) = false ->
        fst (isSymbolBlocked later d sym) = false).
Proof.
  unfold isSymbolBlocked, symbolBlock, sameOutsideSymbols.
  destruct (blockedSymbols d) as [mp|] eqn:Hm.
  - destruct (mp !! sym) as [u|] eqn:Hu.
    + destruct (now <? u) eqn:Hlt; simpl.
      * rewrite Hm, Hu, Hlt. repeat split; try reflexivity; discriminate.
      * split; [intros other Hne; now rewrite lookup_delete_ne|].
        split; [repeat split; reflexivity|].
        split; [now rewrite lookup_delete_eq|].
        intros later Hlater _. apply Z.ltb_ge in Hlt.
        destruct (later <? u) eqn:Hl; [apply Z.ltb_lt in Hl; lia|reflexivity].
    + simpl. rewrite Hm, Hu. repeat split; reflexivity.
  - simpl. rewrite Hm. repeat split; reflexivity.
Qed.

(** X3. A read of the account block leaves the symbol blocks and the rest of
    the document as they are; read again at the same instant, it gives the
    same answer and changes nothing more; and once the account reads as not
    blocked, it reads so at every later instant. *)
Theorem X3_isAccountBlocked_is_local_and_repeatable (now : Z) (d : AccountDoc) :
  blockedSymbols (snd (isAccountBlocked now d)) = blockedSymbols d
  /\ riskParams (snd (isAccountBlocked now d)) = riskParams d
  /\ isActive (snd (isAccountBlocked now d)) = isActive d
  /\ initialBalance (snd (isAccountBlocked now d)) = initialBalance d
  /\ lastCheck (snd (isAccountBlocked now d)) = lastCheck d
  /\ isAccountBlocked now (snd (isAccountBlocked now d))
     = (fst (isAccountBlocked now d), snd (isAccountBlocked now d))
  /\ (forall later : Z,
        now <= later ->
        fst (isAccountBlocked now d) = false ->
        fst (isAccountBlocked later d) = false).
Proof.
  unfold isAccountBlocked.
  destruct (blockedUntil d) as [u|] eqn:Hu.
  - destruct (now <? u) eqn:Hlt; simpl.
    + rewrite Hu, Hlt. repeat split; try reflexivity; discriminate.
    + repeat split; try reflexivity.
      intros later Hlater _. apply Z.ltb_ge in Hlt.
      destruct (later <? u) eqn:Hl; [apply Z.ltb_lt in Hl; lia|reflexivity].
  - simpl. rewrite Hu. repeat split; reflexivity.
Qed.

(** ** closeAllPositions *)





(** ** initializeAccount *)

Lemma initialized_state (i : InitInputs) (d : AccountDoc) (m : Machine) :
  fst (initializeAccount i d) = Some m ->
  stateIsActive m = true /\ log m = []
  /\ stateInitialBalance m = initialBalance (doc m)
  /\ m = newAccountState (doc m).
Proof.
  unfold initializeAccount.
  destruct (clientCreated i); simpl; [|discriminate].
  destruct (initBalance i) as [b|]; simpl; [|discriminate].
  destruct (Js.falsy (initialBalance d)); simpl.
  - destruct (initSaveThrows i); simpl; [discriminate|].
    intros H. inversion H; subst m. repeat split.
  - intros H. inversion H; subst m. repeat split.
Qed.

(** X5. [initializeAccount] returns an account state exactly when the
    exchange client is created, the balance is fetched and, if the document
    has no baseline yet, the save returns; otherwise it returns null and its
    last event is the failure alert.  A state it returns is active, has an
    empty log and carries the document's baseline: the document's own
    [initialBalance] when it is set (whatever balance was fetched, and
    nothing is saved), and the fetched balance, saved with the document,
    when it is not.  Nothing else of the document changes. *)
Theorem X5_initializeAccount_sets_the_baseline_once
  (i : InitInputs) (d : AccountDoc) :
  ((exists m, fst (initializeAccount i d) = Some m) <-> canInitialize i d)
  /\ (fst (initializeAccount i d) = None ->
      exists before, snd (initializeAccount i d) = before ++ [InitFailedAlert]
                     /\ ~ In InitFailedAlert before)
  /\ (forall m,
        fst (initializeAccount i d) = Some m ->
        stateIsActive m = true /\ log m = []
        /\ stateInitialBalance m = initialBalance (doc m)
        /\ riskParams (doc m) = riskParams d /\ isActive (doc m) = isActive d
        /\ blockedSymbols (doc m) = blockedSymbols d
        /\ blockedUntil (doc m) = blockedUntil d
        /\ lastCheck (doc m) = lastCheck d
        /\ ~ In InitFailedAlert (snd (initializeAccount i d))
        /\ (Js.falsy (initialBalance d) = false ->
            doc m = d /\ snd (initializeAccount i d) = [])
        /\ (Js.falsy (initialBalance d) = true ->
            initBalance i = Some (initialBalance (doc m))
            /\ snd (initializeAccount i d) = [InitSave (doc m)])).
Proof.
  unfold initializeAccount, canInitialize.
  destruct (clientCreated i); simpl.
  2:{ split; [|split].
      - split; [intros [m H]; discriminate|intros (H & _); discriminate].
      - intros _. exists []. split; [reflexivity|]. intros [].
      - intros m H. discriminate. }
  destruct (initBalance i) as [b|]; simpl.
  2:{ split; [|split].
      - split; [intros [m H]; discriminate|intros (_ & [b H] & _); discriminate].
      - intros _. exists []. split; [reflexivity|]. intros [].
      - intros m H. discriminate. }
  destruct (Js.falsy (initialBalance d)) eqn:Hf; simpl.
  - destruct (initSaveThrows i); simpl.
    + split; [|split].
      * split; [intros [m H]; discriminate|].
        intros (_ & _ & H). specialize (H eq_refl). discriminate.
      * intros _. exists [InitSave (setInitialBalance b d)].
        split; [reflexivity|]. intros [H|[]]. discriminate.
      * intros m H. discriminate.
    + split; [|split].
      * split; [intros _; repeat split; eauto|eauto].
      * discriminate.
      * intros m H. inversion H; subst m. simpl.
        repeat split; try reflexivity.
        -- intros [H1|[]]. discriminate.
        -- discriminate.
        -- discriminate.
  - split; [|split].
    + split; [intros _; repeat split; eauto; discriminate|eauto].
    + discriminate.
    + intros m H. inversion H; subst m. simpl.
      repeat split; try reflexivity; try discriminate.
      intros [].
Qed.

(** X6. The baseline survives a restart: when an initialization returned a
    state whose baseline is a non-zero number, another initialization of
    the document it left, whatever balance it fetches, returns that same
    state and saves nothing.  A baseline of [0], as a zero first balance
    leaves it, does not: the next initialization that goes through replaces
    it by the balance it fetches. *)
Theorem X6_baseline_survives_restart
  (i i' : InitInputs) (d : AccountDoc) (m : Machine) (b' : float)
  (Hfirst : fst (initializeAccount i d) = Some m)
  (Hclient : clientCreated i' = true)
  (Hbalance : initBalance i' = Some b') :
  (Js.falsy (stateInitialBalance m) = false ->
   initializeAccount i' (doc m) = (Some m, []))
  /\ (Js.falsy (stateInitialBalance m) = true ->
      initSaveThrows i' = false ->
      exists m', fst (initializeAccount i' (doc m)) = Some m'
                 /\ stateInitialBalance m' = b').
Proof.
  destruct (initialized_state i d m Hfirst) as (Hact & Hlog & Hbase & Hshape).
  unfold initializeAccount. rewrite Hclient, Hbalance. simpl.
  rewrite <- Hbase. split.
  - intros Hf. rewrite Hf. rewrite <- Hshape. reflexivity.
  - intros Hf Hsave. rewrite Hf, Hsave. eexists. split; reflexivity.
Qed.

(** ** startMonitoring, up to the loop *)

Lemma initialized_from (i : InitInputs) (d : AccountDoc) (m : Machine) :
  fst (initializeAccount i d) = Some m ->
  isActive (doc m) = isActive d
  /\ (doc m = d \/ exists b, doc m = setInitialBalance b d).
Proof.
  unfold initializeAccount.
  destruct (clientCreated i); simpl; [|discriminate].
  destruct (initBalance i) as [b|]; simpl; [|discriminate].
  destruct (Js.falsy (initialBalance d)); simpl.
  - destruct (initSaveThrows i); simpl; [discriminate|].
    intros H. inversion H; subst m. simpl. split; [reflexivity|]. right. eauto.
  - intros H. inversion H; subst m. simpl. auto.
Qed.

Lemma initializeAll_states (inits : nat -> InitInputs) (accounts : list AccountDoc) :
  forall k m,
    In m (initializeAll inits k accounts) ->
    exists d, In d accounts
              /\ stateIsActive m = true /\ log m = []
              /\ stateInitialBalance m = initialBalance (doc m)
              /\ isActive (doc m) = isActive d
              /\ (doc m = d \/ exists b, doc m = setInitialBalance b d).
Proof.
  induction accounts as [|d accounts IH]; intros k m Hin; simpl in Hin.
  - contradiction.
  - destruct (fst (initializeAccount (inits k) d)) as [state|] eqn:E.
    + destruct Hin as [->|Hin].
      * destruct (initialized_state _ _ _ E) as (H1 & H2 & H3 & _).
        destruct (initialized_from _ _ _ E) as (H4 & H5).
        exists d. simpl. auto 10.
      * destruct (IH _ _ Hin) as (d' & Hd' & H). exists d'. simpl. auto.
    + destruct (IH _ _ Hin) as (d' & Hd' & H). exists d'. simpl. auto.
Qed.

Lemma initializeAll_length (inits : nat -> InitInputs) (accounts : list AccountDoc) :
  forall k, (length (initializeAll inits k accounts) <= length accounts)%nat.
Proof.
  induction accounts as [|d accounts IH]; intros k; simpl; [lia|].
  destruct (fst (initializeAccount (inits k) d)); simpl;
    specialize (IH (S k)); lia.
Qed.

(** X7. When [startMonitoring] reaches its loop, the account states it hands
    to the loop are not empty, no more than the stored accounts with
    [isActive: true], and each is active, with an empty log, the baseline
    of its document, and the document of a stored account that is active
    (as stored, or with its baseline just set): a stored account that is
    not active, an account deactivated by the max-drawdown rule among them,
    is never monitored.  Without a database connection the loop is not
    reached. *)
Theorem X7_startMonitoring_monitors_active_accounts_only
  (s : Startup) (states : list Machine)
  (Hstart : startMonitoring s = Some states) :
  connected s = true
  /\ states <> []
  /\ (length states <= length (loadActiveAccounts (stored s)))%nat
  /\ Forall freshState states
  /\ (forall m, In m states ->
        exists ds d,
          stored s = Some ds /\ In d ds /\ isActive d = true
          /\ (doc m = d \/ exists b, doc m = setInitialBalance b d)).
Proof.
  unfold startMonitoring in Hstart.
  destruct (connected s); cbn [negb] in Hstart; [|discriminate Hstart].
  split; [reflexivity|].
  destruct (loadActiveAccounts (stored s)) as [|a accounts] eqn:Hload;
    [discriminate Hstart|].
  cbv beta match in Hstart.
  destruct (initializeAll (inits s) 0 (a :: accounts)) as [|m0 ms] eqn:Hinit;
    [discriminate Hstart|].
  inversion Hstart; subst states. clear Hstart.
  split; [discriminate|].
  split; [rewrite <- Hinit; apply initializeAll_length|].
  assert (Hactive : forall d, In d (a :: accounts) ->
            exists ds, stored s = Some ds /\ In d ds /\ isActive d = true).
  { intros d Hd. rewrite <- Hload in Hd. unfold loadActiveAccounts in Hd.
    destruct (stored s) as [ds|]; [|contradiction].
    apply filter_In in Hd. destruct Hd as (Hd & Ha). exists ds. auto. }
  split.
  - apply List.Forall_forall. intros m Hm. rewrite <- Hinit in Hm.
    destruct (initializeAll_states _ _ _ _ Hm)
      as (d & Hd & H1 & H2 & H3 & H4 & _).
    destruct (Hactive d Hd) as (ds & _ & _ & Ha).
    unfold freshState. rewrite H4, Ha. auto.
  - intros m Hm. rewrite <- Hinit in Hm.
    destruct (initializeAll_states _ _ _ _ Hm)
      as (d & Hd & _ & _ & _ & _ & Hdoc).
    destruct (Hactive d Hd) as (ds & Hs & Hin & Ha).
    exists ds, d. auto.
Qed.

(** ** decryptApiKey: the parts of the buffer *)

(** X8. The four parts [decryptApiKey] reads off the decoded buffer, put
    back in order, are the buffer.  From a buffer of at least 96 bytes they
    are a salt of 64 bytes, an initialization vector of 16, a tag of 16 and
    the rest as encrypted data; a shorter buffer leaves no encrypted data
    and a tag of less than 16 bytes. *)
Theorem X8_envelope_parts (buffer : list Byte.byte) :
  env_salt (envelopeOf buffer) ++ env_iv (envelopeOf buffer)
    ++ env_tag (envelopeOf buffer) ++ env_encrypted (envelopeOf buffer)
  = buffer
  /\ ((96 <= length buffer)%nat ->
      length (env_salt (envelopeOf buffer)) = 64%nat
      /\ length (env_iv (envelopeOf buffer)) = 16%nat
      /\ length (env_tag (envelopeOf buffer)) = 16%nat
      /\ length (env_encrypted (envelopeOf buffer)) = (length buffer - 96)%nat)
  /\ ((length buffer < 96)%nat ->
      env_encrypted (envelopeOf buffer) = []
      /\ (length (env_tag (envelopeOf buffer)) < 16)%nat).
Proof.
  unfold envelopeOf, subarray. cbn [env_salt env_iv env_tag env_encrypted].
  change (64 - 0)%nat with 64%nat. change (80 - 64)%nat with 16%nat.
  change (96 - 80)%nat with 16%nat. change (skipn 0 buffer) with buffer.
  split; [|split].
  - replace (skipn 96 buffer) with (skipn 16 (skipn 80 buffer))
      by (rewrite skipn_skipn; reflexivity).
    rewrite (firstn_skipn 16 (skipn 80 buffer)).
    replace (skipn 80 buffer) with (skipn 16 (skipn 64 buffer))
      by (rewrite skipn_skipn; reflexivity).
    rewrite (firstn_skipn 16 (skipn 64 buffer)).
    apply firstn_skipn.
  - intros Hlen. rewrite !length_firstn, !length_skipn. lia.
  - intros Hlen. split.
    + apply skipn_all2. lia.
    + rewrite length_firstn, length_skipn. lia.
Qed.

(** ** What a cycle appends: the steps *)

Section AppendsOnly.

Variable P : Action -> Prop.

Lemma appendsOnly_ret {A} (a : A) : appendsOnly P (ret a).
Proof. intros m. exists []. simpl. rewrite app_nil_r. auto. Qed.

Lemma appendsOnly_throw {A} : appendsOnly P (@throw A).
Proof. intros m. exists []. simpl. rewrite app_nil_r. auto. Qed.

Lemma appendsOnly_bind {A B} (s : Step A) (k : A -> Step B) :
  appendsOnly P s -> (forall a, appendsOnly P (k a)) -> appendsOnly P (bind s k).
Proof.
  intros Hs Hk m. unfold bind. specialize (Hs m).
  destruct (s m) as [a m'|m']; simpl in *.
  - destruct Hs as (e1 & E1 & F1). destruct (Hk a m') as (e2 & E2 & F2).
    exists (e1 ++ e2). split.
    + rewrite E2, E1. now rewrite app_assoc.
    + apply Forall_app. auto.
  - exact Hs.
Qed.

Lemma appendsOnly_emit (a : Action) : P a -> appendsOnly P (emit a).
Proof. intros Ha m. exists [a]. split; [reflexivity|]. auto. Qed.

Lemma appendsOnly_getDoc : appendsOnly P getDoc.
Proof. intros m. exists []. simpl. rewrite app_nil_r. auto. Qed.

Lemma appendsOnly_getInitialBalance : appendsOnly P getInitialBalance.
Proof. intros m. exists []. simpl. rewrite app_nil_r. auto. Qed.

Lemma appendsOnly_getAccountBalance c : appendsOnly P (getAccountBalance c).
Proof.
  intros m. exists []. unfold getAccountBalance.
  destruct (fetchedBalance c); simpl; rewrite app_nil_r; auto.
Qed.

Lemma appendsOnly_modifyDoc f : appendsOnly P (modifyDoc f).
Proof. intros m. exists []. simpl. rewrite app_nil_r. auto. Qed.

Lemma appendsOnly_setStateIsActive b : appendsOnly P (setStateIsActive b).
Proof. intros m. exists []. simpl. rewrite app_nil_r. auto. Qed.

Lemma appendsOnly_readDoc {A} (f : AccountDoc -> A * AccountDoc) :
  appendsOnly P (readDoc f).
Proof. intros m. exists []. simpl. rewrite app_nil_r. auto. Qed.

Lemma appendsOnly_closePosition c sym sd r :
  P (CloseOne sym sd r) -> appendsOnly P (closePosition c sym sd r).
Proof.
  intros Ha m. exists [CloseOne sym sd r]. unfold closePosition.
  destruct (closeThrows c (closeCalls m)); simpl; auto.
Qed.

Lemma appendsOnly_save c :
  (forall d, P (SaveAccount d)) -> appendsOnly P (save c).
Proof.
  intros Ha m. exists [SaveAccount (doc m)]. unfold save.
  destruct (saveThrows c (saveCalls m)); simpl; auto.
Qed.

Lemma appendsOnly_forEach {A} (body : A -> Step unit) (l : list A) :
  (forall x, In x l -> appendsOnly P (body x)) -> appendsOnly P (forEach body l).
Proof.
  induction l as [|x l IH]; intros Hb; simpl.
  - apply appendsOnly_ret.
  - apply appendsOnly_bind.
    + apply Hb. now left.
    + intros _. apply IH. intros y Hy. apply Hb. now right.
Qed.

End AppendsOnly.

Lemma In_firstn {A} (n : nat) (l : list A) (x : A) :
  In x (firstn n l) -> In x l.
Proof.
  intros H. rewrite <- (firstn_skipn n l). apply in_or_app. now left.
Qed.

Lemma tradesToClose_open (rp : RiskParams) (positions : list Position)
  (x : Position) :
  In x (tradesToClose rp positions) -> In x positions.
Proof.
  unfold tradesToClose, slice0. intros H.
  apply (Permutation_in x (sort_perm positions)).
  destruct (_ <? 0); apply In_firstn in H; exact H.
Qed.

(** The structure of a cycle, with what is left to show of each entry. *)
Ltac appendsOnly_tac :=
  repeat first
    [ apply appendsOnly_bind; [|intros ?]
    | apply appendsOnly_ret
    | apply appendsOnly_throw
    | apply appendsOnly_getDoc
    | apply appendsOnly_getInitialBalance
    | apply appendsOnly_getAccountBalance
    | apply appendsOnly_modifyDoc
    | apply appendsOnly_setStateIsActive
    | apply appendsOnly_readDoc
    | apply appendsOnly_save; [intros ?]
    | apply appendsOnly_emit
    | apply appendsOnly_closePosition
    | match goal with
      | |- appendsOnly _ (if ?b then _ else _) => destruct b eqn:?
      | |- appendsOnly _ (let _ := _ in _) => cbv zeta
      end ].


Ltac cycleEntry_leaf :=
  simpl;
  repeat match goal with
         | |- _ /\ _ => split
         | |- exists p : Position, _ => eexists
         | |- closable _ _ _ _ => split
         end;
  try reflexivity; try eassumption; try exact I;
  try (unfold testsOf, withinLeverage, hitsDailyLimit; split; eassumption).

Lemma checkPosition_entries c rp p :
  In p (getOpenPositions c) ->
  appendsOnly (cycleEntry c rp) (checkPosition c rp p).
Proof.
  intros Hin. unfold checkPosition, checkPositionAt, blockSymbol.
  appendsOnly_tac; cycleEntry_leaf.
Qed.

Lemma closeExcessTrade_entries c rp x :
  maxOpenTrades rp < Z.of_nat (length (getOpenPositions c)) ->
  In x (tradesToClose rp (getOpenPositions c)) ->
  appendsOnly (cycleEntry c rp) (closeExcessTrade c x).
Proof.
  intros Hmany Hin. pose proof (tradesToClose_open _ _ _ Hin) as Hopen.
  unfold closeExcessTrade.
  appendsOnly_tac; simpl; exists x; repeat split; auto.
Qed.

Lemma monitorBody_entries c m :
  exists ext,
    log (monitorAccount c m) = log m ++ ext
    /\ Forall (cycleEntry c (riskParams (doc m))) ext.
Proof.
  unfold monitorAccount.
  change (monitorBody c m) with
    ((blocked <- readDoc (isAccountBlocked (now c)) ;;
      if (blocked : bool) then ret tt
      else
        currentBalance <- getAccountBalance c ;;
        initial <- getInitialBalance ;;
        if Js.le (totalDrawdownPercentOf initial currentBalance)
             (- PrimFloat.abs (maxDrawdownLimit (riskParams (doc m))))%float
        then maxDrawdown c (riskParams (doc m))
               (totalDrawdownPercentOf initial currentBalance)
        else
          maxOpenTradesRule c (riskParams (doc m)) (getOpenPositions c) ;;
          forEach (checkPosition c (riskParams (doc m))) (getOpenPositions c) ;;
          closing c currentBalance (currentBalance - initial)%float
            (totalDrawdownPercentOf initial currentBalance)
            (getOpenPositions c))%step m).
  generalize (riskParams (doc m)). intros rp.
  match goal with |- exists ext, log (machineOf (?s m)) = _ /\ _ =>
    cut (appendsOnly (cycleEntry c rp) s); [intros H; apply H|] end.
  unfold maxDrawdown, blockAccount, maxOpenTradesRule, closing.
  appendsOnly_tac;
    try (apply appendsOnly_forEach; intros x Hx;
         first [ apply checkPosition_entries; exact Hx
               | apply closeExcessTrade_entries;
                 [rewrite Z.gtb_ltb in *; apply Z.ltb_lt; assumption|exact Hx] ]);
    cycleEntry_leaf.
  all: rewrite Z.gtb_ltb in *; apply Z.ltb_lt; assumption.
Qed.

(** ** What a cycle never appends *)

(** X11. Every block a cycle sets, on the account or on a symbol, ends at
    [getMidnightTonight] of the cycle's instant, the announcements of a
    block carry that same end, and a close-all is always for
    [MAX_DRAWDOWN].  A symbol is blocked only if an open position on it,
    within the leverage limit, has its P&L at or below the daily limit. *)
Theorem X11_blocks_end_at_midnight_and_follow_a_daily_limit
  (c : Cycle) (m : Machine) :
  exists ext,
    log (monitorAccount c m) = log m ++ ext
    /\ Forall (stampedByCycle c) ext
    /\ (forall r, In (CloseAll r) ext -> r = MAX_DRAWDOWN)
    /\ (forall sym until,
          In (BlockSymbolUntil sym until) ext ->
          until = getMidnightTonight (tz c) (now c)
          /\ exists p,
               In p (getOpenPositions c) /\ symbol p = sym
               /\ withinLeverage (riskParams (doc m)) p
               /\ hitsDailyLimit (riskParams (doc m)) p = true).
Proof.
  destruct (monitorBody_entries c m) as (ext & Hlog & Hall).
  exists ext. split; [exact Hlog|]. split; [|split].
  - eapply List.Forall_impl; [|exact Hall].
    intros a Ha. unfold stampedByCycle.
    destruct a as [lvl topic| | | | |t| |]; simpl in *; auto.
    + destruct topic; simpl; auto;
        repeat match goal with H : _ /\ _ |- _ => destruct H end; auto.
    + destruct Ha as (H & _). exact H.
    + destruct Ha as (p & _ & _ & _ & _ & H). exact H.
  - intros r Hin. rewrite List.Forall_forall in Hall. exact (Hall _ Hin).
  - intros sym until Hin. rewrite List.Forall_forall in Hall.
    destruct (Hall _ Hin) as (Hu & p & (Ho & Hl & Hd) & Hs).
    split; [exact Hu|]. exists p. auto.
Qed.

(** ** What a cycle keeps: the steps *)

Section Keeps.

Variable I : Machine -> Prop.
Hypothesis I_logged : forall a m, I m -> I (logged a m).
Hypothesis I_countClose : forall m, I m -> I (countClose m).
Hypothesis I_countSave : forall m, I m -> I (countSave m).

Lemma keeps_ret {A} (a : A) : keeps I (ret a).
Proof. intros m H. exact H. Qed.

Lemma keeps_throw {A} : keeps I (@throw A).
Proof. intros m H. exact H. Qed.

Lemma keeps_bind {A B} (s : Step A) (k : A -> Step B) :
  keeps I s -> (forall a, keeps I (k a)) -> keeps I (bind s k).
Proof.
  intros Hs Hk m Hm. unfold bind. specialize (Hs m Hm).
  destruct (s m) as [a m'|m']; simpl in *; [now apply Hk|exact Hs].
Qed.

Lemma keeps_emit (a : Action) : keeps I (emit a).
Proof. intros m H. simpl. now apply I_logged. Qed.

Lemma keeps_getDoc : keeps I getDoc.
Proof. intros m H. exact H. Qed.

Lemma keeps_getInitialBalance : keeps I getInitialBalance.
Proof. intros m H. exact H. Qed.

Lemma keeps_getAccountBalance c : keeps I (getAccountBalance c).
Proof. intros m H. unfold getAccountBalance. now destruct (fetchedBalance c). Qed.

Lemma keeps_closePosition c sym sd r : keeps I (closePosition c sym sd r).
Proof.
  intros m H. unfold closePosition.
  destruct (closeThrows c (closeCalls m)); simpl; auto.
Qed.

Lemma keeps_save c : keeps I (save c).
Proof.
  intros m H. unfold save.
  destruct (saveThrows c (saveCalls m)); simpl; auto.
Qed.

Lemma keeps_modifyDoc f :
  (forall m, I m -> I (withDoc (f (doc m)) m)) -> keeps I (modifyDoc f).
Proof. intros Hf m H. simpl. now apply Hf. Qed.

Lemma keeps_readDoc {A} (f : AccountDoc -> A * AccountDoc) :
  (forall m, I m -> I (withDoc (snd (f (doc m))) m)) -> keeps I (readDoc f).
Proof. intros Hf m H. simpl. now apply Hf. Qed.

Lemma keeps_setStateIsActive b :
  (forall m, I m -> I (withStateIsActive b m)) -> keeps I (setStateIsActive b).
Proof. intros Hf m H. simpl. now apply Hf. Qed.

Lemma keeps_forEach {A} (body : A -> Step unit) (l : list A) :
  (forall x, In x l -> keeps I (body x)) -> keeps I (forEach body l).
Proof.
  induction l as [|x l IH]; intros Hb; simpl.
  - apply keeps_ret.
  - apply keeps_bind.
    + apply Hb. now left.
    + intros _. apply IH. intros y Hy. apply Hb. now right.
Qed.

End Keeps.

Ltac keeps_tac :=
  repeat first
    [ apply keeps_bind; [|intros ?]
    | apply keeps_ret
    | apply keeps_throw
    | apply keeps_getDoc
    | apply keeps_getInitialBalance
    | apply keeps_getAccountBalance
    | apply keeps_emit; solve [assumption | intros; simpl; auto]
    | apply keeps_closePosition; solve [assumption | intros; simpl; auto]
    | apply keeps_save; solve [assumption | intros; simpl; auto]
    | match goal with
      | |- keeps _ (if ?b then _ else _) => destruct b
      | |- keeps _ (let _ := _ in _) => cbv zeta
      end ].

(** The writes of a cycle to the document and to the account state: what
    they all keep, the cycle keeps. *)
Section CycleKeeps.

Variable c : Cycle.
Variables I0 I : Machine -> Prop.
Hypothesis I_logged : forall a m, I m -> I (logged a m).
Hypothesis I_countClose : forall m, I m -> I (countClose m).
Hypothesis I_countSave : forall m, I m -> I (countSave m).
Hypothesis I_gate :
  forall m, I0 m -> I (withDoc (snd (isAccountBlocked (now c) (doc m))) m).
Hypothesis I_blockAccount :
  forall m, I m ->
    I (withDoc (setBlockedUntil (Some (getMidnightTonight (tz c) (now c))) (doc m)) m).
Hypothesis I_deactivate :
  forall m, I m -> I (withDoc (setIsActive false (doc m)) m).
Hypothesis I_stateOff : forall m, I m -> I (withStateIsActive false m).
Hypothesis I_blockSymbol :
  forall m p, In p (getOpenPositions c) -> I m ->
    I (withDoc (withSymbolBlocked (symbol p) (getMidnightTonight (tz c) (now c))
                  (doc m)) m).
Hypothesis I_readSymbol :
  forall m p, In p (getOpenPositions c) -> I m ->
    I (withDoc (snd (isSymbolBlocked (now c) (doc m) (symbol p))) m).
Hypothesis I_lastCheck :
  forall m, I m -> I (withDoc (setLastCheck (Some (now c)) (doc m)) m).

Lemma checkPosition_keeps rp p :
  In p (getOpenPositions c) -> keeps I (checkPosition c rp p).
Proof.
  intros Hin. unfold checkPosition, checkPositionAt, blockSymbol.
  keeps_tac.
  - apply keeps_modifyDoc. intros m Hm. now apply I_blockSymbol.
  - apply keeps_readDoc. intros m Hm. now apply I_readSymbol.
Qed.

Lemma cycle_keeps (m : Machine) : I0 m -> I (monitorAccount c m).
Proof.
  intros H0. unfold monitorAccount.
  change (monitorBody c m) with
    ((if fst (isAccountBlocked (now c) (doc m)) then ret tt
      else
        currentBalance <- getAccountBalance c ;;
        initial <- getInitialBalance ;;
        if Js.le (totalDrawdownPercentOf initial currentBalance)
             (- PrimFloat.abs (maxDrawdownLimit (riskParams (doc m))))%float
        then maxDrawdown c (riskParams (doc m))
               (totalDrawdownPercentOf initial currentBalance)
        else
          maxOpenTradesRule c (riskParams (doc m)) (getOpenPositions c) ;;
          forEach (checkPosition c (riskParams (doc m))) (getOpenPositions c) ;;
          closing c currentBalance (currentBalance - initial)%float
            (totalDrawdownPercentOf initial currentBalance)
            (getOpenPositions c))%step
       (withDoc (snd (isAccountBlocked (now c) (doc m))) m)).
  generalize (riskParams (doc m)). intros rp.
  generalize (fst (isAccountBlocked (now c) (doc m))). intros blocked.
  match goal with |- I (machineOf (?s ?m1)) =>
    cut (keeps I s); [intros K; apply K; now apply I_gate|] end.
  unfold maxDrawdown, blockAccount, maxOpenTradesRule, closing, closeExcessTrade.
  keeps_tac;
    try (apply keeps_forEach; intros x Hx;
         first [ apply checkPosition_keeps; exact Hx | keeps_tac ]);
    try (apply keeps_modifyDoc; assumption);
    try (apply keeps_setStateIsActive; assumption).
Qed.

End CycleKeeps.

Lemma cycle_keeps_doc (c : Cycle) (Q0 Q : AccountDoc -> Prop) :
  (forall d, Q0 d -> Q (snd (isAccountBlocked (now c) d))) ->
  (forall d, Q d ->
     Q (setBlockedUntil (Some (getMidnightTonight (tz c) (now c))) d)) ->
  (forall d, Q d -> Q (setIsActive false d)) ->
  (forall d p, In p (getOpenPositions c) -> Q d ->
     Q (withSymbolBlocked (symbol p) (getMidnightTonight (tz c) (now c)) d)) ->
  (forall d p, In p (getOpenPositions c) -> Q d ->
     Q (snd (isSymbolBlocked (now c) d (symbol p)))) ->
  (forall d, Q d -> Q (setLastCheck (Some (now c)) d)) ->
  forall m, Q0 (doc m) -> Q (doc (monitorAccount c m)).
Proof.
  intros H1 H2 H3 H4 H5 H6 m H0.
  apply (cycle_keeps c (fun m => Q0 (doc m)) (fun m => Q (doc m)));
    simpl; auto.
Qed.

Lemma isAccountBlocked_fresh (now : Z) (d : AccountDoc) (u : Z) :
  blockedUntil (snd (isAccountBlocked now d)) = Some u -> now < u.
Proof.
  unfold isAccountBlocked.
  destruct (blockedUntil d) as [u0|] eqn:Hu0; simpl.
  - destruct (now <? u0) eqn:Hlt; simpl.
    + rewrite Hu0. intros E. inversion E; subst. now apply Z.ltb_lt.
    + discriminate.
  - rewrite Hu0. discriminate.
Qed.

Lemma isAccountBlocked_outside (now : Z) (d : AccountDoc) :
  blockedSymbols (snd (isAccountBlocked now d)) = blockedSymbols d
  /\ riskParams (snd (isAccountBlocked now d)) = riskParams d
  /\ isActive (snd (isAccountBlocked now d)) = isActive d
  /\ initialBalance (snd (isAccountBlocked now d)) = initialBalance d
  /\ lastCheck (snd (isAccountBlocked now d)) = lastCheck d.
Proof.
  unfold isAccountBlocked.
  destruct (blockedUntil d) as [u|]; [|repeat split].
  destruct (now <? u); repeat split.
Qed.

Lemma isSymbolBlocked_outside (now : Z) (d : AccountDoc) (sym : string) :
  sameOutsideSymbols d (snd (isSymbolBlocked now d sym)).
Proof.
  unfold isSymbolBlocked, sameOutsideSymbols.
  destruct (blockedSymbols d) as [mp|]; [|repeat split].
  destruct (mp !! sym) as [u|]; [|repeat split].
  destruct (now <? u); repeat split.
Qed.

(** ** The blocking state across a cycle *)

(** X13. After a cycle, whatever happened in it, the account block of the
    document is not stale: it is absent or ends strictly after the instant
    of the cycle.  And it is there only because it was already there, not
    yet expired, or because rule 1 tripped in this cycle and set it to the
    next midnight. *)
Theorem X13_account_block_is_never_stale_after_a_cycle
  (c : Cycle) (m : Machine) (until : Z) :
  blockedUntil (doc (monitorAccount c m)) = Some until ->
  now c < until
  /\ (blockedUntil (doc m) = Some until
      \/ (until = getMidnightTonight (tz c) (now c) /\ maxDrawdownTrips c m)).
Proof.
  intros Hu.
  split.
  - revert until Hu.
    apply (cycle_keeps_doc c (fun _ => True)
             (fun d => forall u, blockedUntil d = Some u -> now c < u));
      auto.
    + intros d _ u. apply isAccountBlocked_fresh.
    + intros d _ u E. simpl in E. inversion E. apply midnight_after.
    + intros d p _ H u E.
      destruct (isSymbolBlocked_outside (now c) d (symbol p))
        as (_ & _ & _ & _ & Hb).
      rewrite Hb in E. now apply H.
  - destruct (fst (isAccountBlocked (now c) (doc m))) eqn:Hgate.
    + left. unfold monitorAccount in Hu.
      rewrite (monitorBody_blocked c m Hgate) in Hu. exact Hu.
    + destruct (fetchedBalance c) as [b|] eqn:Hb.
      * destruct (Js.le (totalDrawdownPercentOf (stateInitialBalance m) b)
                    (- PrimFloat.abs (maxDrawdownLimit (riskParams (doc m))))%float)
          eqn:Ht.
        -- right. destruct (maxDrawdown_leaves c m b Hgate Hb Ht) as (Hd & _).
           rewrite Hd in Hu. simpl in Hu. inversion Hu.
           split; [reflexivity|]. split; [exact Hgate|]. eauto.
        -- exfalso. unfold monitorAccount in Hu.
           rewrite (monitorBody_passes c m b (conj Hgate (conj Hb Ht))) in Hu.
           revert Hu.
           match goal with |- blockedUntil (doc (machineOf (?s ?m1))) = _ -> _ =>
             assert (K : keeps (fun x => blockedUntil (doc x) = None) s) end.
           { unfold maxOpenTradesRule, closeExcessTrade, closingOf, closing.
             keeps_tac; auto;
               try (apply keeps_forEach; intros x Hx;
                    first [ unfold checkPosition, checkPositionAt, blockSymbol | idtac ];
                    keeps_tac; auto);
               try (apply keeps_modifyDoc; auto);
               try (apply keeps_readDoc; intros m' Hm'; simpl;
                    destruct (isSymbolBlocked_outside (now c) (doc m') (symbol x))
                      as (_ & _ & _ & _ & Hbu); now rewrite Hbu). }
           intros Hu. rewrite K in Hu; [discriminate|].
           unfold afterGate. rewrite (isAccountBlocked_open _ _ Hgate).
           reflexivity.
      * exfalso. unfold monitorAccount, monitorBody, bind, getDoc, readDoc,
          getAccountBalance in Hu.
        rewrite Hgate, Hb in Hu. simpl in Hu.
        rewrite (isAccountBlocked_open _ _ Hgate) in Hu. discriminate.
Qed.


(** X15. A cycle leaves the block of a symbol without an open position as it
    finds it: it is neither set, nor renewed, nor removed, also when it has
    expired.  Expired blocks are removed only when a position on their
    symbol is examined. *)
Theorem X15_blocks_of_symbols_without_positions_are_untouched
  (c : Cycle) (m : Machine) (sym : string)
  (Hnone : forall p, In p (getOpenPositions c) -> symbol p <> sym) :
  symbolBlock (doc (monitorAccount c m)) sym = symbolBlock (doc m) sym.
Proof.
  set (Q := fun d => symbolBlock d sym = symbolBlock (doc m) sym).
  apply (cycle_keeps_doc c Q Q); unfold Q; auto.
  - intros d H. now rewrite symbolBlock_isAccountBlocked.
  - intros d p Hp H. rewrite symbolBlock_withSymbolBlocked.
    destruct (decide (symbol p = sym)) as [E|_]; [|exact H].
    exfalso. exact (Hnone p Hp E).
  - intros d p Hp H. rewrite symbolBlock_isSymbolBlocked.
    destruct (decide (symbol p = sym)) as [E|_]; [|exact H].
    exfalso. exact (Hnone p Hp E).
Qed.

(** X16. A cycle never changes the risk parameters or the stored baseline of
    the document, nor the baseline of the account state, and never turns an
    account on: the document and the account state are active after the
    cycle only if they were before. *)
Theorem X16_cycle_keeps_parameters_and_baseline (c : Cycle) (m : Machine) :
  riskParams (doc (monitorAccount c m)) = riskParams (doc m)
  /\ initialBalance (doc (monitorAccount c m)) = initialBalance (doc m)
  /\ stateInitialBalance (monitorAccount c m) = stateInitialBalance m
  /\ (isActive (doc (monitorAccount c m)) = true -> isActive (doc m) = true)
  /\ (stateIsActive (monitorAccount c m) = true -> stateIsActive m = true).
Proof.
  set (I := fun x : Machine =>
         riskParams (doc x) = riskParams (doc m)
         /\ initialBalance (doc x) = initialBalance (doc m)
         /\ stateInitialBalance x = stateInitialBalance m
         /\ (isActive (doc x) = true -> isActive (doc m) = true)
         /\ (stateIsActive x = true -> stateIsActive m = true)).
  apply (cycle_keeps c I I); unfold I; simpl; auto.
  - intros x H.
    destruct (isAccountBlocked_outside (now c) (doc x)) as (_ & E1 & E2 & E3 & _).
    rewrite E1, E2, E3. exact H.
  - intros x (H1 & H2 & H3 & H4 & H5). repeat split; auto. discriminate.
  - intros x (H1 & H2 & H3 & H4 & H5). repeat split; auto. discriminate.
  - intros x p _ H.
    destruct (isSymbolBlocked_outside (now c) (doc x) (symbol p))
      as (E1 & E2 & E3 & _).
    rewrite E1, E2, E3. exact H.
Qed.

(** ** When a cycle deactivates, and when it does nothing *)

Lemma maxDrawdown_state (c : Cycle) (m : Machine) (b : float) :
  fst (isAccountBlocked (now c) (doc m)) = false ->
  fetchedBalance c = Some b ->
  Js.le (totalDrawdownPercentOf (stateInitialBalance m) b)
        (- PrimFloat.abs (maxDrawdownLimit (riskParams (doc m))))%float = true ->
  stateIsActive (monitorAccount c m)
  = if saveThrows c (saveCalls m) then stateIsActive m else false.
Proof.
  intros Hgate Hbal Htrip.
  unfold monitorAccount. rewrite (monitorBody_trips c m b Hgate Hbal Htrip).
  unfold afterGate. rewrite (isAccountBlocked_open _ _ Hgate).
  unfold maxDrawdown, blockAccount, bind, emit, modifyDoc, save, setStateIsActive.
  simpl. destruct (saveThrows c (saveCalls m)); reflexivity.
Qed.

Lemma balance_failure (c : Cycle) (m : Machine) :
  fst (isAccountBlocked (now c) (doc m)) = false ->
  fetchedBalance c = None ->
  monitorAccount c m = afterGate c m.
Proof.
  intros Hgate Hbal.
  unfold monitorAccount, monitorBody, bind, getDoc, readDoc, getAccountBalance.
  rewrite Hgate, Hbal. reflexivity.
Qed.

Lemma passing_cycle_stays_active (c : Cycle) (m : Machine) (b : float) :
  passesAccountRules c m b ->
  stateIsActive (monitorAccount c m) = stateIsActive m
  /\ isActive (doc (monitorAccount c m)) = isActive (doc m).
Proof.
  intros Hpass. unfold monitorAccount. rewrite (monitorBody_passes c m b Hpass).
  match goal with |- stateIsActive (machineOf (?s ?m1)) = _ /\ _ =>
    assert (K : keeps (fun x => stateIsActive x = stateIsActive m
                                /\ isActive (doc x) = isActive (doc m)) s) end.
  { unfold maxOpenTradesRule, closeExcessTrade, closingOf, closing.
    keeps_tac; auto;
      try (apply keeps_forEach; intros x Hx;
           first [ unfold checkPosition, checkPositionAt, blockSymbol | idtac ];
           keeps_tac; auto);
      try (apply keeps_modifyDoc; auto);
      try (apply keeps_readDoc; intros m' Hm'; simpl;
           destruct (isSymbolBlocked_outside (now c) (doc m') (symbol x))
             as (_ & E & _); now rewrite E). }
  apply K. unfold afterGate. simpl. split; [reflexivity|].
  destruct Hpass as (Hgate & _ & _).
  now rewrite (isAccountBlocked_open _ _ Hgate).
Qed.

(** X17. A cycle deactivates an account only through rule 1: if the account
    state, or the document, is active before a cycle and not after it, then
    in that cycle the gate was open, the balance was fetched and the total
    drawdown percent was at or below the max-drawdown limit; and the account
    state is deactivated only if, moreover, the save of the blocked
    document returned. *)
Theorem X17_only_max_drawdown_deactivates (c : Cycle) (m : Machine) :
  (stateIsActive m = true ->
   stateIsActive (monitorAccount c m) = false ->
   maxDrawdownTrips c m /\ saveThrows c (saveCalls m) = false)
  /\ (isActive (doc m) = true ->
      isActive (doc (monitorAccount c m)) = false ->
      maxDrawdownTrips c m).
Proof.
  destruct (fst (isAccountBlocked (now c) (doc m))) eqn:Hgate.
  { unfold monitorAccount. rewrite (monitorBody_blocked c m Hgate). simpl.
    split; intros H1 H2; congruence. }
  destruct (fetchedBalance c) as [b|] eqn:Hb.
  2:{ rewrite (balance_failure c m Hgate Hb). unfold afterGate. simpl.
      rewrite (isAccountBlocked_open _ _ Hgate). simpl.
      split; intros H1 H2; congruence. }
  destruct (Js.le (totalDrawdownPercentOf (stateInitialBalance m) b)
              (- PrimFloat.abs (maxDrawdownLimit (riskParams (doc m))))%float)
    eqn:Ht.
  - assert (Htrips : maxDrawdownTrips c m) by (split; eauto).
    split.
    + intros H1 H2. split; [exact Htrips|].
      rewrite (maxDrawdown_state c m b Hgate Hb Ht) in H2.
      destruct (saveThrows c (saveCalls m)); [congruence|reflexivity].
    + intros _ _. exact Htrips.
  - destruct (passing_cycle_stays_active c m b (conj Hgate (conj Hb Ht)))
      as (E1 & E2).
    rewrite E1, E2. split; intros H1 H2; congruence.
Qed.

(** X18. When the balance cannot be fetched, the cycle is given up before
    any rule is evaluated: the log gains no entry (no alert, no order, no
    metrics, no save) and the account state is as it was; of the document,
    only an expired account block is cleared, and only in memory. *)
Theorem X18_balance_failure_abandons_the_cycle (c : Cycle) (m : Machine)
  (Hfetch : fetchedBalance c = None) :
  log (monitorAccount c m) = log m
  /\ stateIsActive (monitorAccount c m) = stateIsActive m
  /\ stateInitialBalance (monitorAccount c m) = stateInitialBalance m
  /\ doc (monitorAccount c m) = snd (isAccountBlocked (now c) (doc m))
  /\ blockedSymbols (doc (monitorAccount c m)) = blockedSymbols (doc m)
  /\ lastCheck (doc (monitorAccount c m)) = lastCheck (doc m).
Proof.
  destruct (isAccountBlocked_outside (now c) (doc m)) as (Hs & _ & _ & _ & Hl).
  destruct (fst (isAccountBlocked (now c) (doc m))) eqn:Hgate.
  - unfold monitorAccount. rewrite (monitorBody_blocked c m Hgate). simpl.
    apply isAccountBlocked_true in Hgate. destruct Hgate as (u & Hu & Hlt).
    unfold isAccountBlocked. rewrite Hu.
    apply Z.ltb_lt in Hlt. rewrite Hlt. simpl. repeat split.
  - rewrite (balance_failure c m Hgate Hfetch). unfold afterGate. simpl.
    rewrite Hs, Hl. repeat split.
Qed.

(** ** How many close orders a cycle sends *)

Lemma closeOrders_app (l1 l2 : list Action) :
  closeOrders (l1 ++ l2) = (closeOrders l1 + closeOrders l2)%nat.
Proof.
  induction l1 as [|a l1 IH]; simpl; [reflexivity|].
  destruct a; simpl; rewrite IH; reflexivity.
Qed.

Lemma sendsAtMost_weaken {A} (n n' : nat) (s : Step A) :
  (n <= n')%nat -> sendsAtMost n s -> sendsAtMost n' s.
Proof.
  intros Hle Hs m. destruct (Hs m) as (ext & E & B). exists ext. split; [exact E|lia].
Qed.

Lemma sendsAtMost_silent {A} (s : Step A) :
  (forall m, log (machineOf (s m)) = log m) -> sendsAtMost 0 s.
Proof.
  intros H m. exists []. rewrite app_nil_r. split; [apply H|simpl; lia].
Qed.

Lemma sendsAtMost_bind {A B} (n1 n2 : nat) (s : Step A) (k : A -> Step B) :
  sendsAtMost n1 s -> (forall a, sendsAtMost n2 (k a)) ->
  sendsAtMost (n1 + n2) (bind s k).
Proof.
  intros Hs Hk m. unfold bind. specialize (Hs m).
  destruct (s m) as [a m'|m']; simpl in *.
  - destruct Hs as (e1 & E1 & B1). destruct (Hk a m') as (e2 & E2 & B2).
    exists (e1 ++ e2). split.
    + rewrite E2, E1. now rewrite app_assoc.
    + rewrite closeOrders_app. lia.
  - destruct Hs as (e1 & E1 & B1). exists e1. split; [exact E1|lia].
Qed.

Lemma sendsAtMost_emit (a : Action) :
  closeOrders [a] = 0%nat -> sendsAtMost 0 (emit a).
Proof. intros Ha m. exists [a]. split; [reflexivity|lia]. Qed.

Lemma sendsAtMost_closePosition c sym sd r :
  sendsAtMost 1 (closePosition c sym sd r).
Proof.
  intros m. exists [CloseOne sym sd r]. unfold closePosition.
  destruct (closeThrows c (closeCalls m)); simpl; split; auto.
Qed.

Lemma sendsAtMost_save c : sendsAtMost 0 (save c).
Proof.
  intros m. exists [SaveAccount (doc m)]. unfold save.
  destruct (saveThrows c (saveCalls m)); simpl; split; auto.
Qed.

Lemma sendsAtMost_forEach {A} (n : nat) (body : A -> Step unit) (l : list A) :
  (forall x, sendsAtMost n (body x)) ->
  sendsAtMost (length l * n) (forEach body l).
Proof.
  intros Hb. induction l as [|x l IH]; simpl.
  - apply sendsAtMost_silent. reflexivity.
  - apply sendsAtMost_bind; auto.
Qed.

(** A bound, found step by step. *)
Ltac sendsAtMost_tac :=
  repeat first
    [ eapply sendsAtMost_bind; [|intros ?]
    | apply sendsAtMost_closePosition
    | apply sendsAtMost_save
    | apply sendsAtMost_emit; reflexivity
    | apply sendsAtMost_silent; reflexivity ].

Lemma checkPosition_sendsAtMost c rp p : sendsAtMost 1 (checkPosition c rp p).
Proof.
  unfold checkPosition, checkPositionAt, blockSymbol.
  destruct (Js.gt _ _).
  { eapply sendsAtMost_weaken; [|sendsAtMost_tac]. simpl. lia. }
  destruct (Js.le _ _).
  { destruct (MongooseMap.validKey (symbol p));
      (eapply sendsAtMost_weaken; [|sendsAtMost_tac]); simpl; lia. }
  eapply sendsAtMost_weaken;
    [|eapply sendsAtMost_bind;
      [apply sendsAtMost_silent; reflexivity|intros blocked]].
  2:{ instantiate (1 := 1%nat). destruct blocked.
      - eapply sendsAtMost_weaken; [|sendsAtMost_tac]. simpl. lia.
      - eapply sendsAtMost_weaken; [|apply sendsAtMost_silent; reflexivity]. lia. }
  simpl. lia.
Qed.

Lemma closeExcessTrade_sendsAtMost c x : sendsAtMost 1 (closeExcessTrade c x).
Proof.
  unfold closeExcessTrade.
  eapply sendsAtMost_weaken; [|sendsAtMost_tac]. simpl. lia.
Qed.

Lemma tradesToClose_length (rp : RiskParams) (positions : list Position) :
  (length (tradesToClose rp positions) <= length positions)%nat
  /\ (0 <= maxOpenTrades rp < Z.of_nat (length positions) ->
      (length (tradesToClose rp positions)
       <= length positions - Z.to_nat (maxOpenTrades rp))%nat).
Proof.
  unfold tradesToClose, slice0.
  destruct (_ <? 0) eqn:E; rewrite length_firstn, sort_length.
  - apply Z.ltb_lt in E. split; lia.
  - apply Z.ltb_ge in E. split; lia.
Qed.

Lemma maxOpenTradesRule_sendsAtMost c rp positions :
  sendsAtMost
    (if Z.of_nat (length positions) >? maxOpenTrades rp
     then length (tradesToClose rp positions) else 0%nat)
    (maxOpenTradesRule c rp positions).
Proof.
  unfold maxOpenTradesRule. destruct (_ >? _).
  - apply (sendsAtMost_weaken (0 + length (tradesToClose rp positions) * 1));
      [lia|].
    apply sendsAtMost_bind; [apply sendsAtMost_emit; reflexivity|intros _].
    apply sendsAtMost_forEach. intros x. apply closeExcessTrade_sendsAtMost.
  - apply sendsAtMost_silent. reflexivity.
Qed.

Lemma loop_sendsAtMost c rp positions :
  sendsAtMost (length positions) (forEach (checkPosition c rp) positions).
Proof.
  apply (sendsAtMost_weaken (length positions * 1)); [lia|].
  apply sendsAtMost_forEach. intros x. apply checkPosition_sendsAtMost.
Qed.

Lemma closingOf_sendsAtMost c m b : sendsAtMost 0 (closingOf c m b).
Proof.
  unfold closingOf, closing.
  apply (sendsAtMost_weaken (0 + (0 + 0))); [lia|].
  apply sendsAtMost_bind; [apply sendsAtMost_emit; reflexivity|intros _].
  apply sendsAtMost_bind; [apply sendsAtMost_silent; reflexivity|intros _].
  apply sendsAtMost_save.
Qed.

Lemma maxDrawdown_sendsAtMost c rp pct : sendsAtMost 0 (maxDrawdown c rp pct).
Proof.
  unfold maxDrawdown, blockAccount.
  eapply sendsAtMost_weaken; [|sendsAtMost_tac]. simpl. lia.
Qed.

(** The close orders a cycle logs, counted: at most one for each excess
    trade of rule 2 and at most one for each position in the loop. *)
Lemma closeOrders_bounded (c : Cycle) (m : Machine) :
  exists ext,
    log (monitorAccount c m) = log m ++ ext
    /\ (closeOrders ext <= 2 * length (getOpenPositions c))%nat
    /\ (Z.of_nat (length (getOpenPositions c)) <= maxOpenTrades (riskParams (doc m)) ->
        (closeOrders ext <= length (getOpenPositions c))%nat)
    /\ (0 <= maxOpenTrades (riskParams (doc m)) ->
        (closeOrders ext
         <= (length (getOpenPositions c)
             - Z.to_nat (maxOpenTrades (riskParams (doc m))))
            + length (getOpenPositions c))%nat).
Proof.
  set (positions := getOpenPositions c). set (rp := riskParams (doc m)).
  set (excess := if Z.of_nat (length positions) >? maxOpenTrades rp
                 then length (tradesToClose rp positions) else 0%nat).
  assert (Hcycle : exists ext,
            log (monitorAccount c m) = log m ++ ext
            /\ (closeOrders ext <= excess + length positions)%nat).
  { destruct (fst (isAccountBlocked (now c) (doc m))) eqn:Hgate.
    { exists []. unfold monitorAccount. rewrite (monitorBody_blocked c m Hgate).
      simpl. rewrite app_nil_r. split; [reflexivity|lia]. }
    destruct (fetchedBalance c) as [b|] eqn:Hb.
    2:{ exists []. rewrite (balance_failure c m Hgate Hb).
        simpl. rewrite app_nil_r. split; [reflexivity|lia]. }
    destruct (Js.le (totalDrawdownPercentOf (stateInitialBalance m) b)
                (- PrimFloat.abs (maxDrawdownLimit (riskParams (doc m))))%float)
      eqn:Ht.
    - unfold monitorAccount. rewrite (monitorBody_trips c m b Hgate Hb Ht).
      destruct (maxDrawdown_sendsAtMost c (riskParams (doc m))
                  (totalDrawdownPercentOf (stateInitialBalance m) b)
                  (afterGate c m)) as (ext & E & B).
      exists ext. split; [exact E|lia].
    - unfold monitorAccount.
      rewrite (monitorBody_passes c m b (conj Hgate (conj Hb Ht))).
      fold positions rp.
      assert (K : sendsAtMost (excess + (length positions + 0))
                    (maxOpenTradesRule c rp positions ;;
                     forEach (checkPosition c rp) positions ;;
                     closingOf c m b)).
      { apply sendsAtMost_bind; [apply maxOpenTradesRule_sendsAtMost|intros _].
        apply sendsAtMost_bind; [apply loop_sendsAtMost|intros _].
        apply closingOf_sendsAtMost. }
      destruct (K (afterGate c m)) as (ext & E & B).
      exists ext. split; [exact E|lia]. }
  destruct Hcycle as (ext & Hlog & Hbound).
  exists ext. split; [exact Hlog|].
  destruct (tradesToClose_length rp positions) as (Hle & Hexact).
  unfold excess in Hbound.
  destruct (Z.of_nat (length positions) >? maxOpenTrades rp) eqn:E.
  - rewrite Z.gtb_ltb in E. apply Z.ltb_lt in E.
    split; [lia|]. split; [lia|]. intros H0.
    specialize (Hexact (conj H0 E)). lia.
  - rewrite Z.gtb_ltb in E. apply Z.ltb_ge in E.
    split; [lia|]. split; [lia|]. intros H0. lia.
Qed.

(** ** Cycles that are cut short, cycles that complete *)

Lemma stops_returns {A} c (s : Step A) : returns s -> stopsAtCall c s.
Proof. intros H m m' E. destruct (H m) as (a & m1 & E1). congruence. Qed.

Lemma stops_bind {A B} c (s : Step A) (k : A -> Step B) :
  stopsAtCall c s -> (forall a, stopsAtCall c (k a)) -> stopsAtCall c (bind s k).
Proof.
  intros Hs Hk m m' E. unfold bind in E.
  destruct (s m) as [a m1|m1] eqn:Es.
  - exact (Hk a m1 m' E).
  - inversion E; subst m1. exact (Hs m m' Es).
Qed.

Lemma stops_closePosition c sym sd r : stopsAtCall c (closePosition c sym sd r).
Proof.
  intros m m' E. unfold closePosition in E.
  destruct (closeThrows c (closeCalls m)) eqn:Et; [|discriminate].
  inversion E; subst m'. exists (log m). left. exists sym, sd, r.
  split; [reflexivity|]. simpl. now rewrite Nat.sub_0_r.
Qed.

Lemma stops_save c : stopsAtCall c (save c).
Proof.
  intros m m' E. unfold save in E.
  destruct (saveThrows c (saveCalls m)) eqn:Et; [|discriminate].
  inversion E; subst m'. exists (log m). right. left. exists (doc m).
  split; [reflexivity|]. simpl. now rewrite Nat.sub_0_r.
Qed.

(** The write of a block comes right after the close order of rule 4: when
    the Map refuses the key, the close order is the last thing done. *)
Lemma stops_close_then_block c sym sd until (k : Step unit) :
  stopsAtCall c k ->
  stopsAtCall c
    (closePosition c sym sd DAILY_LIMIT_REACHED ;; blockSymbol sym until ;; k).
Proof.
  intros Hk m m' E. unfold bind, closePosition in E.
  destruct (closeThrows c (closeCalls m)) eqn:Et.
  - inversion E; subst m'. exists (log m). left.
    exists sym, sd, DAILY_LIMIT_REACHED.
    split; [reflexivity|]. simpl. now rewrite Nat.sub_0_r.
  - unfold blockSymbol in E.
    destruct (MongooseMap.validKey sym) eqn:Hkey.
    + unfold bind, modifyDoc, emit in E. exact (Hk _ _ E).
    + unfold throw in E. inversion E; subst m'. exists (log m). right. right.
      exists sym, sd. split; [reflexivity|]. simpl.
      rewrite Nat.sub_0_r. auto.
Qed.

Lemma stops_forEach {A} c (body : A -> Step unit) (l : list A) :
  (forall x, stopsAtCall c (body x)) -> stopsAtCall c (forEach body l).
Proof.
  intros Hb. induction l as [|x l IH]; simpl.
  - intros m m' E. discriminate.
  - apply stops_bind; auto.
Qed.

Lemma returns_ret {A} (a : A) : returns (ret a).
Proof. intros m. eexists _, _. reflexivity. Qed.

Lemma returns_bind {A B} (s : Step A) (k : A -> Step B) :
  returns s -> (forall a, returns (k a)) -> returns (bind s k).
Proof.
  intros Hs Hk m. unfold bind. destruct (Hs m) as (a & m1 & E). rewrite E.
  apply Hk.
Qed.

Lemma returns_emit a : returns (emit a).
Proof. intros m. eexists _, _. reflexivity. Qed.

Lemma returns_getDoc : returns getDoc.
Proof. intros m. eexists _, _. reflexivity. Qed.

Lemma returns_modifyDoc f : returns (modifyDoc f).
Proof. intros m. eexists _, _. reflexivity. Qed.

Lemma returns_setStateIsActive b : returns (setStateIsActive b).
Proof. intros m. eexists _, _. reflexivity. Qed.

Lemma returns_readDoc {A} (f : AccountDoc -> A * AccountDoc) : returns (readDoc f).
Proof. intros m. eexists _, _. reflexivity. Qed.

Lemma returns_closePosition c sym sd r :
  quiet c -> returns (closePosition c sym sd r).
Proof.
  intros (Hc & _) m. unfold closePosition. rewrite Hc. eexists _, _. reflexivity.
Qed.

Lemma returns_save c : quiet c -> returns (save c).
Proof.
  intros (_ & Hs) m. unfold save. rewrite Hs. eexists _, _. reflexivity.
Qed.

Lemma returns_forEach {A} (body : A -> Step unit) (l : list A) :
  (forall x, returns (body x)) -> returns (forEach body l).
Proof.
  intros Hb. induction l as [|x l IH]; simpl.
  - apply returns_ret.
  - apply returns_bind; auto.
Qed.

Ltac steps_tac :=
  repeat first
    [ progress cbv beta zeta
    | apply stops_close_then_block
    | apply stops_bind; [|intros ?]
    | apply returns_bind; [|intros ?]
    | apply stops_closePosition
    | apply stops_save
    | apply returns_closePosition; assumption
    | apply returns_save; assumption
    | apply returns_ret | apply returns_emit | apply returns_getDoc
    | apply returns_modifyDoc | apply returns_readDoc
    | apply returns_setStateIsActive
    | match goal with
      | |- stopsAtCall _ (if ?b then _ else _) => destruct b
      | |- returns (if ?b then _ else _) => destruct b
      end
    | apply stops_returns ].

Lemma checkPosition_stops c rp p : stopsAtCall c (checkPosition c rp p).
Proof. unfold checkPosition, checkPositionAt, blockSymbol. steps_tac. Qed.

Lemma checkPosition_returns c rp p :
  quiet c -> MongooseMap.validKey (symbol p) = true ->
  returns (checkPosition c rp p).
Proof.
  intros Hq Hkey. unfold checkPosition, checkPositionAt, blockSymbol.
  cbv zeta. rewrite Hkey. steps_tac.
Qed.

Lemma loop_returns c rp l :
  quiet c -> Forall (fun p => MongooseMap.validKey (symbol p) = true) l ->
  returns (forEach (checkPosition c rp) l).
Proof.
  intros Hq. induction 1 as [|x l Hx _ IH]; simpl.
  - apply returns_ret.
  - apply returns_bind; [now apply checkPosition_returns|intros _; exact IH].
Qed.

Lemma tail_stops c m b :
  stopsAtCall c
    (maxOpenTradesRule c (riskParams (doc m)) (getOpenPositions c) ;;
     forEach (checkPosition c (riskParams (doc m))) (getOpenPositions c) ;;
     closingOf c m b).
Proof.
  apply stops_bind; [|intros ?; apply stops_bind; [|intros ?]].
  - unfold maxOpenTradesRule.
    destruct (_ >? _); [|steps_tac].
    apply stops_bind; [steps_tac|intros ?].
    apply stops_forEach. intros x. unfold closeExcessTrade. steps_tac.
  - apply stops_forEach. intros x. apply checkPosition_stops.
  - unfold closingOf, closing. steps_tac.
Qed.

(** X20. A cycle that does not complete stops at the call that failed.
    When the body of the cycle throws, either the balance could not be
    fetched and nothing was logged, or the last entry of the log is the
    close order that threw or the save that threw, or it is the close
    order of rule 4 on a symbol that the Map of blocked symbols then
    refused as a key: nothing is done after it, neither a block, nor the
    trade record of that order, nor the metrics, nor a further order. *)
Theorem X20_a_throw_ends_the_cycle_at_the_failing_call
  (c : Cycle) (m m' : Machine)
  (Hthrew : monitorBody c m = Threw m') :
  monitorAccount c m = m'
  /\ ((fetchedBalance c = None /\ log m' = log m)
      \/ (exists before sym sd r,
            log m' = before ++ [CloseOne sym sd r]
            /\ closeThrows c (closeCalls m' - 1) = true)
      \/ (exists before d,
            log m' = before ++ [SaveAccount d]
            /\ saveThrows c (saveCalls m' - 1) = true)
      \/ (exists before sym sd,
            log m' = before ++ [CloseOne sym sd DAILY_LIMIT_REACHED]
            /\ closeThrows c (closeCalls m' - 1) = false
            /\ MongooseMap.validKey sym = false)).
Proof.
  split; [unfold monitorAccount; now rewrite Hthrew|].
  destruct (fst (isAccountBlocked (now c) (doc m))) eqn:Hgate.
  { rewrite (monitorBody_blocked c m Hgate) in Hthrew. discriminate. }
  destruct (fetchedBalance c) as [b|] eqn:Hb.
  2:{ left. split; [reflexivity|].
      pose proof (balance_failure c m Hgate Hb) as E.
      unfold monitorAccount in E. rewrite Hthrew in E. simpl in E.
      rewrite E. reflexivity. }
  right.
  assert (Hstop : stopsAtCall c (fun _ : Machine => monitorBody c m)).
  { intros x x' Hx.
    destruct (Js.le (totalDrawdownPercentOf (stateInitialBalance m) b)
                (- PrimFloat.abs (maxDrawdownLimit (riskParams (doc m))))%float)
      eqn:Ht.
    - rewrite (monitorBody_trips c m b Hgate Hb Ht) in Hx.
      revert Hx. generalize (afterGate c m). intros m0 Hx.
      assert (K : stopsAtCall c
                    (maxDrawdown c (riskParams (doc m))
                       (totalDrawdownPercentOf (stateInitialBalance m) b))).
      { unfold maxDrawdown, blockAccount. steps_tac. }
      exact (K m0 x' Hx).
    - rewrite (monitorBody_passes c m b (conj Hgate (conj Hb Ht))) in Hx.
      exact (tail_stops c m b _ _ Hx). }
  destruct (Hstop m m' Hthrew)
    as (before & [(sym & sd & r & H)|[(d & H)|(sym & sd & H)]]).
  - left. exists before, sym, sd, r. exact H.
  - right. left. exists before, d. exact H.
  - right. right. exists before, sym, sd. exact H.
Qed.

Lemma maxDrawdown_returns c rp t : quiet c -> returns (maxDrawdown c rp t).
Proof. intros Hq. unfold maxDrawdown, blockAccount. steps_tac. Qed.

Lemma maxOpenTradesRule_returns c rp ps :
  quiet c -> returns (maxOpenTradesRule c rp ps).
Proof.
  intros Hq. unfold maxOpenTradesRule. destruct (_ >? _); [|steps_tac].
  apply returns_bind; [steps_tac|intros ?].
  apply returns_forEach. intros x. unfold closeExcessTrade. steps_tac.
Qed.

Lemma appends_maxOpenTradesRule c rp ps : appends (maxOpenTradesRule c rp ps).
Proof. unfold maxOpenTradesRule, closeExcessTrade. appends_tac. Qed.

(** Without a throw, a cycle that passes the account rules reaches the end
    of the loop over the positions. *)
Lemma quiet_loop c m b :
  quiet c -> storable c -> passesAccountRules c m b ->
  exists m2 ext,
    loopReaches c m (getOpenPositions c) m2 /\ log m2 = log m ++ ext.
Proof.
  intros Hq Hkeys Hpass.
  destruct (maxOpenTradesRule_returns c (riskParams (doc m)) (getOpenPositions c)
              Hq (afterGate c m)) as ([] & m1 & E1).
  destruct (loop_returns c (riskParams (doc m)) (getOpenPositions c) Hq Hkeys m1)
    as ([] & m2 & E2).
  assert (Hreach : loopReaches c m (getOpenPositions c) m2).
  { exists b. split; [exact Hpass|]. unfold bind. rewrite E1. exact E2. }
  exists m2. destruct (loopReaches_log c m _ m2 Hreach) as (pre & Hpre).
  exists pre. split; assumption.
Qed.

(** X21. A cycle in which no call throws completes.  With the balance
    fetched, no close order and no save failing, and every open position
    on a symbol the Map of blocked symbols takes as a key, the body of the
    cycle returns.  If it also passes the account rules, the last two things it
    does are to record the metrics (the fetched balance, its difference to
    the baseline, the drawdown percent and the number of open positions,
    the daily figures being [0]) and to save the document, which then
    carries the instant of the cycle as [lastCheck]; the saved document is
    the final one. *)
Theorem X21_quiet_cycle_ends_with_metrics_and_save
  (c : Cycle) (m : Machine) (b : float)
  (Hquiet : quiet c) (Hkeys : storable c)
  (Hbalance : fetchedBalance c = Some b) :
  (exists m', monitorBody c m = Returned tt m')
  /\ (passesAccountRules c m b ->
      exists ext,
        log (monitorAccount c m)
        = log m ++ ext
            ++ [ RecordMetrics
                   {| mt_currentBalance := b;
                      mt_totalPnL := (b - stateInitialBalance m)%float;
                      mt_dailyPnL := 0%float;
                      mt_totalDrawdownPercent :=
                        totalDrawdownPercentOf (stateInitialBalance m) b;
                      mt_dailyDrawdownPercent := 0%float;
                      mt_openPositions := length (getOpenPositions c) |};
                 SaveAccount (doc (monitorAccount c m)) ]
        /\ lastCheck (doc (monitorAccount c m)) = Some (now c)).
Proof.
  assert (Hend : forall m2,
             closingOf c m b m2
             = Returned tt
                 (countSave
                    (logged (SaveAccount (setLastCheck (Some (now c)) (doc m2)))
                       (withDoc (setLastCheck (Some (now c)) (doc m2))
                          (logged
                             (RecordMetrics
                                {| mt_currentBalance := b;
                                   mt_totalPnL := (b - stateInitialBalance m)%float;
                                   mt_dailyPnL := 0%float;
                                   mt_totalDrawdownPercent :=
                                     totalDrawdownPercentOf (stateInitialBalance m) b;
                                   mt_dailyDrawdownPercent := 0%float;
                                   mt_openPositions := length (getOpenPositions c) |})
                             m2))))).
  { intros m2. unfold closingOf, closing, bind, emit, modifyDoc, save. simpl.
    destruct Hquiet as (_ & Hs). rewrite Hs. reflexivity. }
  assert (Hrun : forall (Hpass : passesAccountRules c m b),
             exists m2 ext,
               log m2 = log m ++ ext
               /\ monitorBody c m = closingOf c m b m2).
  { intros Hpass.
    destruct (quiet_loop c m b Hquiet Hkeys Hpass)
      as (m2 & ext & (b' & _ & Hreach) & Hlog).
    exists m2, ext. split; [exact Hlog|].
    rewrite (monitorBody_passes c m b Hpass).
    unfold bind in Hreach |- *.
    destruct (maxOpenTradesRule c (riskParams (doc m)) (getOpenPositions c)
                (afterGate c m)) as [[] m1|m1]; [|discriminate].
    rewrite Hreach. reflexivity. }
  split.
  - destruct (fst (isAccountBlocked (now c) (doc m))) eqn:Hgate.
    { rewrite (monitorBody_blocked c m Hgate). eexists. reflexivity. }
    destruct (Js.le (totalDrawdownPercentOf (stateInitialBalance m) b)
                (- PrimFloat.abs (maxDrawdownLimit (riskParams (doc m))))%float)
      eqn:Ht.
    + rewrite (monitorBody_trips c m b Hgate Hbalance Ht).
      destruct (maxDrawdown_returns c (riskParams (doc m))
                  (totalDrawdownPercentOf (stateInitialBalance m) b) Hquiet
                  (afterGate c m)) as ([] & m' & E).
      exists m'. exact E.
    + destruct (Hrun (conj Hgate (conj Hbalance Ht))) as (m2 & ext & _ & E).
      rewrite E, Hend. eexists. reflexivity.
  - intros Hpass. destruct (Hrun Hpass) as (m2 & ext & Hlog & E).
    unfold monitorAccount. rewrite E, Hend. simpl.
    exists ext. split; [|reflexivity].
    rewrite Hlog. rewrite <- !app_assoc. reflexivity.
Qed.

(** X22. Rule 2 does not take a position out of the loop.  The positions
    are fetched once; when no call throws (no close order, no save, and
    the open positions are on symbols the Map takes as keys) and the open
    times are valid, a position that rule 2 closes as an excess trade and
    whose leverage is above the limit is sent a second close order by
    rule 3 later in the same cycle. *)
Theorem X22_excess_trade_is_examined_again_by_the_loop
  (c : Cycle) (m : Machine) (b : float) (p : Position)
  (Hquiet : quiet c)
  (Hkeys : storable c)
  (Hvalid : validTimes c)
  (Hpass : passesAccountRules c m b)
  (Hmany : maxOpenTrades (riskParams (doc m))
           < Z.of_nat (length (getOpenPositions c)))
  (Hexcess : In p (tradesToClose (riskParams (doc m)) (getOpenPositions c)))
  (Hleverage : Js.gt (Js.parseFloatOr0 (leverage p))
                 (maxLeverage (riskParams (doc m))) = true) :
  exists l1 l2 l3,
    log (monitorAccount c m)
    = log m ++ l1
        ++ CloseOne (symbol p) (side p) MAX_TRADES_EXCEEDED :: l2
        ++ CloseOne (symbol p) (side p) LEVERAGE_EXCEEDED :: l3.
Proof.
  destruct Hquiet as (Hc & Hs).
  destruct (in_split _ _ (tradesToClose_open _ _ _ Hexcess)) as (d1 & d2 & Hpos).
  destruct (in_split _ _ Hexcess) as (t1 & t2 & Ht).
  destruct (maxOpenTradesRule_run c (riskParams (doc m)) (getOpenPositions c)
              (afterGate c m) Hc Hmany) as (m' & E1 & Hlog1 & _).
  assert (Hkeys1 : Forall (fun x => MongooseMap.validKey (symbol x) = true) d1).
  { unfold storable in Hkeys. rewrite Hpos in Hkeys.
    apply Forall_app in Hkeys. exact (proj1 Hkeys). }
  destruct (loop_returns c (riskParams (doc m)) d1 (conj Hc Hs) Hkeys1 m')
    as ([] & m1 & E2).
  assert (Hreach : loopReaches c m d1 m1).
  { exists b. split; [exact Hpass|]. unfold bind. rewrite E1. exact E2. }
  destruct (appends_forEach (checkPosition c (riskParams (doc m))) d1
              (appends_checkPosition c _) m') as (pre & Hpre).
  rewrite E2 in Hpre. simpl in Hpre.
  destruct (cycle_log_from_position c m d1 p d2 m1 Hpos Hreach) as (ext & Hext).
  rewrite (checkPosition_leverage c _ p m1 Hleverage) in Hext.
  rewrite Hc in Hext. simpl in Hext.
  rewrite Hpre, Hlog1, Ht in Hext. rewrite flat_map_app in Hext.
  simpl in Hext.
  exists (Alert warning (TooManyTrades (length (getOpenPositions c))
                           (maxOpenTrades (riskParams (doc m))))
            :: flat_map (excessEntries c) t1),
    (RecordTrade (excessTradeRecord c p) :: flat_map (excessEntries c) t2 ++ pre
       ++ [Alert warning
             (LeverageExceeds (symbol p) (Js.parseFloatOr0 (leverage p))
                (maxLeverage (riskParams (doc m))))]),
    (RecordTrade (tradeRecord c p LEVERAGE_EXCEEDED) :: ext).
  rewrite Hext. simpl. rewrite <- !app_assoc. simpl.
  rewrite <- !app_assoc. reflexivity.
Qed.

(** ** Where a blocked-symbol close comes from *)







Section BlockedSymbolCloses.

Variables (c : Cycle) (m : Machine).



End BlockedSymbolCloses.


(** ** The orders a cycle sends *)


Lemma maxDrawdownTrips_dec (c : Cycle) (m : Machine) :
  maxDrawdownTrips c m \/ ~ maxDrawdownTrips c m.
Proof.
  unfold maxDrawdownTrips.
  destruct (fst (isAccountBlocked (now c) (doc m)));
    [right; intros (H & _); discriminate|].
  destruct (fetchedBalance c) as [b|];
    [|right; intros (_ & b & H & _); discriminate].
  destruct (Js.le (totalDrawdownPercentOf (stateInitialBalance m) b)
              (- PrimFloat.abs (maxDrawdownLimit (riskParams (doc m))))%float)
    eqn:Ht.
  - left. split; [reflexivity|]. exists b. auto.
  - right. intros (_ & b' & E & H). inversion E; subst. congruence.
Qed.

Lemma tail_closes_singly (c : Cycle) (m : Machine) (b : float) :
  appendsOnly (fun a => isCloseAll a = false)
    (maxOpenTradesRule c (riskParams (doc m)) (getOpenPositions c) ;;
     forEach (checkPosition c (riskParams (doc m))) (getOpenPositions c) ;;
     closingOf c m b).
Proof.
  unfold maxOpenTradesRule, closingOf, closing.
  appendsOnly_tac;
    try (apply appendsOnly_forEach; intros x Hx;
         unfold closeExcessTrade, checkPosition, checkPositionAt, blockSymbol;
         appendsOnly_tac);
    reflexivity.
Qed.

(** With no call of [closeAllPositions] among the entries, the orders sent
    are those of the close orders logged. *)
Lemma ordersSent_singly (run : CloseAllRun) (ext : list Action) :
  Forall (fun a => isCloseAll a = false) ext ->
  length (ordersSent run ext) = closeOrders ext
  /\ forall o, In o (ordersSent run ext) ->
       exists sym sd r, In (CloseOne sym sd r) ext /\ o = closingOrder sym sd.
Proof.
  induction 1 as [|a l Ha _ IH]; simpl.
  - split; [reflexivity|]. intros o [].
  - destruct IH as (IHl & IHo).
    destruct a; try discriminate Ha; simpl; split.
    all: try exact IHl.
    all: try (f_equal; exact IHl).
    all: intros o Ho.
    all: try (destruct Ho as [<-|Ho];
              [eexists _, _, _; split; [left; reflexivity|reflexivity]|]).
    all: destruct (IHo o Ho) as (sym' & sd' & r' & Hin & E);
      exists sym', sd', r'; split; [right; exact Hin|exact E].
Qed.

(** The two shapes of a cycle, by rule 1: when it trips, the cycle logs no
    close order and one call of [closeAllPositions]; when it does not, it
    logs no such call. *)
Lemma cycle_orders (c : Cycle) (m : Machine) (run : CloseAllRun) :
  exists ext,
    log (monitorAccount c m) = log m ++ ext
    /\ ((maxDrawdownTrips c m
         /\ closeOrders ext = 0%nat
         /\ ordersSent run ext
            = closeAllPositions (refetchedPositions run) (closeAllThrows run))
        \/ (~ maxDrawdownTrips c m
            /\ Forall (fun a => isCloseAll a = false) ext)).
Proof.
  destruct (fst (isAccountBlocked (now c) (doc m))) eqn:Hgate.
  { unfold monitorAccount. rewrite (monitorBody_blocked c m Hgate). simpl.
    exists []. rewrite app_nil_r. split; [reflexivity|]. right. split; [|auto].
    intros (H & _). congruence. }
  destruct (fetchedBalance c) as [b|] eqn:Hb.
  2:{ rewrite (balance_failure c m Hgate Hb). exists [].
      rewrite app_nil_r. split; [reflexivity|]. right. split; [|auto].
      intros (_ & b & H & _). congruence. }
  destruct (Js.le (totalDrawdownPercentOf (stateInitialBalance m) b)
              (- PrimFloat.abs (maxDrawdownLimit (riskParams (doc m))))%float)
    eqn:Ht.
  - assert (Htrips : maxDrawdownTrips c m).
    { split; [exact Hgate|]. exists b. auto. }
    unfold monitorAccount. rewrite (monitorBody_trips c m b Hgate Hb Ht).
    unfold afterGate. rewrite (isAccountBlocked_open _ _ Hgate).
    unfold maxDrawdown, blockAccount, bind, emit, modifyDoc, save,
      setStateIsActive.
    simpl.
    destruct (saveThrows c (saveCalls m)); simpl; rewrite <- ?app_assoc; simpl;
      eexists; (split; [reflexivity|]); left;
      (split; [exact Htrips|]); simpl; rewrite app_nil_r; auto.
  - unfold monitorAccount.
    rewrite (monitorBody_passes c m b (conj Hgate (conj Hb Ht))).
    destruct (tail_closes_singly c m b (afterGate c m)) as (ext & Hlog & Hall).
    exists ext. split; [exact Hlog|]. right. split; [|exact Hall].
    intros (_ & b' & E & H). rewrite Hb in E. inversion E; subst. congruence.
Qed.

Lemma closeEach_open (throws : nat -> bool) (positions : list Position) :
  forall k,
    (length (closeEach throws k positions) <= length positions)%nat
    /\ forall o, In o (closeEach throws k positions) ->
         exists p, In p positions /\ o = orderFor p.
Proof.
  induction positions as [|p l IH]; intros k; simpl.
  - split; [lia|]. intros o [].
  - destruct (throws k); simpl.
    + split; [lia|]. intros o [<-|[]]. exists p. auto.
    + destruct (IH (S k)) as (Hlen & Hin). split; [lia|].
      intros o [<-|Ho]; [exists p; auto|].
      destruct (Hin o Ho) as (q & Hq & E). exists q. auto.
Qed.





(** X19. The orders of a cycle are bounded.  When rule 1 trips, the cycle
    sends the orders of [closeAllPositions] and no other: at most one for
    each position open at the second fetch.  When it does not, the cycle
    sends at most two orders per open position: at most one for each excess
    trade of rule 2 and at most one for each position in the loop; with no
    more than [maxOpenTrades] positions open, at most one per position;
    with more, and [maxOpenTrades] not negative, at most
    [len - maxOpenTrades] more than that; without open positions, none. *)
Theorem X19_close_orders_are_bounded
  (c : Cycle) (m : Machine) (run : CloseAllRun) :
  exists ext,
    log (monitorAccount c m) = log m ++ ext
    /\ ((maxDrawdownTrips c m
         /\ ordersSent run ext
            = closeAllPositions (refetchedPositions run) (closeAllThrows run)
         /\ (length (ordersSent run ext)
             <= length (openPositionsOf (refetchedPositions run)))%nat)
        \/ (~ maxDrawdownTrips c m
            /\ length (ordersSent run ext) = closeOrders ext
            /\ (length (ordersSent run ext)
                <= 2 * length (getOpenPositions c))%nat
            /\ (Z.of_nat (length (getOpenPositions c))
                  <= maxOpenTrades (riskParams (doc m)) ->
                (length (ordersSent run ext)
                 <= length (getOpenPositions c))%nat)
            /\ (0 <= maxOpenTrades (riskParams (doc m)) ->
                (length (ordersSent run ext)
                 <= (length (getOpenPositions c)
                     - Z.to_nat (maxOpenTrades (riskParams (doc m))))
                    + length (getOpenPositions c))%nat))).
Proof.
  destruct (closeOrders_bounded c m) as (ext & Hlog & H2 & H1 & H0).
  destruct (cycle_orders c m run) as (ext' & Hlog' & Hshape).
  assert (ext' = ext) as ->
    by (rewrite Hlog in Hlog'; eapply app_inv_head; eauto).
  exists ext. split; [exact Hlog|].
  destruct Hshape as [(Ht & _ & Hsent)|(Hnot & Hnone)].
  - left. split; [exact Ht|]. split; [exact Hsent|].
    rewrite Hsent. exact (proj1 (closeEach_open _ _ 0%nat)).
  - right. split; [exact Hnot|].
    destruct (ordersSent_singly run ext Hnone) as (-> & _).
    repeat split; auto.
Qed.

(** ** The monitoring loop *)

Lemma cycle_state (c : Cycle) (m : Machine) :
  stateInitialBalance (monitorAccount c m) = stateInitialBalance m
  /\ (stateIsActive (monitorAccount c m) = true -> stateIsActive m = true).
Proof.
  set (I := fun x : Machine =>
         stateInitialBalance x = stateInitialBalance m
         /\ (stateIsActive x = true -> stateIsActive m = true)).
  apply (cycle_keeps c I I); unfold I; simpl; auto.
  all: intros x (H1 & H2); split; auto; discriminate.
Qed.

Lemma laterStateOf_refl (m : Machine) : laterStateOf m m.
Proof.
  repeat split; auto. exists []. now rewrite app_nil_r.
Qed.

Lemma laterStateOf_trans (m1 m2 m3 : Machine) :
  laterStateOf m1 m2 -> laterStateOf m2 m3 -> laterStateOf m1 m3.
Proof.
  intros (B1 & A1 & e1 & L1) (B2 & A2 & e2 & L2). repeat split.
  - congruence.
  - auto.
  - exists (e1 ++ e2). rewrite L2, L1. now rewrite app_assoc.
Qed.

Lemma visit_later (v : Visit) (m m' : Machine) :
  visitAccount v m = Some m' -> laterStateOf m m'.
Proof.
  unfold visitAccount. destruct (negb (stateIsActive m)).
  { intros E. inversion E. apply laterStateOf_refl. }
  destruct (reloaded v) as [d|]; [|discriminate].
  intros E. inversion E.
  destruct (cycle_state (cycle v) (beginCycle d m)) as (B & A).
  destruct (monitorBody_entries (cycle v) (beginCycle d m)) as (ext & L & _).
  repeat split; [exact B|exact A|]. exists ext. exact L.
Qed.

Lemma visit_fails (v : Visit) (m : Machine) :
  visitAccount v m = None <-> stateIsActive m = true /\ reloaded v = None.
Proof.
  unfold visitAccount. destruct (stateIsActive m); simpl.
  - destruct (reloaded v); split; try discriminate; auto.
    intros (_ & E). discriminate.
  - split; [discriminate|]. intros (E & _). discriminate.
Qed.

Lemma pass_later (w : nat -> Visit) (ms : list Machine) :
  forall i, Forall2 laterStateOf ms (monitoringPass w i ms).
Proof.
  induction ms as [|m ms IH]; intros i; simpl; [constructor|].
  destruct (visitAccount (w i) m) as [m'|] eqn:E.
  - constructor; [exact (visit_later _ _ _ E)|apply IH].
  - constructor; [apply laterStateOf_refl|].
    clear. induction ms; constructor; auto using laterStateOf_refl.
Qed.

Lemma Forall2_later_trans (l1 l2 l3 : list Machine) :
  Forall2 laterStateOf l1 l2 -> Forall2 laterStateOf l2 l3 ->
  Forall2 laterStateOf l1 l3.
Proof.
  intros H. revert l3. induction H; intros l3 H3; inversion H3; subst;
    constructor; eauto using laterStateOf_trans.
Qed.

Lemma pass_stops (w : nat -> Visit) (before : list Machine) (m : Machine)
  (after : list Machine) :
  forall i : nat,
    visitAccount (w (i + length before)%nat) m = None ->
    exists before',
      monitoringPass w i (before ++ m :: after) = before' ++ m :: after
      /\ length before' = length before.
Proof.
  induction before as [|x before IH]; intros i Hfail.
  - replace (i + length [])%nat with i in Hfail by (simpl; lia).
    simpl. rewrite Hfail. exists []. auto.
  - replace (i + length (x :: before))%nat with (S i + length before)%nat
      in Hfail by (simpl; lia).
    cbn [app monitoringPass].
    destruct (visitAccount (w i) x) as [x'|].
    + destruct (IH (S i) Hfail) as (b' & E & L).
      exists (x' :: b'). simpl. now rewrite E, L.
    + exists (x :: before). auto.
Qed.

Lemma pass_nth (w : nat -> Visit) (ms : list Machine) :
  forall (i k : nat) x,
    nth_error ms k = Some x ->
    exists x',
      nth_error (monitoringPass w i ms) k = Some x'
      /\ (x' = x \/ visitAccount (w (i + k)%nat) x = Some x').
Proof.
  induction ms as [|m ms IH]; intros i k x Hk.
  - destruct k; discriminate.
  - cbn [monitoringPass]. destruct (visitAccount (w i) m) as [m'|] eqn:E.
    + destruct k as [|k].
      * inversion Hk; subst. exists m'.
        replace (i + 0)%nat with i by lia. auto.
      * replace (i + S k)%nat with (S i + k)%nat by lia.
        apply IH. exact Hk.
    + exists x. auto.
Qed.

Lemma pass_all (w : nat -> Visit) (ms : list Machine) :
  forall i : nat,
    (forall (k : nat) x,
        nth_error ms k = Some x -> visitAccount (w (i + k)%nat) x <> None) ->
    forall (k : nat) x,
      nth_error ms k = Some x ->
      nth_error (monitoringPass w i ms) k = visitAccount (w (i + k)%nat) x.
Proof.
  induction ms as [|m ms IH]; intros i Hall k x Hk.
  - destruct k; discriminate.
  - cbn [monitoringPass]. destruct (visitAccount (w i) m) as [m'|] eqn:E.
    + destruct k as [|k].
      * inversion Hk; subst. replace (i + 0)%nat with i by lia. now rewrite E.
      * replace (i + S k)%nat with (S i + k)%nat by lia.
        apply IH; [|exact Hk].
        intros j y Hj. replace (S i + j)%nat with (i + S j)%nat by lia.
        now apply (Hall (S j)).
    + exfalso. apply (Hall 0%nat m eq_refl).
      replace (i + 0)%nat with i by lia. exact E.
Qed.

(** X24. One pass of the monitoring loop visits the accounts in order and
    each on its own.  After a pass every account state is either the
    result of its own visit, which reads nothing of the other accounts, or
    has the activity, the baseline and the log it had.  When the reload of
    an active account fails, that account is not monitored in this pass
    (its activity, baseline and log stay) and all accounts after it are
    left as they were.  When no reload fails, every account state is the
    result of its visit. *)
Theorem X24_a_pass_visits_accounts_in_order_until_a_reload_fails
  (w : nat -> Visit) (i : nat) (ms : list Machine) :
  length (monitoringPass w i ms) = length ms
  /\ (forall (k : nat) x,
        nth_error ms k = Some x ->
        exists x',
          nth_error (monitoringPass w i ms) k = Some x'
          /\ (sameState x x' \/ visitAccount (w (i + k)%nat) x = Some x'))
  /\ (forall before m after,
        ms = before ++ m :: after ->
        stateIsActive m = true ->
        reloaded (w (i + length before)%nat) = None ->
        exists before' m',
          monitoringPass w i ms = before' ++ m' :: after
          /\ length before' = length before
          /\ sameState m m')
  /\ ((forall (k : nat) x,
         nth_error ms k = Some x ->
         stateIsActive x = true -> reloaded (w (i + k)%nat) <> None) ->
      forall (k : nat) x,
        nth_error ms k = Some x ->
        nth_error (monitoringPass w i ms) k = visitAccount (w (i + k)%nat) x).
Proof.
  split; [|split; [|split]].
  - symmetry. exact (List.Forall2_length (pass_later w ms i)).
  - intros k x Hk. destruct (pass_nth w ms i k x Hk) as (x' & E & [->|Hv]).
    + exists x. split; [exact E|]. left. repeat split.
    + exists x'. auto.
  - intros before m after E Hact Hnone. subst ms.
    destruct (pass_stops w before m after i) as (before' & Hpass & Hlen).
    { apply visit_fails. auto. }
    exists before', m. repeat split; assumption.
  - intros Hall. apply pass_all. intros k x Hk Hfail.
    apply visit_fails in Hfail. destruct Hfail as (Hact & Hnone).
    exact (Hall k x Hk Hact Hnone).
Qed.

(** X25. Across any number of passes of the monitoring loop, the list of
    account states keeps its length and every account keeps its place; the
    baseline of an account state never changes, an account state that is
    off is never turned on again, and its log only grows.  An account
    state that is off is not touched at all. *)
Theorem X25_monitoring_loop_keeps_baselines_and_never_reactivates
  (passes : list (nat -> Visit)) (ms : list Machine) :
  Forall2 laterStateOf ms (monitoringLoop passes ms)
  /\ length (monitoringLoop passes ms) = length ms
  /\ (forall k m,
        nth_error ms k = Some m -> stateIsActive m = false ->
        nth_error (monitoringLoop passes ms) k = Some m).
Proof.
  assert (H : Forall2 laterStateOf ms (monitoringLoop passes ms)).
  { unfold monitoringLoop. revert ms.
    induction passes as [|w passes IH]; intros ms; simpl.
    - induction ms; constructor; auto using laterStateOf_refl.
    - eapply Forall2_later_trans; [apply (pass_later w ms 0)|apply IH]. }
  split; [exact H|]. split.
  - symmetry. exact (List.Forall2_length H).
  - intros k m. apply loop_keeps_inactive.
Qed.

(** ** The further scenarios, run *)

(** An account first started with a balance of 1000, started again when
    the balance is 1200: the baseline stays 1000 and nothing is saved. *)
Lemma X6_witness :
  fst (initializeAccount (Cases.start 1000) Cases.unfunded) = Some Cases.funded
  /\ initializeAccount (Cases.start 1200) (doc Cases.funded)
     = (Some Cases.funded, []).
Proof.
  split; [reflexivity|].
  apply (proj1 (X6_baseline_survives_restart
                  (Cases.start 1000) (Cases.start 1200) Cases.unfunded
                  Cases.funded 1200%float eq_refl eq_refl eq_refl)).
  reflexivity.
Defined.

(** A start with an active and a switched-off account stored. *)
Lemma X7_witness :
  startMonitoring Cases.startup = Some [Cases.funded]
  /\ connected Cases.startup = true
  /\ Forall freshState [Cases.funded].
Proof.
  pose proof (X7_startMonitoring_monitors_active_accounts_only
                Cases.startup [Cases.funded] eq_refl)
    as (Hconn & _ & _ & Hfresh & _).
  split; [reflexivity|]. split; assumption.
Defined.

(** The cycle in which rule 1 trips leaves the account blocked until the
    next midnight. *)
Lemma X13_witness :
  blockedUntil (doc (monitorAccount (Scenario.calm 700 Scenario.six)
                       Scenario.fresh))
  = Some Scenario.nextMidnight
  /\ Scenario.morning < Scenario.nextMidnight.
Proof.
  pose proof (X13_account_block_is_never_stale_after_a_cycle
                (Scenario.calm 700 Scenario.six) Scenario.fresh
                Scenario.nextMidnight eq_refl) as (Hlt & _).
  split; [reflexivity|exact Hlt].
Defined.


(** BTC/USDT blocked and only a position on ETH/USDT open. *)
Lemma X15_witness :
  map symbol (getOpenPositions (Scenario.calm 1000 [Scenario.flatEth]))
  = ["ETH/USDT"]
  /\ symbolBlock
       (doc (monitorAccount (Scenario.calm 1000 [Scenario.flatEth])
               Scenario.btcBlocked)) "BTC/USDT"
     = symbolBlock (doc Scenario.btcBlocked) "BTC/USDT".
Proof.
  split; [reflexivity|].
  apply (X15_blocks_of_symbols_without_positions_are_untouched
           (Scenario.calm 1000 [Scenario.flatEth]) Scenario.btcBlocked
           "BTC/USDT").
  intros p Hp. vm_compute in Hp. destruct Hp as [<-|[]]. discriminate.
Defined.

(** Six positions open and the balance not to be had. *)
Lemma X18_witness :
  fetchedBalance (Cases.noBalance Scenario.six) = None
  /\ log (monitorAccount (Cases.noBalance Scenario.six) Scenario.fresh) = []
  /\ stateIsActive (monitorAccount (Cases.noBalance Scenario.six) Scenario.fresh)
     = true.
Proof.
  pose proof (X18_balance_failure_abandons_the_cycle
                (Cases.noBalance Scenario.six) Scenario.fresh eq_refl)
    as (Hlog & Hact & _).
  split; [reflexivity|]. split; assumption.
Defined.

(** An over-leveraged position whose close order throws: the cycle stops
    there. *)
Lemma X20_witness :
  monitorBody (Cases.closeFails 1000 [Scenario.overLeveraged]) Scenario.fresh
  = Threw (monitorAccount (Cases.closeFails 1000 [Scenario.overLeveraged])
             Scenario.fresh)
  /\ log (monitorAccount (Cases.closeFails 1000 [Scenario.overLeveraged])
            Scenario.fresh)
     = [ Alert warning (LeverageExceeds "BTC/USDT" 25 20);
         CloseOne "BTC/USDT" long LEVERAGE_EXCEEDED ]
  /\ ((fetchedBalance (Cases.closeFails 1000 [Scenario.overLeveraged]) = None
       /\ log (monitorAccount (Cases.closeFails 1000 [Scenario.overLeveraged])
                 Scenario.fresh)
          = log Scenario.fresh)
      \/ (exists before sym sd r,
            log (monitorAccount (Cases.closeFails 1000 [Scenario.overLeveraged])
                   Scenario.fresh)
            = before ++ [CloseOne sym sd r]
            /\ closeThrows (Cases.closeFails 1000 [Scenario.overLeveraged])
                 (closeCalls
                    (monitorAccount
                       (Cases.closeFails 1000 [Scenario.overLeveraged])
                       Scenario.fresh) - 1)
               = true)
      \/ (exists before d,
            log (monitorAccount (Cases.closeFails 1000 [Scenario.overLeveraged])
                   Scenario.fresh)
            = before ++ [SaveAccount d]
            /\ saveThrows (Cases.closeFails 1000 [Scenario.overLeveraged])
                 (saveCalls
                    (monitorAccount
                       (Cases.closeFails 1000 [Scenario.overLeveraged])
                       Scenario.fresh) - 1)
               = true)
      \/ (exists before sym sd,
            log (monitorAccount (Cases.closeFails 1000 [Scenario.overLeveraged])
                   Scenario.fresh)
            = before ++ [CloseOne sym sd DAILY_LIMIT_REACHED]
            /\ closeThrows (Cases.closeFails 1000 [Scenario.overLeveraged])
                 (closeCalls
                    (monitorAccount
                       (Cases.closeFails 1000 [Scenario.overLeveraged])
                       Scenario.fresh) - 1)
               = false
            /\ MongooseMap.validKey sym = false)).
Proof.
  split; [reflexivity|]. split; [reflexivity|].
  apply (X20_a_throw_ends_the_cycle_at_the_failing_call
           (Cases.closeFails 1000 [Scenario.overLeveraged]) Scenario.fresh
           (monitorAccount (Cases.closeFails 1000 [Scenario.overLeveraged])
              Scenario.fresh)
           eq_refl).
Defined.

(** A flat position, nothing throwing. *)
Lemma X21_witness :
  passesAccountRules (Scenario.calm 1000 [Scenario.flatEth]) Scenario.fresh 1000
  /\ lastCheck (doc (monitorAccount (Scenario.calm 1000 [Scenario.flatEth])
                       Scenario.fresh))
     = Some Scenario.morning.
Proof.
  assert (Hpass : passesAccountRules (Scenario.calm 1000 [Scenario.flatEth])
                    Scenario.fresh 1000%float).
  { repeat split; reflexivity. }
  destruct (proj2 (X21_quiet_cycle_ends_with_metrics_and_save
                     (Scenario.calm 1000 [Scenario.flatEth]) Scenario.fresh
                     1000%float
                     (conj (fun _ => eq_refl) (fun _ => eq_refl))
                     ltac:(repeat constructor) eq_refl)
              Hpass) as (ext & _ & Hlast).
  split; [exact Hpass|exact Hlast].
Defined.

(** Seven positions against [maxOpenTrades = 3], the newest with leverage
    25: it is closed by rule 2 and again by rule 3. *)
Lemma X22_witness :
  In Cases.excessive (tradesToClose Scenario.params Cases.seven)
  /\ closedFor MAX_TRADES_EXCEEDED
       (log (monitorAccount (Scenario.calm 1000 Cases.seven) Scenario.fresh))
     = [("AVAX/USDT", long); ("DOT/USDT", long); ("ADA/USDT", long);
        ("XRP/USDT", long)]
  /\ closedFor LEVERAGE_EXCEEDED
       (log (monitorAccount (Scenario.calm 1000 Cases.seven) Scenario.fresh))
     = [("AVAX/USDT", long)]
  /\ exists l1 l2 l3,
       log (monitorAccount (Scenario.calm 1000 Cases.seven) Scenario.fresh)
       = log Scenario.fresh ++ l1
           ++ CloseOne "AVAX/USDT" long MAX_TRADES_EXCEEDED :: l2
           ++ CloseOne "AVAX/USDT" long LEVERAGE_EXCEEDED :: l3.
Proof.
  assert (Hin : In Cases.excessive
                  (tradesToClose Scenario.params Cases.seven)).
  { left. reflexivity. }
  split; [exact Hin|]. split; [vm_compute; reflexivity|].
  split; [vm_compute; reflexivity|].
  exact (X22_excess_trade_is_examined_again_by_the_loop
           (Scenario.calm 1000 Cases.seven) Scenario.fresh 1000%float
           Cases.excessive
           (conj (fun _ => eq_refl) (fun _ => eq_refl))
           ltac:(repeat constructor)
           ltac:(repeat constructor; eexists; reflexivity)
           (conj eq_refl (conj eq_refl eq_refl))
           ltac:(vm_compute; reflexivity) Hin eq_refl).
Defined.
